(** * Swap aggregation gateway: the provider-orchestration engine

    A shallow embedding of the TypeScript services that classify a swap
    request, keep the provider registry, rank providers, compare quotes,
    splice Permit2 signatures and run the universal pre-check, together with
    the properties the specification states about them.

    Conventions of the embedding:
    - a JavaScript [number] is an IEEE 754 binary64 value, [spec_float] of
      the Standard Library with precision 53 and maximal exponent 1024;
    - an amount ([sellAmount], [buyAmount], an allowance, a balance) is a
      base-10 string of digits at every boundary of the program; it is held
      here by its value in [N], and [parseFloat] and [BigInt] are the two
      readings the code makes of such a string;
    - a [Map] whose iteration order the code observes is an association
      list in insertion order; a [Map] that is only read by key is a [gmap];
    - a call that may throw returns [result]; mutable service fields are
      threaded as explicit state. *)

From Stdlib Require Import ZArith NArith List String Ascii Bool Lia.
From Stdlib Require Import Floats.SpecFloat DecimalString.
From stdpp Require Import base decidable option list strings gmap.
From Equations Require Import Equations.
From Equations.Prop Require Import Logic.
Import ListNotations.
Open Scope Z_scope.

(** ** JavaScript values used by the services *)

Module JS.

(** Result of a call that may throw an [Error] with a message. *)
Inductive result (A : Type) : Type :=
| Ok (a : A)
| Throw (message : string).
Arguments Ok {A} a.
Arguments Throw {A} message.

Definition bind {A B : Type} (r : result A) (k : A -> result B) : result B :=
  match r with
  | Ok a => k a
  | Throw m => Throw m
  end.

Definition number : Type := spec_float.
Definition prec : Z := 53.
Definition emax : Z := 1024.

(** The [number] nearest to an integer (round to nearest, ties to even). *)
Definition of_Z (z : Z) : number := binary_normalize prec emax z 0 false.

Definition add : number -> number -> number := SFadd prec emax.
Definition sub : number -> number -> number := SFsub prec emax.
Definition mul : number -> number -> number := SFmul prec emax.
Definition div : number -> number -> number := SFdiv prec emax.

(** [a < b] and [a > b]; both are false when an operand is NaN. *)
Definition lt (a b : number) : bool := SFltb a b.
Definition gt (a b : number) : bool := SFltb b a.

Definition isNaN (x : number) : bool :=
  match x with S754_nan => true | _ => false end.

(** [ToBoolean] on a number: zero of either sign and NaN are falsy. *)
Definition truthy (x : number) : bool :=
  match x with
  | S754_zero _ | S754_nan => false
  | _ => true
  end.

(** [Math.max] on two arguments: NaN is contagious and +0 is above -0. *)
Definition Math_max (a b : number) : number :=
  if isNaN a || isNaN b then S754_nan
  else if lt a b then b
  else if lt b a then a
  else match a with
       | S754_zero true => b
       | _ => a
       end.

(** An amount: the value of a base-10 string of digits. *)
Definition Amount : Type := N.

(** [parseFloat] on a string of digits: the nearest [number]. *)
Definition parseFloat (a : Amount) : number := of_Z (Z.of_N a).

(** [BigInt] on a string of digits: its exact value. *)
Definition BigInt (a : Amount) : Z := Z.of_N a.

Definition lower_ascii (c : ascii) : ascii :=
  let n := nat_of_ascii c in
  if (Nat.leb 65 n && Nat.leb n 90)%bool then ascii_of_nat (n + 32) else c.

(** [String.prototype.toLowerCase] on the ASCII range. *)
Fixpoint toLowerCase (s : string) : string :=
  match s with
  | EmptyString => EmptyString
  | String c rest => String (lower_ascii c) (toLowerCase rest)
  end.

Definition decimal (n : N) : string := NilZero.string_of_uint (N.to_uint n).

Fixpoint zeros (k : nat) : string :=
  match k with
  | O => EmptyString
  | S k' => String "0" (zeros k')
  end.

(** The digits of [n] with a point before the last two of them, padded
    with zeros to at least three digits. *)
Definition two_decimals (n : N) : string :=
  let m := decimal n in
  let m := (zeros (3 - String.length m) ++ m)%string in
  let k := String.length m in
  (substring 0 (k - 2) m ++ "." ++ substring (k - 2) 2 m)%string.

(** [Number.prototype.toFixed(2)].  A finite value below 10^21 is shown as
    the integer [n] closest to [100 * x] (the larger one on a tie) with
    two decimals.  At 10^21 and above JavaScript switches to its exponent
    notation, which is not rendered here: the result is [None]. *)
Definition toFixed2 (x : number) : option string :=
  match x with
  | S754_nan => Some "NaN"%string
  | S754_infinity false => Some "Infinity"%string
  | S754_infinity true => Some "-Infinity"%string
  | S754_zero _ => Some "0.00"%string
  | S754_finite s m e =>
      let big :=
        if 0 <=? e then 10 ^ 21 <=? Z.pos m * 2 ^ e
        else 10 ^ 21 * 2 ^ (- e) <=? Z.pos m in
      if big then None
      else
        let n :=
          if 0 <=? e then 100 * Z.pos m * 2 ^ e
          else (200 * Z.pos m + 2 ^ (- e)) / 2 ^ (- e + 1) in
        Some ((if s then "-" else "") ++ two_decimals (Z.to_N n))%string
  end.

End JS.

Export JS (result, Ok, Throw).

(** ** Insertion-ordered maps

    [Map.prototype.has], [get], [set] and [values]: [set] keeps the place of
    a key that is present and appends a new key at the end. *)

Section OrderedMap.
Context {K V : Type} `{EqDecision K}.

Definition Map_has (k : K) (m : list (K * V)) : bool :=
  existsb (fun kv => bool_decide (kv.1 = k)) m.

Definition Map_get (k : K) (m : list (K * V)) : option V :=
  match List.find (fun kv => bool_decide (kv.1 = k)) m with
  | Some kv => Some kv.2
  | None => None
  end.

Fixpoint Map_set (k : K) (v : V) (m : list (K * V)) : list (K * V) :=
  match m with
  | [] => [(k, v)]
  | kv :: rest =>
      if bool_decide (kv.1 = k) then (k, v) :: rest
      else kv :: Map_set k v rest
  end.

Definition Map_values (m : list (K * V)) : list V := map snd m.

End OrderedMap.

(** ** Domain model (swap-request.model.ts, ports.ts) *)

Inductive AggregatorType := ZEROX | ODOS.
Inductive ApprovalStrategy := ALLOWANCE_HOLDER | PERMIT2.
Inductive ProviderCategory :=
  EVM_AGGREGATOR | META_AGGREGATOR | SOLANA_ROUTER | NATIVE_ROUTER.
Inductive HealthStatus := healthy | degraded | unhealthy.

#[global] Instance AggregatorType_eq_dec : EqDecision AggregatorType.
Proof. solve_decision. Defined.
#[global] Instance ApprovalStrategy_eq_dec : EqDecision ApprovalStrategy.
Proof. solve_decision. Defined.
#[global] Instance HealthStatus_eq_dec : EqDecision HealthStatus.
Proof. solve_decision. Defined.

(** A value found where a chain id is expected ([chainId?: number | string]):
    an integer number, a string, [undefined] when the field is absent, or
    the NaN that [Number] makes of a value that is not numeric. *)
Inductive chain_id :=
| CNum (n : Z)
| CStr (s : string)
| CUndefined
| CNaN.

#[global] Instance chain_id_eq_dec : EqDecision chain_id.
Proof. solve_decision. Defined.

#[global] Instance chain_id_countable : Countable chain_id.
Proof.
  refine (inj_countable'
    (fun c => match c with
              | CNum n => inl (inl n)
              | CStr s => inl (inr s)
              | CUndefined => inr true
              | CNaN => inr false
              end)
    (fun x => match x with
              | inl (inl n) => CNum n
              | inl (inr s) => CStr s
              | inr true => CUndefined
              | inr false => CNaN
              end) _).
  intros []; reflexivity.
Defined.

(** Strict equality [===]: NaN is equal to nothing, a number to no string. *)
Definition strict_eq (a b : chain_id) : bool :=
  match a, b with
  | CNum x, CNum y => x =? y
  | CStr s, CStr t => String.eqb s t
  | CUndefined, CUndefined => true
  | _, _ => false
  end.

(** [ToBoolean]: [undefined], NaN, 0 and the empty string are falsy. *)
Definition chain_truthy (c : chain_id) : bool :=
  match c with
  | CNum n => negb (n =? 0)
  | CStr s => negb (String.eqb s "")
  | CUndefined | CNaN => false
  end.

(** [Array.prototype.includes] on an array of numbers. *)
Definition includes (l : list Z) (c : chain_id) : bool :=
  match c with
  | CNum n => existsb (Z.eqb n) l
  | _ => false
  end.

Record Permit2Data := {
  permit_type : string;
  permit_hash : string;
  eip712_types : string;
  eip712_domain : string;
  eip712_message : list (string * string);
  eip712_primaryType : string
}.

(** [SwapQuote]; the ports form names its aggregator by a string, the
    legacy form by an [AggregatorType]. *)
Record SwapQuoteOf (A : Type) := {
  q_sellToken : string;
  q_buyToken : string;
  q_sellAmount : JS.Amount;
  buyAmount : JS.Amount;
  minBuyAmount : JS.Amount;
  q_gas : JS.Amount;
  q_to : string;
  q_data : string;
  q_value : JS.Amount;
  allowanceTarget : option string;
  q_aggregator : A;
  permit2 : option Permit2Data;
  q_approvalStrategy : option ApprovalStrategy
}.
Arguments q_sellToken {A}.
Arguments q_buyToken {A}.
Arguments q_sellAmount {A}.
Arguments buyAmount {A}.
Arguments minBuyAmount {A}.
Arguments q_gas {A}.
Arguments q_to {A}.
Arguments q_data {A}.
Arguments q_value {A}.
Arguments allowanceTarget {A}.
Arguments q_aggregator {A}.
Arguments permit2 {A}.
Arguments q_approvalStrategy {A}.

Definition PortsSwapQuote := SwapQuoteOf string.
Definition SwapQuote := SwapQuoteOf AggregatorType.

Record SwapRequestOf (A : Type) := {
  chainId : chain_id;
  sellToken : string;
  buyToken : string;
  sellAmount : JS.Amount;
  taker : string;
  recipient : option string;
  slippagePercentage : option JS.number;
  deadline : option Z;
  aggregator : A;
  approvalStrategy : option ApprovalStrategy
}.
Arguments chainId {A}.
Arguments sellToken {A}.
Arguments buyToken {A}.
Arguments sellAmount {A}.
Arguments taker {A}.
Arguments recipient {A}.
Arguments slippagePercentage {A}.
Arguments deadline {A}.
Arguments aggregator {A}.
Arguments approvalStrategy {A}.

Definition SwapRequest := SwapRequestOf (option AggregatorType).
Definition PortsSwapRequest := SwapRequestOf string.

Record ProviderHealth := {
  h_name : string;
  status : HealthStatus;
  latency : option JS.number;
  lastCheck : Z;
  errorRate : option JS.number
}.

(** An adapter behind [IOnchainAggregator]: its name and what it answers.
    The adapter bodies are external services; an adapter is given by its
    answers during the run under study. *)
Record OnchainAggregator := {
  getProviderName : string;
  healthCheck : result ProviderHealth;
  supportsChain : chain_id -> bool;
  getQuote : PortsSwapRequest -> option bool -> result PortsSwapQuote
}.

(** An adapter of another category, seen through [IProvider]. *)
Record Provider := {
  p_name : string;
  p_healthCheck : result ProviderHealth
}.

Definition AggregatorType_name (t : AggregatorType) : string :=
  match t with ZEROX => "0x" | ODOS => "odos" end.

(** ** The aggregator manager (aggregator-manager.service.ts) *)

Inductive LogEvent :=
| WarnDuplicate (category : ProviderCategory) (name : string)
| LogRegistered (category : ProviderCategory) (name : string)
| DebugLegacy (t : AggregatorType)
| LogRegistrationComplete.

Record Manager := {
  aggregators : list (AggregatorType * OnchainAggregator);
  evmAggregators : list (string * OnchainAggregator);
  metaAggregators : list (string * Provider);
  solanaRouters : list (string * Provider);
  nativeRouters : list (string * Provider);
  healthCache : gmap string ProviderHealth;
  registrationComplete : bool;
  logger : list LogEvent
}.

Definition healthCacheTimeout : Z := 5 * 60 * 1000.

Definition new_Manager : Manager :=
  {| aggregators := []; evmAggregators := []; metaAggregators := [];
     solanaRouters := []; nativeRouters := []; healthCache := ∅;
     registrationComplete := false; logger := [] |}.

Definition log (e : LogEvent) (st : Manager) : Manager :=
  {| aggregators := aggregators st; evmAggregators := evmAggregators st;
     metaAggregators := metaAggregators st; solanaRouters := solanaRouters st;
     nativeRouters := nativeRouters st; healthCache := healthCache st;
     registrationComplete := registrationComplete st;
     logger := logger st ++ [e] |}.

Definition registerInLegacyMap (name : string) (provider : OnchainAggregator)
    (st : Manager) : Manager :=
  let lowerName := JS.toLowerCase name in
  if String.eqb lowerName "0x" then
    log (DebugLegacy ZEROX)
      {| aggregators := Map_set ZEROX provider (aggregators st);
         evmAggregators := evmAggregators st;
         metaAggregators := metaAggregators st;
         solanaRouters := solanaRouters st; nativeRouters := nativeRouters st;
         healthCache := healthCache st;
         registrationComplete := registrationComplete st;
         logger := logger st |}
  else if String.eqb lowerName "odos" then
    log (DebugLegacy ODOS)
      {| aggregators := Map_set ODOS provider (aggregators st);
         evmAggregators := evmAggregators st;
         metaAggregators := metaAggregators st;
         solanaRouters := solanaRouters st; nativeRouters := nativeRouters st;
         healthCache := healthCache st;
         registrationComplete := registrationComplete st;
         logger := logger st |}
  else st.

Definition registerEvmAggregator (provider : OnchainAggregator)
    (st : Manager) : Manager :=
  let name := getProviderName provider in
  if Map_has name (evmAggregators st) then
    log (WarnDuplicate EVM_AGGREGATOR name) st
  else
    let st :=
      {| aggregators := aggregators st;
         evmAggregators := Map_set name provider (evmAggregators st);
         metaAggregators := metaAggregators st;
         solanaRouters := solanaRouters st; nativeRouters := nativeRouters st;
         healthCache := healthCache st;
         registrationComplete := registrationComplete st;
         logger := logger st |} in
    let st := registerInLegacyMap name provider st in
    log (LogRegistered EVM_AGGREGATOR name) st.

Definition registerMetaAggregator (provider : Provider) (st : Manager)
    : Manager :=
  let name := p_name provider in
  if Map_has name (metaAggregators st) then
    log (WarnDuplicate META_AGGREGATOR name) st
  else
    log (LogRegistered META_AGGREGATOR name)
      {| aggregators := aggregators st; evmAggregators := evmAggregators st;
         metaAggregators := Map_set name provider (metaAggregators st);
         solanaRouters := solanaRouters st; nativeRouters := nativeRouters st;
         healthCache := healthCache st;
         registrationComplete := registrationComplete st;
         logger := logger st |}.

Definition registerSolanaRouter (provider : Provider) (st : Manager)
    : Manager :=
  let name := p_name provider in
  if Map_has name (solanaRouters st) then
    log (WarnDuplicate SOLANA_ROUTER name) st
  else
    log (LogRegistered SOLANA_ROUTER name)
      {| aggregators := aggregators st; evmAggregators := evmAggregators st;
         metaAggregators := metaAggregators st;
         solanaRouters := Map_set name provider (solanaRouters st);
         nativeRouters := nativeRouters st; healthCache := healthCache st;
         registrationComplete := registrationComplete st;
         logger := logger st |}.

Definition registerNativeRouter (provider : Provider) (st : Manager)
    : Manager :=
  let name := p_name provider in
  if Map_has name (nativeRouters st) then
    log (WarnDuplicate NATIVE_ROUTER name) st
  else
    log (LogRegistered NATIVE_ROUTER name)
      {| aggregators := aggregators st; evmAggregators := evmAggregators st;
         metaAggregators := metaAggregators st;
         solanaRouters := solanaRouters st;
         nativeRouters := Map_set name provider (nativeRouters st);
         healthCache := healthCache st;
         registrationComplete := registrationComplete st;
         logger := logger st |}.

(** What [registerProvider] receives: [AnyProvider] with its category. *)
Inductive AnyProvider :=
| AnEvmAggregator (p : OnchainAggregator)
| AMetaAggregator (p : Provider)
| ASolanaRouter (p : Provider)
| ANativeRouter (p : Provider).

Definition category_of (p : AnyProvider) : ProviderCategory :=
  match p with
  | AnEvmAggregator _ => EVM_AGGREGATOR
  | AMetaAggregator _ => META_AGGREGATOR
  | ASolanaRouter _ => SOLANA_ROUTER
  | ANativeRouter _ => NATIVE_ROUTER
  end.

Definition registerProvider (provider : AnyProvider) (st : Manager) : Manager :=
  match provider with
  | AnEvmAggregator p => registerEvmAggregator p st
  | AMetaAggregator p => registerMetaAggregator p st
  | ASolanaRouter p => registerSolanaRouter p st
  | ANativeRouter p => registerNativeRouter p st
  end.

Definition onRegistrationComplete (st : Manager) : Manager :=
  if registrationComplete st then st
  else
    log LogRegistrationComplete
      {| aggregators := aggregators st; evmAggregators := evmAggregators st;
         metaAggregators := metaAggregators st;
         solanaRouters := solanaRouters st; nativeRouters := nativeRouters st;
         healthCache := healthCache st; registrationComplete := true;
         logger := logger st |}.

(** The registry proper: the four per-category maps and the legacy map. *)
Definition registry (st : Manager) :=
  (aggregators st, evmAggregators st, metaAggregators st, solanaRouters st,
   nativeRouters st).

Definition set_healthCache (c : gmap string ProviderHealth) (st : Manager)
    : Manager :=
  {| aggregators := aggregators st; evmAggregators := evmAggregators st;
     metaAggregators := metaAggregators st; solanaRouters := solanaRouters st;
     nativeRouters := nativeRouters st; healthCache := c;
     registrationComplete := registrationComplete st; logger := logger st |}.

Definition as_IProvider (p : OnchainAggregator) : Provider :=
  {| p_name := getProviderName p; p_healthCheck := healthCheck p |}.

(** [getProviderHealth]: the cached entry while it is younger than the
    timeout at time [now] (milliseconds), a fresh probe otherwise; a probe
    that throws is recorded as unhealthy with error rate 1. *)
Definition getProviderHealth (now : Z) (provider : Provider) (st : Manager)
    : ProviderHealth * Manager :=
  let name := p_name provider in
  let refresh :=
    match p_healthCheck provider with
    | Ok health => (health, set_healthCache (<[name := health]> (healthCache st)) st)
    | Throw _ =>
        let failedHealth :=
          {| h_name := name; status := unhealthy; latency := None;
             lastCheck := now; errorRate := Some (JS.of_Z 1) |} in
        (failedHealth,
         set_healthCache (<[name := failedHealth]> (healthCache st)) st)
    end in
  match healthCache st !! name with
  | Some cached =>
      if now - lastCheck cached <? healthCacheTimeout then (cached, st)
      else refresh
  | None => refresh
  end.

Definition convertToPortsRequest (request : SwapRequest) : PortsSwapRequest :=
  {| chainId := chainId request; sellToken := sellToken request;
     buyToken := buyToken request; sellAmount := sellAmount request;
     taker := taker request; recipient := recipient request;
     slippagePercentage := slippagePercentage request;
     deadline := deadline request;
     aggregator :=
       match aggregator request with
       | Some t => AggregatorType_name t
       | None => "default"%string
       end;
     approvalStrategy := approvalStrategy request |}.

Definition convertToLegacyQuote (quote : PortsSwapQuote) (providerName : string)
    : SwapQuote :=
  let lowered := JS.toLowerCase providerName in
  let aggregatorType :=
    if String.eqb lowered "0x" then ZEROX
    else if String.eqb lowered "odos" then ODOS
    else ZEROX in
  {| q_sellToken := q_sellToken quote; q_buyToken := q_buyToken quote;
     q_sellAmount := q_sellAmount quote; buyAmount := buyAmount quote;
     minBuyAmount := minBuyAmount quote; q_gas := q_gas quote;
     q_to := q_to quote; q_data := q_data quote; q_value := q_value quote;
     allowanceTarget := allowanceTarget quote;
     q_aggregator := aggregatorType; permit2 := permit2 quote;
     q_approvalStrategy := q_approvalStrategy quote |}.

Definition getProvidersForChain (chain : chain_id) (st : Manager)
    : list OnchainAggregator :=
  List.filter (fun provider => supportsChain provider chain)
    (Map_values (evmAggregators st)).

(** [calculateProviderScore]: the score is updated statement by statement as
    in the source. *)
Definition calculateProviderScore (now : Z) (provider : OnchainAggregator)
    (request : SwapRequest) (st : Manager) : JS.number * Manager :=
  let score := JS.of_Z 100 in
  let '(health, st) := getProviderHealth now (as_IProvider provider) st in
  let score :=
    if bool_decide (status health = healthy) then
      let score := JS.add score (JS.of_Z 50) in
      let score :=
        match latency health with
        | Some l =>
            if JS.truthy l then
              let latencyBonus := JS.Math_max (JS.of_Z 0) (JS.sub (JS.of_Z 100) l) in
              JS.add score latencyBonus
            else score
        | None => score
        end in
      match errorRate health with
      | Some e =>
          let errorPenalty := JS.mul e (JS.of_Z 100) in
          JS.sub score errorPenalty
      | None => score
      end
    else JS.sub score (JS.of_Z 100) in
  let providerName := JS.toLowerCase (getProviderName provider) in
  let score :=
    if strict_eq (chainId request) (CNum 1) then
      if String.eqb providerName "0x" then JS.add score (JS.of_Z 20) else score
    else if strict_eq (chainId request) (CNum 137) then
      if String.eqb providerName "odos" then JS.add score (JS.of_Z 15) else score
    else score in
  (* [request.sellAmount] is a non-empty string of digits, hence truthy *)
  let score :=
    let amount := JS.parseFloat (sellAmount request) in
    if JS.gt amount (JS.of_Z (10 ^ 21)) then
      if String.eqb providerName "0x" then JS.add score (JS.of_Z 10) else score
    else score in
  let score :=
    if bool_decide (approvalStrategy request = Some PERMIT2) then
      if String.eqb providerName "0x" then JS.add score (JS.of_Z 25) else score
    else score in
  (JS.Math_max (JS.of_Z 0) score, st).

Record QuoteEntry := {
  e_aggregator : AggregatorType;
  quote : SwapQuote
}.

(** [Array.prototype.reduce] without an initial value. *)
Definition reduce {A : Type} (f : A -> A -> A) (l : list A) : result A :=
  match l with
  | [] => Throw "Reduce of empty array with no initial value"
  | x :: rest => Ok (fold_left f rest x)
  end.

(** The fulfilled results of [Promise.allSettled], in the order of the
    providers. *)
Fixpoint fulfilled (request : PortsSwapRequest)
    (providers : list OnchainAggregator) : list QuoteEntry :=
  match providers with
  | [] => []
  | provider :: rest =>
      match getQuote provider request (Some false) with
      | Ok quote =>
          let legacyQuote :=
            convertToLegacyQuote quote (getProviderName provider) in
          {| e_aggregator := q_aggregator legacyQuote; quote := legacyQuote |}
            :: fulfilled request rest
      | Throw _ => fulfilled request rest
      end
  end.

(** The arguments of [getMultipleQuotes], [getBestQuote] and
    [compareQuotes]. *)
Record LegacyParams := {
  lp_chainId : chain_id;
  lp_sellToken : string;
  lp_buyToken : string;
  lp_sellAmount : JS.Amount;
  lp_taker : string;
  lp_recipient : option string;
  lp_slippagePercentage : option JS.number;
  lp_deadline : option Z
}.

Definition getMultipleQuotes (p : LegacyParams) (st : Manager)
    : result (list QuoteEntry) :=
  let request : SwapRequest :=
    {| chainId := lp_chainId p; sellToken := lp_sellToken p;
       buyToken := lp_buyToken p; sellAmount := lp_sellAmount p;
       taker := lp_taker p; recipient := lp_recipient p;
       slippagePercentage := lp_slippagePercentage p;
       deadline := lp_deadline p; aggregator := None;
       approvalStrategy := None |} in
  let supportedProviders := getProvidersForChain (lp_chainId p) st in
  if (length supportedProviders =? 0)%nat then
    Throw "No providers support chain"
  else
    let portsRequest := convertToPortsRequest request in
    let results := fulfilled portsRequest supportedProviders in
    if (length results =? 0)%nat then
      Throw "All providers failed to provide quotes"
    else Ok results.

(** The reducers of [getBestQuote] and [compareQuotes]. *)
Definition pick_best (best current : QuoteEntry) : QuoteEntry :=
  let bestBuyAmount := JS.parseFloat (buyAmount (quote best)) in
  let currentBuyAmount := JS.parseFloat (buyAmount (quote current)) in
  if JS.gt currentBuyAmount bestBuyAmount then current else best.

Definition pick_worst (worst current : QuoteEntry) : QuoteEntry :=
  let worstBuyAmount := JS.parseFloat (buyAmount (quote worst)) in
  let currentBuyAmount := JS.parseFloat (buyAmount (quote current)) in
  if JS.lt currentBuyAmount worstBuyAmount then current else worst.

(** The selection of [getBestQuote] on the quotes it has gathered. *)
Definition bestOf (multipleQuotes : list QuoteEntry) : result QuoteEntry :=
  reduce pick_best multipleQuotes.

Definition getBestQuote (p : LegacyParams) (st : Manager) : result QuoteEntry :=
  JS.bind (getMultipleQuotes p st) bestOf.

Record Comparison := {
  quotes : list QuoteEntry;
  bestAggregator : AggregatorType;
  priceDifference : option string
}.

(** The comparison [compareQuotes] makes of the quotes it has gathered.
    [priceDifference] is [None] only where [toFixed] leaves fixed notation. *)
Definition compareOf (quotes : list QuoteEntry) : result Comparison :=
  if (length quotes =? 0)%nat then Throw "No quotes available for comparison"
  else
    JS.bind (reduce pick_best quotes) (fun bestQuote =>
    JS.bind (reduce pick_worst quotes) (fun worstQuote =>
      let bestAmount := JS.parseFloat (buyAmount (quote bestQuote)) in
      let worstAmount := JS.parseFloat (buyAmount (quote worstQuote)) in
      let priceDifference :=
        JS.toFixed2
          (JS.mul (JS.div (JS.sub bestAmount worstAmount) worstAmount)
             (JS.of_Z 100)) in
      Ok {| quotes := quotes;
            bestAggregator := e_aggregator bestQuote;
            priceDifference :=
              option_map (fun s => (s ++ "%")%string) priceDifference |})).

Definition compareQuotes (p : LegacyParams) (st : Manager) : result Comparison :=
  JS.bind (getMultipleQuotes p st) compareOf.

(** [getProvidersHealth]: the health of every registered adapter, category
    by category, through the cache. *)
Fixpoint healthOfAll (now : Z) (providers : list Provider) (st : Manager)
    : list ProviderHealth * Manager :=
  match providers with
  | [] => ([], st)
  | provider :: rest =>
      let '(h, st) := getProviderHealth now provider st in
      let '(hs, st) := healthOfAll now rest st in
      (h :: hs, st)
  end.

Record HealthReport := {
  evm : list ProviderHealth;
  meta : list ProviderHealth;
  solana : list ProviderHealth;
  native : list ProviderHealth
}.

Definition getProvidersHealth (now : Z) (st : Manager)
    : HealthReport * Manager :=
  let '(e, st) :=
    healthOfAll now (map as_IProvider (Map_values (evmAggregators st))) st in
  let '(m, st) := healthOfAll now (Map_values (metaAggregators st)) st in
  let '(s, st) := healthOfAll now (Map_values (solanaRouters st)) st in
  let '(n, st) := healthOfAll now (Map_values (nativeRouters st)) st in
  ({| evm := e; meta := m; solana := s; native := n |}, st).

(** ** The sibling selection of QuoteService (quote.service.ts)

    [QuoteService.getBestQuote] and [QuoteService.compareQuotes] gather the
    quotes themselves and compare them with [BigInt]. *)

Module QuoteService.

Definition pick_best (best current : QuoteEntry) : QuoteEntry :=
  let bestBuyAmount := JS.BigInt (buyAmount (quote best)) in
  let currentBuyAmount := JS.BigInt (buyAmount (quote current)) in
  if currentBuyAmount >? bestBuyAmount then current else best.

Definition bestOf (quotes : list QuoteEntry) : result QuoteEntry :=
  if (length quotes =? 0)%nat then
    Throw "No quotes available from any aggregator"
  else reduce pick_best quotes.

(** [[...quotes].sort(cmp)] with the comparator of [compareQuotes]: the
    stable sort by decreasing [buyAmount]. *)
Fixpoint insert_desc (x : QuoteEntry) (sorted : list QuoteEntry)
    : list QuoteEntry :=
  match sorted with
  | [] => [x]
  | y :: rest =>
      if JS.BigInt (buyAmount (quote x)) <? JS.BigInt (buyAmount (quote y))
      then y :: insert_desc x rest
      else x :: y :: rest
  end.

Definition sort_desc (quotes : list QuoteEntry) : list QuoteEntry :=
  fold_right insert_desc [] quotes.

(** [Number(b)] for a [BigInt]: the nearest [number]. *)
Definition Number_of_BigInt (b : Z) : JS.number := JS.of_Z b.

Definition compareOf (quotes : list QuoteEntry) : result Comparison :=
  match quotes with
  | [] => Throw "No quotes available for comparison"
  | [only] =>
      Ok {| quotes := quotes; bestAggregator := e_aggregator only;
            priceDifference := Some "0"%string |}
  | _ =>
      let sortedQuotes := sort_desc quotes in
      match sortedQuotes, List.last (map Some sortedQuotes) None with
      | bestQuote :: _, Some worstQuote =>
          let bestBuyAmount := JS.BigInt (buyAmount (quote bestQuote)) in
          let worstBuyAmount := JS.BigInt (buyAmount (quote worstQuote)) in
          let difference := bestBuyAmount - worstBuyAmount in
          let priceDifferencePercent :=
            if 0 <? worstBuyAmount then
              JS.toFixed2
                (JS.div (Number_of_BigInt (difference * 10000 / worstBuyAmount))
                   (JS.of_Z 100))
            else Some "0"%string in
          Ok {| quotes := quotes; bestAggregator := e_aggregator bestQuote;
                priceDifference := priceDifferencePercent |}
      | _, _ => Throw "Cannot read properties of undefined"
      end
  end.

End QuoteService.

(** ** The supported-quote cache (swap-cache.service.ts) *)

Abbreviation SwapCache := (gmap chain_id (gset string * gset string)).

Definition addSupportedQuote (chain : chain_id) (buyTok sellTok : string)
    (cache : SwapCache) : SwapCache :=
  let entry := default (∅, ∅) (cache !! chain) in
  <[chain := ({[ JS.toLowerCase buyTok ]} ∪ entry.1,
              {[ JS.toLowerCase sellTok ]} ∪ entry.2)]> cache.

Definition cache_isChainSupported (chain : chain_id) (tokenAddress : string)
    (cache : SwapCache) : bool :=
  match cache !! chain with
  | None => false
  | Some entry =>
      let addr := JS.toLowerCase tokenAddress in
      bool_decide (addr ∈ entry.1) || bool_decide (addr ∈ entry.2)
  end.

(** ** Universal swap request (universal-swap-request.dto.ts) *)

Inductive BlockchainEcosystem :=
  EVM | SOLANA | COSMOS | BITCOIN | SUBSTRATE | NEAR | TERRA | AVALANCHE
| THORCHAIN | MAYA.

Inductive SwapType :=
  ON_CHAIN | CROSS_CHAIN | L1_TO_L2 | L2_TO_L1 | L2_TO_L2 | NATIVE_SWAP.

Inductive TokenStandard :=
  NATIVE | ERC20 | SPL | BEP20 | COSMOS_NATIVE | RUNE | CACAO.

#[global] Instance BlockchainEcosystem_eq_dec : EqDecision BlockchainEcosystem.
Proof. solve_decision. Defined.
#[global] Instance SwapType_eq_dec : EqDecision SwapType.
Proof. solve_decision. Defined.

Record ChainInfo := {
  ci_chainId : chain_id;
  ecosystem : BlockchainEcosystem;
  network : option string
}.

Record TokenInfo := {
  address : string;
  standard : TokenStandard;
  chain : ChainInfo
}.

Record UniversalSwapRequestDto := {
  u_sellToken : TokenInfo;
  u_buyToken : TokenInfo;
  u_sellAmount : JS.Amount;
  u_taker : string;
  u_recipient : option string;
  slippageToleranceBps : option Z;
  swapType : option SwapType;
  u_deadline : option Z;
  preferredProvider : option string
}.

(** [{ ...request, swapType: s }]. *)
Definition with_swapType (s : option SwapType) (request : UniversalSwapRequestDto)
    : UniversalSwapRequestDto :=
  {| u_sellToken := u_sellToken request; u_buyToken := u_buyToken request;
     u_sellAmount := u_sellAmount request; u_taker := u_taker request;
     u_recipient := u_recipient request;
     slippageToleranceBps := slippageToleranceBps request;
     swapType := s; u_deadline := u_deadline request;
     preferredProvider := preferredProvider request |}.

(** ** The routing classifier (swap-routing.service.ts) *)

Inductive RoutingCategory := evm_aggregators | cat_meta | native_l1 | cat_solana.

#[global] Instance RoutingCategory_eq_dec : EqDecision RoutingCategory.
Proof. solve_decision. Defined.

Definition isNativeL1Swap (sellEcosystem buyEcosystem : BlockchainEcosystem)
    : bool :=
  let nativeL1Ecosystems := [BITCOIN; THORCHAIN; MAYA; COSMOS] in
  bool_decide (sellEcosystem ∈ nativeL1Ecosystems)
  || bool_decide (buyEcosystem ∈ nativeL1Ecosystems).

Definition determineEvmSwapType (sellChainId buyChainId : chain_id) : SwapType :=
  let l1Chains := [1; 56; 137] in
  let l2Chains := [10; 42161; 8453; 324] in
  let sellIsL1 := includes l1Chains sellChainId in
  let buyIsL1 := includes l1Chains buyChainId in
  let sellIsL2 := includes l2Chains sellChainId in
  let buyIsL2 := includes l2Chains buyChainId in
  if sellIsL1 && buyIsL2 then L1_TO_L2
  else if sellIsL2 && buyIsL1 then L2_TO_L1
  else if sellIsL2 && buyIsL2 then L2_TO_L2
  else CROSS_CHAIN.

(** The statements of [determineSwapType] that follow the handling of an
    explicit [swapType]. *)
Definition autoDetect (request : UniversalSwapRequestDto) : result SwapType :=
  let sellChain := chain (u_sellToken request) in
  let buyChain := chain (u_buyToken request) in
  if bool_decide (ecosystem sellChain = ecosystem buyChain)
     && strict_eq (ci_chainId sellChain) (ci_chainId buyChain) then Ok ON_CHAIN
  else if negb (bool_decide (ecosystem sellChain = ecosystem buyChain)) then
    if isNativeL1Swap (ecosystem sellChain) (ecosystem buyChain)
    then Ok NATIVE_SWAP else Ok CROSS_CHAIN
  else if bool_decide (ecosystem sellChain = ecosystem buyChain)
          && negb (strict_eq (ci_chainId sellChain) (ci_chainId buyChain)) then
    if bool_decide (ecosystem sellChain = EVM) then
      Ok (determineEvmSwapType (ci_chainId sellChain) (ci_chainId buyChain))
    else Ok CROSS_CHAIN
  else Throw "Unable to determine swap type from request".

(** The number of explicit swap types a request carries: [validateSwapType]
    calls [determineSwapType] back on the request without it. *)
Definition overrides (request : UniversalSwapRequestDto) : nat :=
  match swapType request with Some _ => 1 | None => 0 end.

Equations? determineSwapType (request : UniversalSwapRequestDto)
    : result SwapType by wf (overrides request) lt :=
  determineSwapType request with inspect (swapType request) := {
    | exist _ (Some provided) _ with
        determineSwapType (with_swapType None request) := {
        | Ok detected =>
            if bool_decide (detected = provided) then Ok provided
            else autoDetect request
        | Throw m => Throw m };
    | exist _ None _ => autoDetect request }.
Proof. unfold overrides. rewrite e. simpl. lia. Qed.

Definition validateSwapType (request : UniversalSwapRequestDto)
    (provided : SwapType) : result bool :=
  JS.bind (determineSwapType (with_swapType None request))
    (fun detected => Ok (bool_decide (detected = provided))).

Definition getOnChainProviderCategory (request : UniversalSwapRequestDto)
    : result RoutingCategory :=
  match ecosystem (chain (u_sellToken request)) with
  | EVM | AVALANCHE => Ok evm_aggregators
  | SOLANA => Ok cat_solana
  | _ => Throw "On-chain swaps not supported for ecosystem"
  end.

Definition determineProviderCategory (t : SwapType)
    (request : UniversalSwapRequestDto) : result RoutingCategory :=
  match t with
  | ON_CHAIN => getOnChainProviderCategory request
  | CROSS_CHAIN | L1_TO_L2 | L2_TO_L1 | L2_TO_L2 => Ok cat_meta
  | NATIVE_SWAP => Ok native_l1
  end.

Definition isSupportedEcosystem (e : BlockchainEcosystem) : bool :=
  let supportedEcosystems := [EVM; SOLANA; COSMOS; BITCOIN; THORCHAIN; MAYA] in
  bool_decide (e ∈ supportedEcosystems).

(** ** Services that depend on the platform

    [StringToNumber] is what [Number] makes of a string ([None] for NaN; a
    chain id is an integer, so a string that reads as a fraction is out of
    the model) and [isAddress] is viem's address check; both belong to the
    platform and are left abstract. *)

Section Gateway.
Variable StringToNumber : string -> option Z.
Variable isAddress : string -> bool.

(** [Number(value)] on a chain id. *)
Definition Number_ (c : chain_id) : chain_id :=
  match c with
  | CNum n => CNum n
  | CStr s =>
      match StringToNumber s with
      | Some n => CNum n
      | None => CNaN
      end
  | CUndefined | CNaN => CNaN
  end.

(** *** Chain compatibility (swap-routing.service.ts)

    An entry of [providerRegistry] is a provider instance; it is given here
    by its [supportsChain] method when it has one. *)
Record SwapRoutingService := {
  providerRegistry : list (option (chain_id -> bool));
  swapCacheService : SwapCache
}.

Definition setProviderRegistry (providers : list (option (chain_id -> bool)))
    (svc : SwapRoutingService) : SwapRoutingService :=
  {| providerRegistry := providers; swapCacheService := swapCacheService svc |}.

(** The loop of [isChainSupported] over the registry. *)
Fixpoint anyProviderSupports (chain : chain_id)
    (registry : list (option (chain_id -> bool))) : bool :=
  match registry with
  | [] => false
  | provider :: rest =>
      match provider with
      | Some supports =>
          if supports chain then true else anyProviderSupports chain rest
      | None => anyProviderSupports chain rest
      end
  end.

Definition isChainSupported (svc : SwapRoutingService) (c : ChainInfo) : bool :=
  if negb (chain_truthy (ci_chainId c)) then false
  else
    let chainId := Number_ (ci_chainId c) in
    if (0 <? length (providerRegistry svc))%nat then
      anyProviderSupports chainId (providerRegistry svc)
    else true.

Definition validateChainCompatibility (svc : SwapRoutingService)
    (request : UniversalSwapRequestDto) : bool :=
  let sellChain := chain (u_sellToken request) in
  let buyChain := chain (u_buyToken request) in
  if negb (isSupportedEcosystem (ecosystem sellChain))
     || negb (isSupportedEcosystem (ecosystem buyChain)) then false
  else isChainSupported svc sellChain && isChainSupported svc buyChain.

Definition cacheSupportedQuote (chain : chain_id) (buyTok sellTok : string)
    (svc : SwapRoutingService) : SwapRoutingService :=
  {| providerRegistry := providerRegistry svc;
     swapCacheService :=
       addSupportedQuote chain buyTok sellTok (swapCacheService svc) |}.

(** [slippageToleranceBps ? slippageToleranceBps / 100 : undefined]. *)
Definition bps_to_percentage (bps : option Z) : option JS.number :=
  match bps with
  | Some b =>
      if b =? 0 then None else Some (JS.div (JS.of_Z b) (JS.of_Z 100))
  | None => None
  end.

Definition string_truthy (s : string) : bool := negb (String.eqb s "").

Definition getSpenderForSwap (request : UniversalSwapRequestDto)
    (aggregatorManager : Manager) : result string :=
  JS.bind (determineSwapType request) (fun t =>
  JS.bind (determineProviderCategory t request) (fun providerCategory =>
    if bool_decide (providerCategory = evm_aggregators) then
      let legacyParams :=
        {| lp_chainId := ci_chainId (chain (u_sellToken request));
           lp_sellToken := address (u_sellToken request);
           lp_buyToken := address (u_buyToken request);
           lp_sellAmount := u_sellAmount request;
           lp_taker := u_taker request;
           lp_recipient := u_recipient request;
           lp_slippagePercentage :=
             bps_to_percentage (slippageToleranceBps request);
           lp_deadline := u_deadline request |} in
      match getMultipleQuotes legacyParams aggregatorManager with
      | Ok (first :: _) =>
          match allowanceTarget (quote first) with
          | Some target => if string_truthy target then Ok target else Ok ""%string
          | None => Ok ""%string
          end
      | Ok [] => Ok ""%string
      | Throw _ => Ok ""%string
      end
    else Ok ""%string)).

(** *** Approval status (approval.service.ts, permit2.service.ts) *)

Record TokenMeta := {
  tm_symbol : string;
  tm_decimals : Z
}.

Record BalanceInfo := {
  balance : JS.Amount;
  symbol : string
}.

(** What the wallet service reads from the chain during the run. *)
Record WalletService := {
  getAllowance : chain_id -> string -> string -> string -> result JS.Amount;
  getTokenInfo : chain_id -> string -> result TokenMeta;
  getBalance : chain_id -> string -> string -> result BalanceInfo;
  readsAsErc20 : chain_id -> string -> bool
}.

Definition nativeTokenAddress : string :=
  "0x0000000000000000000000000000000000000000".

Definition isNativeToken (tokenAddress : string) : bool :=
  String.eqb (JS.toLowerCase tokenAddress) (JS.toLowerCase nativeTokenAddress).

Definition validateTokenAddress (tokenAddress : string) : result unit :=
  if negb (string_truthy tokenAddress) then Throw "Token address is required"
  else if negb (isAddress tokenAddress) then Throw "Invalid token address format"
  else Ok tt.

Definition validateWalletAddress (walletAddress : string) : result unit :=
  if negb (string_truthy walletAddress) then Throw "Wallet address is required"
  else if negb (isAddress walletAddress) then
    Throw "Invalid wallet address format"
  else Ok tt.

Definition permit2Address : string :=
  "0x000000000022D473030F116dDEE9F6B43aC78BA3".

Definition permit2Chains : list Z := [1; 137; 56; 42161; 10; 8453; 43114].

Definition isPermit2Supported (chain : chain_id) : bool :=
  includes permit2Chains chain.

Definition isTokenPermit2Compatible (wallet : WalletService) (chain : chain_id)
    (tokenAddress : string) : bool :=
  if negb (isPermit2Supported chain) then false
  else if String.eqb tokenAddress nativeTokenAddress
          || String.eqb (JS.toLowerCase tokenAddress)
               "0xeeeeeeeeeeeeeeeeeeeeeeeeeeeeeeeeeeeeeeee" then false
  else readsAsErc20 wallet chain tokenAddress.

Record ApprovalStatus := {
  currentAllowance : JS.Amount;
  isApprovalNeeded : bool;
  tokenInfo : option TokenMeta;
  isPermit2Compatible : bool;
  as_permit2Address : option string
}.

Definition str_includes (s pattern : string) : bool :=
  match String.index 0 pattern s with
  | Some _ => true
  | None => false
  end.

Definition isValidationError (message : string) : bool :=
  let validationErrorMessages :=
    ["Invalid chain ID"; "Invalid token address"; "Invalid wallet address";
     "Invalid private key"; "Cannot approve native token";
     "Cannot create Permit2 signature for native token";
     "Permit2 not supported"; "not Permit2 compatible"]%string in
  existsb (str_includes message) validationErrorMessages.

(** The body of [getApprovalStatus] inside its [try].  Its [chainId] is a
    [number]: the controller passes [Number(...)], an integer or NaN. *)
Definition approvalStatusBody (wallet : WalletService) (chain : chain_id)
    (tokenAddress owner spender : string) (amount : option JS.Amount)
    : result ApprovalStatus :=
  let badChain :=
    match chain with
    | CNum n => (n =? 0) || (n <=? 0)
    | _ => true
    end in
  if badChain then Throw "Invalid chain ID"
  else
    JS.bind (validateTokenAddress tokenAddress) (fun _ =>
    JS.bind (validateWalletAddress owner) (fun _ =>
    JS.bind (validateWalletAddress spender) (fun _ =>
      if isNativeToken tokenAddress then
        Ok {| currentAllowance := 0%N; isApprovalNeeded := false;
              tokenInfo := None; isPermit2Compatible := false;
              as_permit2Address := None |}
      else
        JS.bind (getAllowance wallet chain tokenAddress owner spender)
          (fun allowance =>
        JS.bind (getTokenInfo wallet chain tokenAddress) (fun info =>
          let compatible :=
            if isPermit2Supported chain
            then isTokenPermit2Compatible wallet chain tokenAddress
            else false in
          let needed :=
            match amount with
            | Some required =>
                JS.BigInt allowance <? JS.BigInt required
            | None => JS.BigInt allowance =? JS.BigInt 0%N
            end in
          Ok {| currentAllowance := allowance; isApprovalNeeded := needed;
                tokenInfo := Some info; isPermit2Compatible := compatible;
                as_permit2Address :=
                  if compatible then Some permit2Address else None |}))))).

Definition getApprovalStatus (wallet : WalletService) (chain : chain_id)
    (tokenAddress owner spender : string) (amount : option JS.Amount)
    : result ApprovalStatus :=
  match approvalStatusBody wallet chain tokenAddress owner spender amount with
  | Ok r => Ok r
  | Throw message =>
      if isValidationError message then Throw message
      else Throw ("Failed to get approval status: " ++ message)%string
  end.

(** *** The universal pre-check (universal-swap.controller.ts) *)

Inductive Detail :=
| DOutcome (b : option bool)
| DNote (s : string)
| DBalance (required available : JS.Amount) (token : string).

(** The two accumulators of the pre-check: [warnings] and [details]. *)
Record Notes := {
  warnings : list string;
  details : list (string * Detail)
}.

Definition warn (w : string) (n : Notes) : Notes :=
  {| warnings := warnings n ++ [w]; details := details n |}.

Definition detail (key : string) (d : Detail) (n : Notes) : Notes :=
  {| warnings := warnings n; details := Map_set key d (details n) |}.

(** The services the controller holds. *)
Record Services := {
  swapRoutingService : SwapRoutingService;
  aggregatorManager : Manager
}.

Definition convertToLegacyParams (request : UniversalSwapRequestDto)
    : result LegacyParams :=
  let sellChain := chain (u_sellToken request) in
  let buyChain := chain (u_buyToken request) in
  if negb (bool_decide (ecosystem sellChain = EVM))
     || negb (bool_decide (ecosystem buyChain = EVM)) then
    Throw "EVM aggregators can only handle EVM ecosystem requests"
  else if negb (strict_eq (ci_chainId sellChain) (ci_chainId buyChain)) then
    Throw "EVM aggregators can only handle same-chain swaps"
  else
    Ok {| lp_chainId := ci_chainId sellChain;
          lp_sellToken := address (u_sellToken request);
          lp_buyToken := address (u_buyToken request);
          lp_sellAmount := u_sellAmount request;
          lp_taker := u_taker request;
          lp_recipient := u_recipient request;
          lp_slippagePercentage :=
            bps_to_percentage (slippageToleranceBps request);
          lp_deadline := u_deadline request |}.

(** Each probe is one [try]/[catch] block of [universalPreCheck]: it returns
    its outcome ([None] is [null]) and the updated accumulators.  In this
    embedding [validateChainCompatibility] and [getProvidersHealth] are total,
    so the [catch] branches of the first and of the last block are left
    out. *)

Definition parametersProbe (request : UniversalSwapRequestDto) (sv : Services)
    (n : Notes) : option bool * Notes :=
  let parametersValid :=
    validateChainCompatibility (swapRoutingService sv) request in
  let n :=
    if negb parametersValid
    then warn "Unsupported chain combination for swap" n else n in
  (Some parametersValid, detail "parametersValid" (DOutcome (Some parametersValid)) n).

(** [quotes.length > 0 && parseFloat(quotes[0].quote.buyAmount) > 0]. *)
Definition firstQuoteLiquid (quotes : list QuoteEntry) : bool :=
  (0 <? length quotes)%nat
  && match quotes with
     | first :: _ => JS.gt (JS.parseFloat (buyAmount (quote first))) (JS.of_Z 0)
     | [] => false
     end.

(** The body of the liquidity [try] block. *)
Definition liquidityBody (request : UniversalSwapRequestDto) (sv : Services)
    (n : Notes) : result (bool * Notes * Services) :=
  JS.bind (determineSwapType request) (fun t =>
  JS.bind (determineProviderCategory t request) (fun providerCategory =>
    if bool_decide (providerCategory = evm_aggregators) then
      JS.bind (convertToLegacyParams request) (fun legacyParams =>
      JS.bind (getMultipleQuotes legacyParams (aggregatorManager sv))
        (fun quotes =>
          let liquidityAvailable := firstQuoteLiquid quotes in
          if negb liquidityAvailable then
            Ok (liquidityAvailable,
                warn "No liquidity available for requested swap" n, sv)
          else
            Ok (liquidityAvailable, n,
                {| swapRoutingService :=
                     cacheSupportedQuote (lp_chainId legacyParams)
                       (lp_buyToken legacyParams) (lp_sellToken legacyParams)
                       (swapRoutingService sv);
                   aggregatorManager := aggregatorManager sv |})))
    else
      Ok (true, warn "Liquidity check stubbed for non-EVM ecosystem" n, sv))).

Definition liquidityProbe (request : UniversalSwapRequestDto) (sv : Services)
    (n : Notes) : option bool * Notes * Services :=
  let '(liquidityAvailable, n, sv) :=
    match liquidityBody request sv n with
    | Ok r => r
    | Throw message =>
        (false, warn ("Liquidity check failed: " ++ message)%string n, sv)
    end in
  (Some liquidityAvailable,
   detail "liquidityAvailable" (DOutcome (Some liquidityAvailable)) n, sv).

Definition nativeEthAddress : string :=
  "0xeeeeeeeeeeeeeeeeeeeeeeeeeeeeeeeeeeeeeeee".

(** The body of the approval [try] block. *)
Definition approvalBody (wallet : WalletService)
    (request : UniversalSwapRequestDto) (sv : Services) (n : Notes)
    : result (option bool * Notes) :=
  if bool_decide (ecosystem (chain (u_sellToken request)) = EVM) then
    let isNativeEth :=
      String.eqb (JS.toLowerCase (address (u_sellToken request)))
        nativeEthAddress in
    if isNativeEth then
      Ok (Some false,
          detail "approvalNote" (DNote "Native ETH does not require approval") n)
    else
      JS.bind (getSpenderForSwap request (aggregatorManager sv)) (fun spender =>
        if negb (string_truthy spender) then
          Ok (None,
              warn "Approval check skipped: unable to determine spender address"
                (detail "approvalNote"
                   (DNote "Could not determine spender address - approval check skipped")
                   n))
        else
          JS.bind
            (getApprovalStatus wallet
               (Number_ (ci_chainId (chain (u_sellToken request))))
               (address (u_sellToken request)) (u_taker request) spender
               (Some (u_sellAmount request)))
            (fun approvalStatus =>
               let approvalRequired := isApprovalNeeded approvalStatus in
               Ok (Some approvalRequired,
                   if approvalRequired
                   then warn "Token approval required for swap" n else n)))
  else
    Ok (Some false,
        detail "approvalNote"
          (DNote "Approval check stubbed for non-EVM ecosystem") n).

Definition approvalProbe (wallet : WalletService)
    (request : UniversalSwapRequestDto) (sv : Services) (n : Notes)
    : option bool * Notes :=
  let '(approvalRequired, n) :=
    match approvalBody wallet request sv n with
    | Ok r => r
    | Throw message =>
        (Some false, warn ("Approval check failed: " ++ message)%string n)
    end in
  (approvalRequired, detail "approvalRequired" (DOutcome approvalRequired) n).

(** The body of the balance [try] block. *)
Definition balanceBody (wallet : WalletService)
    (request : UniversalSwapRequestDto) (n : Notes) : result (bool * Notes) :=
  if bool_decide (ecosystem (chain (u_sellToken request)) = EVM) then
    JS.bind
      (getBalance wallet (Number_ (ci_chainId (chain (u_sellToken request))))
         (u_taker request) (address (u_sellToken request)))
      (fun balanceInfo =>
         let balanceBigInt := JS.BigInt (balance balanceInfo) in
         let requiredAmount := JS.BigInt (u_sellAmount request) in
         let sufficientBalance := requiredAmount <=? balanceBigInt in
         if negb sufficientBalance then
           Ok (sufficientBalance,
               detail "balanceDetails"
                 (DBalance (u_sellAmount request) (balance balanceInfo)
                    (symbol balanceInfo))
                 (warn "Insufficient wallet balance for swap" n))
         else Ok (sufficientBalance, n))
  else
    Ok (true,
        detail "balanceNote"
          (DNote "Wallet balance check stubbed for non-EVM ecosystem") n).

Definition balanceProbe (wallet : WalletService)
    (request : UniversalSwapRequestDto) (n : Notes) : option bool * Notes :=
  let '(sufficientBalance, n) :=
    match balanceBody wallet request n with
    | Ok r => r
    | Throw message =>
        (false, warn ("Wallet balance check failed: " ++ message)%string n)
    end in
  (Some sufficientBalance,
   detail "sufficientBalance" (DOutcome (Some sufficientBalance)) n).

Definition healthProbe (now : Z) (request : UniversalSwapRequestDto)
    (sv : Services) (n : Notes) : option bool * Notes * Services :=
  let '(providerHealthy, n, sv) :=
    if bool_decide (ecosystem (chain (u_sellToken request)) = EVM) then
      let '(healthResults, manager) :=
        getProvidersHealth now (aggregatorManager sv) in
      let providerHealthy :=
        forallb (fun h => bool_decide (status h = healthy)) (evm healthResults) in
      (providerHealthy,
       if negb providerHealthy
       then warn "Swap provider is currently unhealthy" n else n,
       {| swapRoutingService := swapRoutingService sv;
          aggregatorManager := manager |})
    else
      (true,
       detail "healthNote"
         (DNote "Provider health check stubbed for non-EVM ecosystem") n, sv) in
  (Some providerHealthy,
   detail "providerHealthy" (DOutcome (Some providerHealthy)) n, sv).

Record PreCheck := {
  parametersValid : option bool;
  liquidityAvailable : option bool;
  approvalRequired : option bool;
  sufficientBalance : option bool;
  providerHealthy : option bool;
  pc_warnings : list string;
  pc_details : list (string * Detail)
}.

Definition universalPreCheck (wallet : WalletService) (now : Z)
    (request : UniversalSwapRequestDto) (sv : Services) : PreCheck * Services :=
  let n := {| warnings := []; details := [] |} in
  let '(parametersValid, n) := parametersProbe request sv n in
  let '(liquidityAvailable, n, sv) := liquidityProbe request sv n in
  let '(approvalRequired, n) := approvalProbe wallet request sv n in
  let '(sufficientBalance, n) := balanceProbe wallet request n in
  let '(providerHealthy, n, sv) := healthProbe now request sv n in
  ({| parametersValid := parametersValid;
      liquidityAvailable := liquidityAvailable;
      approvalRequired := approvalRequired;
      sufficientBalance := sufficientBalance;
      providerHealthy := providerHealthy;
      pc_warnings := warnings n;
      pc_details := details n |}, sv).

End Gateway.

(** ** The Permit2 splice (permit2.service.ts, permit2-workflow.service.ts)

    A payload is a hex string: ["0x"] followed by two digits per byte. *)

Module Viem.

(** The three functions [appendSignatureToTxData] imports from the viem
    library, as the library defines them on hex strings. *)

Definition hexdigit (d : N) : ascii :=
  match d with
  | 0 => "0" | 1 => "1" | 2 => "2" | 3 => "3" | 4 => "4" | 5 => "5"
  | 6 => "6" | 7 => "7" | 8 => "8" | 9 => "9" | 10 => "a" | 11 => "b"
  | 12 => "c" | 13 => "d" | 14 => "e" | _ => "f"
  end%N%char.

(** [BigInt.prototype.toString(16)]: the digits of [n] without leading
    zeros, accumulated from the lowest; [fuel] bounds the number of digits. *)
Fixpoint toString16_from (fuel : nat) (n : N) (acc : string) : string :=
  match fuel with
  | O => acc
  | S fuel' =>
      let acc := String (hexdigit (n mod 16)) acc in
      if (n / 16 =? 0)%N then acc else toString16_from fuel' (n / 16)%N acc
  end.

Definition toString16 (n : N) : string :=
  toString16_from (S (N.to_nat (N.log2 n))) n EmptyString.

(** [String.prototype.padStart(target, "0")]. *)
Definition padStart0 (target : nat) (s : string) : string :=
  (JS.zeros (target - String.length s) ++ s)%string.

(** [String.prototype.replace("0x", "")]: the first occurrence is removed. *)
Definition replace0x (s : string) : string :=
  match String.index 0 "0x" s with
  | Some i =>
      (substring 0 i s
       ++ substring (i + 2) (String.length s - (i + 2)) s)%string
  | None => s
  end.

(** [size]: the number of bytes of a hex string. *)
Definition size (value : string) : N :=
  if String.prefix "0x" value
  then N.of_nat (Nat.div2 (S (String.length value - 2)))
  else N.of_nat (String.length value).

Definition padHex (hex : string) (bytes : nat) : result string :=
  let digits := replace0x hex in
  if (bytes * 2 <? String.length digits)%nat
  then Throw "SizeExceedsPaddingSizeError"
  else Ok ("0x" ++ padStart0 (bytes * 2) digits)%string.

(** [numberToHex(value, { signed: false, size })]. *)
Definition numberToHex (value : N) (bytes : nat) : result string :=
  let maxValue := (2 ^ (N.of_nat bytes * 8) - 1)%N in
  if (maxValue <? value)%N then Throw "IntegerOutOfRangeError"
  else padHex ("0x" ++ toString16 value)%string bytes.

(** [concat] on hex strings. *)
Definition concat (values : list string) : string :=
  ("0x" ++ fold_left (fun acc x => acc ++ replace0x x) values EmptyString)%string.

End Viem.

Definition appendSignatureToTxData (transactionData signature : string)
    : result string :=
  let body :=
    JS.bind (Viem.numberToHex (Viem.size signature) 32) (fun signatureLengthInHex =>
      Ok (Viem.concat [transactionData; signatureLengthInHex; signature])) in
  match body with
  | Ok modifiedTxData => Ok modifiedTxData
  | Throw message =>
      Throw ("Signature concatenation failed: " ++ message)%string
  end.

Definition hasPermit2Data (q : SwapQuote) : bool :=
  match permit2 q with Some _ => true | None => false end.

Record Permit2Result := {
  originalTxData : string;
  pr_signature : string;
  modifiedTxData : string;
  permit2Data : Permit2Data
}.

(** [processPermit2Quote]; [signPermit2Data] is the wallet's EIP-712 signer,
    given by the signature it returns. *)
Definition processPermit2Quote
    (signPermit2Data : chain_id -> string -> Permit2Data -> result string)
    (q : SwapQuote) (privateKey : string) (chain : chain_id)
    : result Permit2Result :=
  match permit2 q with
  | None => Throw "Quote does not contain permit2 data"
  | Some data =>
      let body :=
        JS.bind (signPermit2Data chain privateKey data) (fun signature =>
        JS.bind (appendSignatureToTxData (q_data q) signature) (fun modified =>
          Ok {| originalTxData := q_data q; pr_signature := signature;
                modifiedTxData := modified; permit2Data := data |})) in
      match body with
      | Ok r => Ok r
      | Throw message => Throw ("Permit2 workflow failed: " ++ message)%string
      end
  end.

(** *** Bytes and their hex form *)

Definition byte_of_N (n : N) : Byte.byte :=
  match Byte.of_N (n mod 256) with
  | Some b => b
  | None => Byte.x00
  end.

Definition hex_of_byte (b : Byte.byte) : string :=
  let n := Byte.to_N b in
  String (Viem.hexdigit (n / 16)) (String (Viem.hexdigit (n mod 16)) EmptyString).

Fixpoint hex_of_bytes (l : list Byte.byte) : string :=
  match l with
  | [] => EmptyString
  | b :: rest => (hex_of_byte b ++ hex_of_bytes rest)%string
  end.

(** The hex string of a byte sequence. *)
Definition toHex (l : list Byte.byte) : string := ("0x" ++ hex_of_bytes l)%string.

(** The [k]-byte big-endian encoding of an unsigned integer, and its
    decoding. *)
Fixpoint be_bytes (k : nat) (n : N) : list Byte.byte :=
  match k with
  | O => []
  | S k' => be_bytes k' (n / 256) ++ [byte_of_N n]
  end.

Definition uint256_be (n : N) : list Byte.byte := be_bytes 32 n.

Definition be_decode (l : list Byte.byte) : N :=
  fold_left (fun acc b => (acc * 256 + Byte.to_N b)%N) l 0%N.

(** ** Definitions used to state the properties *)

Definition provider_name (p : AnyProvider) : string :=
  match p with
  | AnEvmAggregator a => getProviderName a
  | AMetaAggregator a | ASolanaRouter a | ANativeRouter a => p_name a
  end.

(** Whether the name of [p] is taken in the map of its category. *)
Definition name_taken (p : AnyProvider) (st : Manager) : bool :=
  match p with
  | AnEvmAggregator a => Map_has (getProviderName a) (evmAggregators st)
  | AMetaAggregator a => Map_has (p_name a) (metaAggregators st)
  | ASolanaRouter a => Map_has (p_name a) (solanaRouters st)
  | ANativeRouter a => Map_has (p_name a) (nativeRouters st)
  end.

(** *** Sample data *)

Definition zeroXAdapter : OnchainAggregator :=
  {| getProviderName := "0x";
     healthCheck := Throw "offline";
     supportsChain := fun c => strict_eq c (CNum 1);
     getQuote := fun _ _ => Throw "no quote" |}.

(** An address check by shape only (["0x"] and forty more characters); it
    stands for the platform's check where an example needs one. *)
Definition isAddress_shape (s : string) : bool :=
  (String.length s =? 42)%nat && String.prefix "0x" s.

(** For the examples, [Number] reads no string as a number. *)
Definition StringToNumber_none (s : string) : option Z := None.

Definition sampleToken : string := "0xdAC17F958D2ee523a2206206994597C13D831ec7".
Definition sampleBuyToken : string :=
  "0xA0b86991c6218b36c1d19D4a2e9Eb0cE3606eB48".
Definition sampleOwner : string := "0x742d35Cc6634C0532925a3b8D4C9db96C4b4d8b6".
Definition sampleSpender : string := "0x0000000000001fF3684f28c67538d4D072C22734".

(** A wallet service whose reads succeed with the given allowance and
    balance. *)
Definition sampleWallet (allowance bal : JS.Amount) : WalletService :=
  {| getAllowance := fun _ _ _ _ => Ok allowance;
     getTokenInfo := fun _ _ => Ok {| tm_symbol := "USDT"; tm_decimals := 6 |};
     getBalance := fun _ _ _ => Ok {| balance := bal; symbol := "USDT" |};
     readsAsErc20 := fun _ _ => true |}.

(** The [k] lowest hex digits of [n], highest first. *)
Fixpoint hexfixed (k : nat) (n : N) : string :=
  match k with
  | O => EmptyString
  | S k' => (hexfixed k' (n / 16) ++ String (Viem.hexdigit (n mod 16)) EmptyString)%string
  end.

(** The signature of the specification's example: 65 bytes [0xaa]. *)
Definition signature_aa : list Byte.byte := repeat Byte.xaa 65.

Definition sampleQuote (name : string) (amount : JS.Amount) : PortsSwapQuote :=
  {| q_sellToken := sampleToken; q_buyToken := sampleBuyToken;
     q_sellAmount := 1000000000000000000%N; buyAmount := amount;
     minBuyAmount := amount; q_gas := 200000%N; q_to := sampleSpender;
     q_data := "0x1234567890abcdef"; q_value := 0%N;
     allowanceTarget := Some sampleSpender; q_aggregator := name;
     permit2 := None; q_approvalStrategy := None |}.

Definition sampleHealth (name : string) (s : HealthStatus)
    (l e : option JS.number) : ProviderHealth :=
  {| h_name := name; status := s; latency := l; lastCheck := 0;
     errorRate := e |}.

(** An adapter for chain 1 that answers every quote request with the given
    [buyAmount] and reports the given health. *)
Definition quotingAdapter (name : string) (amount : JS.Amount)
    (h : ProviderHealth) : OnchainAggregator :=
  {| getProviderName := name;
     healthCheck := Ok h;
     supportsChain := fun c => strict_eq c (CNum 1);
     getQuote := fun _ _ => Ok (sampleQuote name amount) |}.

Definition healthyAdapter (name : string) (amount : JS.Amount)
    : OnchainAggregator :=
  quotingAdapter name amount (sampleHealth name healthy None None).

(** The manager after the given adapters have registered themselves. *)
Definition managerOf (providers : list OnchainAggregator) : Manager :=
  fold_left (fun st p => registerEvmAggregator p st) providers new_Manager.

Definition sampleParams : LegacyParams :=
  {| lp_chainId := CNum 1; lp_sellToken := sampleToken;
     lp_buyToken := sampleBuyToken; lp_sellAmount := 1000000000000000000%N;
     lp_taker := sampleOwner; lp_recipient := None;
     lp_slippagePercentage := None; lp_deadline := None |}.

Definition sampleTokenOn (addr : string) (e : BlockchainEcosystem)
    (c : chain_id) : TokenInfo :=
  {| address := addr; standard := ERC20;
     chain := {| ci_chainId := c; ecosystem := e; network := None |} |}.

(** A request to sell [sampleToken] for [sampleBuyToken] on one EVM chain. *)
Definition sampleRequest (c : chain_id) : UniversalSwapRequestDto :=
  {| u_sellToken := sampleTokenOn sampleToken EVM c;
     u_buyToken := sampleTokenOn sampleBuyToken EVM c;
     u_sellAmount := 1000000000000000000%N; u_taker := sampleOwner;
     u_recipient := None; slippageToleranceBps := None; swapType := None;
     u_deadline := None; preferredProvider := None |}.

(** Two quotes whose amounts differ by one unit above 2^53. *)
Definition tiedAdapters : list OnchainAggregator :=
  [healthyAdapter "0x" 2000000000000000000%N;
   healthyAdapter "odos" 2000000000000000001%N].

(** A routing service whose registry holds an adapter for chain 1 only (and
    a provider without [supportsChain]), after a successful quote on chain
    137 has been cached. *)
Definition routingWithCachedPolygon : SwapRoutingService :=
  cacheSupportedQuote (CNum 137) sampleBuyToken sampleToken
    {| providerRegistry := [Some (fun c => strict_eq c (CNum 1)); None];
       swapCacheService := ∅ |}.

Definition emptyRouting : SwapRoutingService :=
  {| providerRegistry := []; swapCacheService := ∅ |}.

(** The accumulators at the start of a pre-check. *)
Definition noNotes : Notes := {| warnings := []; details := [] |}.

(** The liquidity outcome as "liquid exactly when some gathered quote has a
    positive [buyAmount]". *)
Definition liquid_iff_some_quote (r : PreCheck) (gathered : list QuoteEntry)
    : Prop :=
  liquidityAvailable r = Some true
  <-> exists q, In q gathered /\ (0 < buyAmount (quote q))%N.

(** Services in which "0x" quotes nothing and "odos" quotes 100. *)
Definition servicesWithEmptyFirstQuote : Services :=
  {| swapRoutingService := emptyRouting;
     aggregatorManager :=
       managerOf [healthyAdapter "0x" 0%N; healthyAdapter "odos" 100%N] |}.

(** Services with no adapter registered. *)
Definition servicesWithoutAdapters : Services :=
  {| swapRoutingService := emptyRouting; aggregatorManager := new_Manager |}.

Definition samplePreCheck (sv : Services) : PreCheck :=
  (universalPreCheck StringToNumber_none isAddress_shape
     (sampleWallet 0%N 5000000000000000000%N) 0 (sampleRequest (CNum 1)) sv).1.

(** *** The provider score, as formulas *)

(** The bonuses a provider name earns on a request, in the order they are
    added. *)
Definition nudges (name : string) (request : SwapRequest) : list Z :=
  let is0x := String.eqb (JS.toLowerCase name) "0x" in
  let isOdos := String.eqb (JS.toLowerCase name) "odos" in
  (if strict_eq (chainId request) (CNum 1) then
     if is0x then [20] else []
   else if strict_eq (chainId request) (CNum 137) then
     if isOdos then [15] else []
   else [])
  ++ (if JS.gt (JS.parseFloat (sellAmount request)) (JS.of_Z (10 ^ 21)) && is0x
      then [10] else [])
  ++ (if bool_decide (approvalStrategy request = Some PERMIT2) && is0x
      then [25] else []).

(** The part of the score that comes from the health: 150 with the latency
    bonus and the error-rate penalty for a healthy provider, 0 for any
    other. *)
Definition healthPart (h : ProviderHealth) : JS.number :=
  if bool_decide (status h = healthy) then
    let withBonus :=
      match latency h with
      | Some l =>
          JS.add (JS.of_Z 150) (JS.Math_max (JS.of_Z 0) (JS.sub (JS.of_Z 100) l))
      | None => JS.of_Z 150
      end in
    match errorRate h with
    | Some e => JS.sub withBonus (JS.mul e (JS.of_Z 100))
    | None => withBonus
    end
  else JS.of_Z 0.

Definition scoreFormula (h : ProviderHealth) (name : string)
    (request : SwapRequest) : JS.number :=
  JS.Math_max (JS.of_Z 0)
    (fold_left (fun s k => JS.add s (JS.of_Z k)) (nudges name request)
       (healthPart h)).

(** The score as the specification words it: every term applies whatever
    the health status, and the trade size is compared as an integer. *)
Definition claimedScore (h : ProviderHealth) (name : string)
    (request : SwapRequest) : JS.number :=
  let s := JS.of_Z 100 in
  let s := if bool_decide (status h = healthy) then JS.add s (JS.of_Z 50) else s in
  let s :=
    match latency h with
    | Some l => JS.add s (JS.Math_max (JS.of_Z 0) (JS.sub (JS.of_Z 100) l))
    | None => s
    end in
  let s :=
    match errorRate h with
    | Some e => JS.sub s (JS.mul (JS.of_Z 100) e)
    | None => s
    end in
  let s :=
    if bool_decide (status h = unhealthy) then JS.sub s (JS.of_Z 100) else s in
  let s :=
    if String.eqb name "0x" && strict_eq (chainId request) (CNum 1)
    then JS.add s (JS.of_Z 20) else s in
  let s :=
    if String.eqb name "odos" && strict_eq (chainId request) (CNum 137)
    then JS.add s (JS.of_Z 15) else s in
  let s :=
    if String.eqb name "0x" && (10 ^ 21 <? JS.BigInt (sellAmount request))
    then JS.add s (JS.of_Z 10) else s in
  let s :=
    if String.eqb name "0x"
       && bool_decide (approvalStrategy request = Some PERMIT2)
    then JS.add s (JS.of_Z 25) else s in
  JS.Math_max (JS.of_Z 0) s.

Definition sampleSwapRequest (c : Z) (amount : JS.Amount)
    (strategy : option ApprovalStrategy) : SwapRequest :=
  {| chainId := CNum c; sellToken := sampleToken; buyToken := sampleBuyToken;
     sellAmount := amount; taker := sampleOwner; recipient := None;
     slippagePercentage := None; deadline := None; aggregator := None;
     approvalStrategy := strategy |}.

(** A healthy "0x" adapter whose last probe took 40 ms without errors. *)
Definition fastZeroX : OnchainAggregator :=
  quotingAdapter "0x" 2000000000000000000%N
    (sampleHealth "0x" healthy (Some (JS.of_Z 40)) (Some (JS.of_Z 0))).
(** ** More of the supported-quote cache (swap-cache.service.ts) *)

Definition clearCache (cache : SwapCache) : SwapCache := ∅.

(** ** More of the aggregator manager (aggregator-manager.service.ts) *)

(** A number inside a template literal: an integer is shown by its decimal
    digits (an integer of 10^21 and more, which JavaScript shows with an
    exponent, is out of the model). *)
Definition decimalZ (z : Z) : string := NilZero.string_of_int (Z.to_int z).

Definition chain_text (c : chain_id) : string :=
  match c with
  | CNum n => decimalZ n
  | CStr s => s
  | CUndefined => "undefined"
  | CNaN => "NaN"
  end.

(** [a >= b] on numbers; false when an operand is NaN. *)
Definition Number_ge (a b : JS.number) : bool := SFleb b a.

Definition mapAggregatorTypeToProviderName (aggregatorType : AggregatorType)
    : string :=
  match aggregatorType with
  | ZEROX => "0x"
  | ODOS => "odos"
  end.

Definition mapProviderNameToAggregatorType (providerName : string)
    : option AggregatorType :=
  let lowered := JS.toLowerCase providerName in
  if String.eqb lowered "0x" then Some ZEROX
  else if String.eqb lowered "odos" then Some ODOS
  else None.

(** [getSupportedAggregators]: the legacy map, in insertion order. *)
Definition getSupportedAggregators (chain : chain_id) (st : Manager)
    : list AggregatorType :=
  map fst (List.filter (fun entry => supportsChain entry.2 chain) (aggregators st)).

Definition isAggregatorSupported (chain : chain_id)
    (aggregatorType : AggregatorType) (st : Manager) : bool :=
  match Map_get aggregatorType (aggregators st) with
  | Some aggregator => supportsChain aggregator chain
  | None => false
  end.

(** The first loop of [getEnhancedSupportedAggregators], over the entries of
    [evmAggregators]; [supported] is the array built so far. *)
Fixpoint discoverAggregators (chain : chain_id)
    (entries : list (string * OnchainAggregator))
    (supported : list AggregatorType) : list AggregatorType :=
  match entries with
  | [] => supported
  | (providerName, provider) :: rest =>
      let supported :=
        if supportsChain provider chain then
          match mapProviderNameToAggregatorType providerName with
          | Some aggregatorType =>
              if negb (existsb (fun t => bool_decide (t = aggregatorType)) supported)
              then supported ++ [aggregatorType]
              else supported
          | None => supported
          end
        else supported in
      discoverAggregators chain rest supported
  end.

Definition getEnhancedSupportedAggregators (chain : chain_id) (st : Manager)
    : list AggregatorType :=
  let supported := discoverAggregators chain (evmAggregators st) [] in
  if (length supported =? 0)%nat
  then supported ++ getSupportedAggregators chain st
  else supported.

(** [Array.prototype.sort] with a comparator: the stable sort, by insertion
    from the right.  [cmp x y > 0] puts [y] first; any other answer (NaN
    included) keeps [x], the earlier of the two, first.  This is the order
    ECMAScript fixes for a comparator that is consistent; with scores that
    are NaN the comparators below are not, and the order is then left to
    the engine. *)
Fixpoint sort_insert {A : Type} (cmp : A -> A -> JS.number) (x : A)
    (sorted : list A) : list A :=
  match sorted with
  | [] => [x]
  | y :: rest =>
      if JS.gt (cmp x y) (JS.of_Z 0) then y :: sort_insert cmp x rest
      else x :: y :: rest
  end.

Definition Array_sort {A : Type} (cmp : A -> A -> JS.number) (l : list A)
    : list A :=
  fold_right (sort_insert cmp) [] l.

(** [Array.prototype.sort] without a comparator, on numbers: the stable
    sort by the text of the elements. *)
Fixpoint sort_insert_text (x : Z) (sorted : list Z) : list Z :=
  match sorted with
  | [] => [x]
  | y :: rest =>
      if String.ltb (decimalZ y) (decimalZ x) then y :: sort_insert_text x rest
      else x :: y :: rest
  end.

Definition Array_sort_default (l : list Z) : list Z :=
  fold_right sort_insert_text [] l.

(** [Set.prototype.add] on a set kept in insertion order. *)
Definition Set_add (x : Z) (s : list Z) : list Z :=
  if existsb (Z.eqb x) s then s else s ++ [x].

Definition getAllSupportedChains (st : Manager) : list Z :=
  let commonChains :=
    [1; 10; 56; 137; 42161; 43114; 8453; 324; 59144; 100; 250; 1284; 1285] in
  let chains :=
    fold_left
      (fun chains provider =>
         fold_left
           (fun chains chainId =>
              if supportsChain provider (CNum chainId)
              then Set_add chainId chains else chains)
           commonChains chains)
      (Map_values (evmAggregators st)) [] in
  Array_sort_default chains.

Definition getProviderScoreReason (provider : OnchainAggregator)
    (request : SwapRequest) (score : JS.number) : string :=
  let providerName := getProviderName provider in
  let reasons :=
    if Number_ge score (JS.of_Z 150) then ["excellent health & performance"]
    else if Number_ge score (JS.of_Z 120) then ["good health & performance"]
    else if Number_ge score (JS.of_Z 100) then ["healthy"]
    else if Number_ge score (JS.of_Z 50) then ["degraded performance"]
    else ["poor health"] in
  let reasons :=
    if strict_eq (chainId request) (CNum 1)
       && String.eqb (JS.toLowerCase providerName) "0x"
    then reasons ++ ["optimized for Ethereum"] else reasons in
  let reasons :=
    if bool_decide (approvalStrategy request = Some PERMIT2)
       && String.eqb (JS.toLowerCase providerName) "0x"
    then reasons ++ ["permit2 support"] else reasons in
  String.concat ", " reasons.

(** The loop of [tryProvidersInOrder] and of [tryProvidersWithFallback]:
    the first quote obtained, or the last error when every provider threw
    ([None] when there was no provider at all). *)
Fixpoint tryProviders (portsRequest : PortsSwapRequest)
    (providers : list OnchainAggregator) (lastError : option string)
    : SwapQuote + option string :=
  match providers with
  | [] => inr lastError
  | provider :: rest =>
      match getQuote provider portsRequest None with
      | Ok quote =>
          inl (convertToLegacyQuote quote (getProviderName provider))
      | Throw message => tryProviders portsRequest rest (Some message)
      end
  end.

Definition tryProvidersInOrder (providers : list OnchainAggregator)
    (request : SwapRequest) (strictValidation : option bool)
    : result SwapQuote :=
  let portsRequest := convertToPortsRequest request in
  match tryProviders portsRequest providers None with
  | inl legacyQuote => Ok legacyQuote
  | inr lastError =>
      Throw ("All providers failed for chain " ++ chain_text (chainId request)
             ++ ". Last error: " ++ default "undefined" lastError)%string
  end.

Definition tryProvidersWithFallback (providers : list OnchainAggregator)
    (request : SwapRequest) (strictValidation : option bool)
    : result SwapQuote :=
  let portsRequest := convertToPortsRequest request in
  match tryProviders portsRequest providers None with
  | inl legacyQuote => Ok legacyQuote
  | inr lastError =>
      Throw ("All providers (including fallback) failed for chain "
             ++ chain_text (chainId request)
             ++ ". Last error: " ++ default "undefined" lastError)%string
  end.

(** The provider registered under a name in a category. *)
Definition registered_as (category : ProviderCategory) (name : string)
    (st : Manager) : option AnyProvider :=
  match category with
  | EVM_AGGREGATOR => option_map AnEvmAggregator (Map_get name (evmAggregators st))
  | META_AGGREGATOR => option_map AMetaAggregator (Map_get name (metaAggregators st))
  | SOLANA_ROUTER => option_map ASolanaRouter (Map_get name (solanaRouters st))
  | NATIVE_ROUTER => option_map ANativeRouter (Map_get name (nativeRouters st))
  end.

(** The manager after the given providers have registered, in order. *)
Definition register_all (providers : list AnyProvider) (st : Manager) : Manager :=
  fold_left (fun st p => registerProvider p st) providers st.

(** The request [getMultipleQuotes] builds from its arguments. *)
Definition requestOf (p : LegacyParams) : SwapRequest :=
  {| chainId := lp_chainId p; sellToken := lp_sellToken p;
     buyToken := lp_buyToken p; sellAmount := lp_sellAmount p;
     taker := lp_taker p; recipient := lp_recipient p;
     slippagePercentage := lp_slippagePercentage p;
     deadline := lp_deadline p; aggregator := None;
     approvalStrategy := None |}.

(** Whether a provider's own health probe answers with a healthy status. *)
Definition probesHealthy (provider : OnchainAggregator) : bool :=
  match healthCheck provider with
  | Ok health => bool_decide (status health = healthy)
  | Throw _ => false
  end.

(** What the registrations maintain: in each category the names are
    distinct and every provider sits under its own name; every entry of the
    legacy map is a registered EVM aggregator whose name reads as the entry's
    type. *)
Definition registry_consistent (st : Manager) : Prop :=
  (List.NoDup (map fst (evmAggregators st))
   /\ Forall (fun entry => entry.1 = getProviderName entry.2) (evmAggregators st))
  /\ (List.NoDup (map fst (metaAggregators st))
      /\ Forall (fun entry => entry.1 = p_name entry.2) (metaAggregators st))
  /\ (List.NoDup (map fst (solanaRouters st))
      /\ Forall (fun entry => entry.1 = p_name entry.2) (solanaRouters st))
  /\ (List.NoDup (map fst (nativeRouters st))
      /\ Forall (fun entry => entry.1 = p_name entry.2) (nativeRouters st))
  /\ List.NoDup (map fst (aggregators st))
  /\ Forall
       (fun entry =>
          mapProviderNameToAggregatorType (getProviderName entry.2)
          = Some entry.1
          /\ In entry.2 (Map_values (evmAggregators st)))
       (aggregators st).

(** *** Methods that await health probes

    These methods run in the manager's state together with the number of
    health lookups made so far: the [k]-th lookup of a run reads the clock
    as [Date_now k]. *)

Record Run := {
  manager : Manager;
  lookups : nat
}.

Definition Async (A : Type) : Type := Run -> A * Run.

Definition resolve {A : Type} (a : A) : Async A := fun w => (a, w).

Definition andThen {A B : Type} (m : Async A) (k : A -> Async B) : Async B :=
  fun w => let '(a, w) := m w in k a w.

Notation "'await' x <- m ; k" := (andThen m (fun x => k))
  (at level 10, x name, m at level 100, k at level 200,
   format "'[v' 'await'  x  <-  m ; '/' k ']'").

Record RankedProvider := {
  rp_provider : OnchainAggregator;
  rp_score : JS.number;
  rp_reason : string
}.

Section Selection.
Variable Date_now : nat -> Z.

(** [await this.getProviderHealth(provider)]. *)
Definition awaitProviderHealth (provider : Provider) : Async ProviderHealth :=
  fun w =>
    let '(health, st) :=
      getProviderHealth (Date_now (lookups w)) provider (manager w) in
    (health, {| manager := st; lookups := S (lookups w) |}).

(** [await this.calculateProviderScore(provider, request)], which makes one
    health lookup. *)
Definition awaitProviderScore (provider : OnchainAggregator)
    (request : SwapRequest) : Async JS.number :=
  fun w =>
    let '(score, st) :=
      calculateProviderScore (Date_now (lookups w)) provider request (manager w) in
    (score, {| manager := st; lookups := S (lookups w) |}).

Fixpoint filterHealthyProviders (providers : list OnchainAggregator)
    : Async (list OnchainAggregator) :=
  match providers with
  | [] => resolve []
  | provider :: rest =>
      await health <- awaitProviderHealth (as_IProvider provider);
      await healthyProviders <- filterHealthyProviders rest;
      resolve (if bool_decide (status health = healthy)
               then provider :: healthyProviders
               else healthyProviders)
  end.

(** The loop of [rankProvidersByPerformance] that fills [ranked]. *)
Fixpoint scoreProviders (providers : list OnchainAggregator)
    (request : SwapRequest) : Async (list RankedProvider) :=
  match providers with
  | [] => resolve []
  | provider :: rest =>
      await score <- awaitProviderScore provider request;
      let reason := getProviderScoreReason provider request score in
      await ranked <- scoreProviders rest request;
      resolve ({| rp_provider := provider; rp_score := score;
                  rp_reason := reason |} :: ranked)
  end.

Definition rankProvidersByPerformance (providers : list OnchainAggregator)
    (request : SwapRequest) : Async (list RankedProvider) :=
  await ranked <- scoreProviders providers request;
  resolve (Array_sort (fun a b => JS.sub (rp_score b) (rp_score a)) ranked).

Definition getDynamicQuote (request : SwapRequest)
    (strictValidation : option bool) : Async (result SwapQuote) :=
  fun w =>
    let supportedProviders :=
      getProvidersForChain (chainId request) (manager w) in
    if (length supportedProviders =? 0)%nat then
      (Throw ("No providers support chain " ++ chain_text (chainId request)
              ++ ". Supported chains: "
              ++ String.concat ", "
                   (map decimalZ (getAllSupportedChains (manager w))))%string,
       w)
    else
      (await healthyProviders <- filterHealthyProviders supportedProviders;
       if (length healthyProviders =? 0)%nat then
         resolve
           (tryProvidersWithFallback supportedProviders request strictValidation)
       else
         await rankedProviders <-
           rankProvidersByPerformance healthyProviders request;
         resolve
           (tryProvidersInOrder (map rp_provider rankedProviders) request
              strictValidation)) w.

(** The loop of [getHealthyEvmProviders]. *)
Fixpoint healthyAmong (chain : chain_id) (providers : list OnchainAggregator)
    : Async (list OnchainAggregator) :=
  match providers with
  | [] => resolve []
  | provider :: rest =>
      if supportsChain provider chain then
        await health <- awaitProviderHealth (as_IProvider provider);
        await healthyProviders <- healthyAmong chain rest;
        resolve (if bool_decide (status health = healthy)
                 then provider :: healthyProviders
                 else healthyProviders)
      else healthyAmong chain rest
  end.

(** [healthCache.get(name)?.latency || 1000]. *)
Definition cachedLatency (st : Manager) (provider : OnchainAggregator)
    : JS.number :=
  match healthCache st !! getProviderName provider with
  | Some health =>
      match latency health with
      | Some l => if JS.truthy l then l else JS.of_Z 1000
      | None => JS.of_Z 1000
      end
  | None => JS.of_Z 1000
  end.

Definition getHealthyEvmProviders (chain : chain_id)
    : Async (list OnchainAggregator) :=
  fun w =>
    let '(healthyProviders, w) :=
      healthyAmong chain (Map_values (evmAggregators (manager w))) w in
    (Array_sort
       (fun a b =>
          JS.sub (cachedLatency (manager w) a) (cachedLatency (manager w) b))
       healthyProviders,
     w).

Definition getEvmQuote (request : SwapRequest)
    (preferredProvider : option string) : Async (result SwapQuote) :=
  match preferredProvider with
  | Some preferred =>
      if string_truthy preferred then
        await providers <- getHealthyEvmProviders (chainId request);
        match
          List.find (fun p => String.eqb (getProviderName p) preferred) providers
        with
        | Some preferredProviderInstance =>
            let portsRequest := convertToPortsRequest request in
            match getQuote preferredProviderInstance portsRequest None with
            | Ok quote => resolve (Ok (convertToLegacyQuote quote preferred))
            | Throw _ => getDynamicQuote request None
            end
        | None => getDynamicQuote request None
        end
      else getDynamicQuote request None
  | None => getDynamicQuote request None
  end.

(** [AggregatorManagerService.getQuote]. *)
Definition getQuoteFor (request : SwapRequest)
    (aggregatorType : option AggregatorType) (strictValidation : option bool)
    : Async (result SwapQuote) :=
  match aggregatorType with
  | Some t =>
      let providerName := mapAggregatorTypeToProviderName t in
      await attempt <- getEvmQuote request (Some providerName);
      match attempt with
      | Ok quote => resolve (Ok quote)
      | Throw _ => getDynamicQuote request strictValidation
      end
  | None => getDynamicQuote request strictValidation
  end.

End Selection.

(** ** More of the routing classifier (swap-routing.service.ts) *)

Definition getEvmAggregators (request : UniversalSwapRequestDto) : list string :=
  let chainId := ci_chainId (chain (u_sellToken request)) in
  let baseProviders := ["0x"; "odos"]%string in
  let plannedProviders := ["uniswap"]%string in
  if strict_eq chainId (CNum 1) then ["0x"; "odos"]%string ++ plannedProviders
  else if strict_eq chainId (CNum 137) then
    ["odos"; "0x"]%string ++ plannedProviders
  else if strict_eq chainId (CNum 56) then
    ["0x"; "odos"]%string ++ plannedProviders
  else baseProviders.

Definition getMetaAggregators (request : UniversalSwapRequestDto) : list string :=
  ["lifi"]%string.

Definition getNativeL1Providers (request : UniversalSwapRequestDto)
    : list string :=
  ["thorchain"]%string.

Definition getSolanaProviders (request : UniversalSwapRequestDto) : list string :=
  ["jupiter"]%string.

Definition getProvidersForCategory (category : RoutingCategory)
    (request : UniversalSwapRequestDto) : list string :=
  match category with
  | evm_aggregators => getEvmAggregators request
  | cat_meta => getMetaAggregators request
  | native_l1 => getNativeL1Providers request
  | cat_solana => getSolanaProviders request
  end.

Definition estimateCrossChainSteps (request : UniversalSwapRequestDto) : Z :=
  let sellEcosystem := ecosystem (chain (u_sellToken request)) in
  let buyEcosystem := ecosystem (chain (u_buyToken request)) in
  if bool_decide (sellEcosystem = buyEcosystem) then 2 else 3.

Inductive Complexity := simple | moderate | complex.

Record SwapComplexity := {
  complexity : Complexity;
  estimatedSteps : Z;
  estimatedTime : Z;
  recommendedProviders : list string
}.

Definition estimateSwapComplexity (request : UniversalSwapRequestDto)
    : result SwapComplexity :=
  JS.bind (determineSwapType request) (fun swapType =>
  JS.bind (determineProviderCategory swapType request) (fun category =>
    match swapType with
    | ON_CHAIN =>
        Ok {| complexity := simple; estimatedSteps := 1; estimatedTime := 30;
              recommendedProviders :=
                firstn 2 (getProvidersForCategory category request) |}
    | L1_TO_L2 | L2_TO_L1 =>
        Ok {| complexity := moderate; estimatedSteps := 2;
              estimatedTime := 180;
              recommendedProviders := ["lifi"; "socket"]%string |}
    | CROSS_CHAIN =>
        Ok {| complexity := complex;
              estimatedSteps := estimateCrossChainSteps request;
              estimatedTime := 600;
              recommendedProviders := ["lifi"; "rango"; "socket"]%string |}
    | NATIVE_SWAP =>
        Ok {| complexity := moderate; estimatedSteps := 1;
              estimatedTime := 300;
              recommendedProviders := ["thorchain"; "maya"]%string |}
    | L2_TO_L2 =>
        Ok {| complexity := complex; estimatedSteps := 3; estimatedTime := 900;
              recommendedProviders := [] |}
    end)).

(** The legacy parameters that [getSpenderForSwap] and
    [convertToLegacyParams] build from a request. *)
Definition legacyParamsOf (request : UniversalSwapRequestDto) : LegacyParams :=
  {| lp_chainId := ci_chainId (chain (u_sellToken request));
     lp_sellToken := address (u_sellToken request);
     lp_buyToken := address (u_buyToken request);
     lp_sellAmount := u_sellAmount request;
     lp_taker := u_taker request;
     lp_recipient := u_recipient request;
     lp_slippagePercentage := bps_to_percentage (slippageToleranceBps request);
     lp_deadline := u_deadline request |}.

(** ** More of the approval services (approval.service.ts, permit2.service.ts,
    validation.utils.ts) *)

Definition isHexDigit (c : ascii) : bool :=
  let n := nat_of_ascii c in
  (Nat.leb 48 n && Nat.leb n 57) || (Nat.leb 65 n && Nat.leb n 70)
  || (Nat.leb 97 n && Nat.leb n 102).

(** The regular expression [/^0x[a-fA-F0-9]{64}$/]. *)
Definition matches_0x_hex64 (s : string) : bool :=
  match s with
  | String "0" (String "x" rest) =>
      (String.length rest =? 64)%nat
      && forallb isHexDigit (list_ascii_of_string rest)
  | _ => false
  end.

Definition validatePrivateKey (privateKey : string) : result unit :=
  if negb (string_truthy privateKey) then Throw "Private key is required"
  else if negb (matches_0x_hex64 privateKey) then
    Throw "Invalid private key format"
  else Ok tt.

Definition getPermit2Address (chain : chain_id) : result string :=
  if isPermit2Supported chain then Ok permit2Address
  else Throw ("Permit2 not supported on chain " ++ chain_text chain)%string.

(** What the Permit2 contract answers to [allowance(owner, token, spender)]. *)
Record Permit2Allowance := {
  pa_amount : JS.Amount;
  pa_expiration : Z;
  pa_nonce : Z
}.

Module ApprovalService.
Section WithPlatform.
Variable isAddress : string -> bool.
Variable wallet : WalletService.
(** The read of the Permit2 contract on a chain, for an owner, a token and a
    spender. *)
Variable permit2Allowance :
  chain_id -> string -> string -> string -> result Permit2Allowance.

(** [Permit2Service.isPermit2ApprovalNeeded] at time [now] (milliseconds). *)
Definition isPermit2ApprovalNeeded (now : Z) (chain : chain_id)
    (tokenAddress owner spender : string) (amount : JS.Amount) : bool :=
  let body : result bool :=
    if negb (isTokenPermit2Compatible wallet chain tokenAddress) then Ok true
    else
      JS.bind (getPermit2Address chain) (fun _ =>
      JS.bind (permit2Allowance chain owner tokenAddress spender)
        (fun allowanceResult =>
           let currentTime := now / 1000 in
           let amountBigInt := JS.BigInt amount in
           let allowanceBigInt := JS.BigInt (pa_amount allowanceResult) in
           let isExpired := pa_expiration allowanceResult <? currentTime in
           let isInsufficientAmount := allowanceBigInt <? amountBigInt in
           if isExpired || isInsufficientAmount then Ok true else Ok false)) in
  match body with
  | Ok needed => needed
  | Throw _ => true
  end.

(** [Permit2Service.getPermit2Allowance] at time [now]. *)
Definition getPermit2Allowance (now : Z) (chain : chain_id)
    (tokenAddress owner spender : string) : result JS.Amount :=
  let body :=
    JS.bind (getPermit2Address chain) (fun _ =>
    JS.bind (permit2Allowance chain owner tokenAddress spender)
      (fun allowanceResult =>
         let currentTime := now / 1000 in
         if pa_expiration allowanceResult <? currentTime then Ok 0%N
         else Ok (pa_amount allowanceResult))) in
  match body with
  | Ok allowance => Ok allowance
  | Throw message =>
      Throw ("Permit2 allowance retrieval failed: " ++ message)%string
  end.

(** [ApprovalService.isApprovalNeeded]. *)
Definition isApprovalNeeded (now : Z) (chain : chain_id)
    (tokenAddress owner spender : string) (amount : JS.Amount) : result bool :=
  let body : result bool :=
    if isNativeToken tokenAddress then Ok false
    else if isPermit2Supported chain
            && isTokenPermit2Compatible wallet chain tokenAddress then
      Ok (isPermit2ApprovalNeeded now chain tokenAddress owner spender amount)
    else
      JS.bind (getAllowance wallet chain tokenAddress owner spender)
        (fun currentAllowance =>
           let requiredAmount := JS.BigInt amount in
           let currentAllowanceBigInt := JS.BigInt currentAllowance in
           Ok (currentAllowanceBigInt <? requiredAmount)) in
  match body with
  | Ok needed => Ok needed
  | Throw message =>
      if isValidationError message then Throw message
      else Throw ("Failed to check approval status: " ++ message)%string
  end.

(** [ApprovalService.createPermit2Signature]; what it would return is a
    signature with its permit data. *)
Definition createPermit2Signature (chain : chain_id)
    (privateKey tokenAddress spender : string) (amount : JS.Amount)
    (deadline : Z) : result (string * Permit2Data) :=
  let body : result (string * Permit2Data) :=
    JS.bind (validatePrivateKey privateKey) (fun _ =>
    JS.bind (validateTokenAddress isAddress tokenAddress) (fun _ =>
    JS.bind (validateWalletAddress isAddress spender) (fun _ =>
      if isNativeToken tokenAddress then
        Throw "Cannot create Permit2 signature for native token"
      else if negb (isPermit2Supported chain) then
        Throw ("Permit2 not supported on chain " ++ chain_text chain)%string
      else if negb (isTokenPermit2Compatible wallet chain tokenAddress) then
        Throw ("Token " ++ tokenAddress ++ " is not Permit2 compatible")%string
      else
        Throw "Permit2 signatures temporarily disabled. Use standard ERC-20 approvals or new permit2 workflow service."))) in
  match body with
  | Ok r => Ok r
  | Throw message =>
      if isValidationError message then Throw message
      else Throw ("Failed to create Permit2 signature: " ++ message)%string
  end.

(** [ApprovalService.isPermit2Available]. *)
Definition isPermit2Available (chain : chain_id) (tokenAddress : string) : bool :=
  if isNativeToken tokenAddress then false
  else if negb (isPermit2Supported chain) then false
  else isTokenPermit2Compatible wallet chain tokenAddress.

End WithPlatform.
End ApprovalService.

(** ** More of the Permit2 workflow (permit2-workflow.service.ts) *)

Definition createSignedQuote
    (signPermit2Data : chain_id -> string -> Permit2Data -> result string)
    (q : SwapQuote) (privateKey : string) (chain : chain_id)
    : result SwapQuote :=
  JS.bind (processPermit2Quote signPermit2Data q privateKey chain) (fun r =>
    Ok {| q_sellToken := q_sellToken q; q_buyToken := q_buyToken q;
          q_sellAmount := q_sellAmount q; buyAmount := buyAmount q;
          minBuyAmount := minBuyAmount q; q_gas := q_gas q; q_to := q_to q;
          q_data := modifiedTxData r; q_value := q_value q;
          allowanceTarget := allowanceTarget q;
          q_aggregator := q_aggregator q; permit2 := permit2 q;
          q_approvalStrategy := q_approvalStrategy q |}).

(** ** Slippage arithmetic (ethereum.utils.ts)

    The amounts are [BigInt] values; [/] on them truncates toward zero.
    [slippageBps] is an integer [number]. *)

Definition calculateMinReturn (expectedAmount : Z) (slippageBps : Z) : Z :=
  let expected := expectedAmount in
  let slippageMultiplier := 10000 - slippageBps in
  Z.quot (expected * slippageMultiplier) 10000.

Definition calculateMaxInput (expectedAmount : Z) (slippageBps : Z) : Z :=
  let expected := expectedAmount in
  let slippageMultiplier := 10000 + slippageBps in
  Z.quot (expected * slippageMultiplier) 10000.

(** ** The rate-limit guard (rate-limit.guard.ts) *)

Module RateLimitGuard.

Record ClientData := {
  count : Z;
  resetTime : Z
}.

Abbreviation Requests := (gmap string ClientData).

Definition maxRequests : Z := 100.
Definition windowMs : Z := 60 * 1000.

(** What [canActivate] does: it returns [true] or throws the HTTP 429
    exception with its [retryAfter]. *)
Inductive Outcome :=
| Activated
| TooManyRequests (retryAfter : Z).

(** [Math.ceil(a / b)] for integers [a] and [b > 0]. *)
Definition ceil_div (a b : Z) : Z := - ((- a) / b).

(** The incoming request, as far as [getClientId] reads it. *)
Record HttpRequest := {
  ip : option string;
  remoteAddress : option string
}.

Definition getClientId (request : HttpRequest) : string :=
  match ip request with
  | Some address => if string_truthy address then address
                    else match remoteAddress request with
                         | Some remote =>
                             if string_truthy remote then remote else "unknown"
                         | None => "unknown"
                         end
  | None =>
      match remoteAddress request with
      | Some remote => if string_truthy remote then remote else "unknown"
      | None => "unknown"
      end
  end%string.

(** [canActivate] at time [now] (milliseconds) for a client. *)
Definition canActivate (now : Z) (clientId : string) (requests : Requests)
    : Outcome * Requests :=
  let fresh :=
    (Activated,
     <[clientId := {| count := 1; resetTime := now + windowMs |}]> requests) in
  match requests !! clientId with
  | None => fresh
  | Some clientData =>
      if resetTime clientData <? now then fresh
      else if maxRequests <=? count clientData then
        (TooManyRequests (ceil_div (resetTime clientData - now) 1000), requests)
      else
        (Activated,
         <[clientId := {| count := count clientData + 1;
                          resetTime := resetTime clientData |}]> requests)
  end.

(** The callback that [onModuleInit] schedules every minute. *)
Definition cleanup (now : Z) (requests : Requests) : Requests :=
  filter (fun entry => ~ (resetTime entry.2 < now)) requests.

(** The guard in front of a sequence of requests. *)
Fixpoint serve (arrivals : list (Z * string)) (requests : Requests)
    : list Outcome * Requests :=
  match arrivals with
  | [] => ([], requests)
  | (now, clientId) :: rest =>
      let '(outcome, requests) := canActivate now clientId requests in
      let '(outcomes, requests) := serve rest requests in
      (outcome :: outcomes, requests)
  end.

Definition activated (o : Outcome) : bool :=
  match o with Activated => true | TooManyRequests _ => false end.

End RateLimitGuard.

(** ** The best quote of a list *)

Definition quoteAmount (e : QuoteEntry) : Z := JS.BigInt (buyAmount (quote e)).

(** The first entry of largest amount in [x :: l]. *)
Fixpoint first_best (x : QuoteEntry) (l : list QuoteEntry) : QuoteEntry :=
  match l with
  | [] => x
  | y :: rest =>
      let m := first_best y rest in
      if quoteAmount x <? quoteAmount m then m else x
  end.

(** * Properties *)

(** ** Insertion-ordered maps *)

Section OrderedMapFacts.
Context {K V : Type} `{EqDecision K}.

Lemma Map_has_set (k : K) (v : V) (m : list (K * V)) :
  Map_has k (Map_set k v m) = true.
Proof.
  induction m as [|kv rest IH]; simpl.
  - rewrite bool_decide_eq_true_2; auto.
  - destruct (bool_decide (kv.1 = k)) eqn:E; simpl.
    + rewrite bool_decide_eq_true_2; auto.
    + rewrite E. exact IH.
Qed.

End OrderedMapFacts.

(** ** The registry *)

Lemma evmAggregators_registerInLegacyMap name p st :
  evmAggregators (registerInLegacyMap name p st) = evmAggregators st.
Proof.
  unfold registerInLegacyMap.
  destruct (String.eqb _ "0x"); [reflexivity|].
  destruct (String.eqb _ "odos"); reflexivity.
Qed.

Lemma register_duplicate p st :
  name_taken p st = true ->
  registerProvider p st
  = log (WarnDuplicate (category_of p) (provider_name p)) st.
Proof.
  destruct p as [a|a|a|a]; simpl; intros Htaken.
  - unfold registerEvmAggregator. rewrite Htaken. reflexivity.
  - unfold registerMetaAggregator. rewrite Htaken. reflexivity.
  - unfold registerSolanaRouter. rewrite Htaken. reflexivity.
  - unfold registerNativeRouter. rewrite Htaken. reflexivity.
Qed.

(** Once a provider has been registered its name is taken, whether or not
    it was there before. *)
Lemma registered_name_taken p st : name_taken p (registerProvider p st) = true.
Proof.
  destruct p as [a|a|a|a]; simpl.
  - unfold registerEvmAggregator.
    destruct (Map_has _ (evmAggregators st)) eqn:E; simpl; [exact E|].
    rewrite evmAggregators_registerInLegacyMap. simpl. apply Map_has_set.
  - unfold registerMetaAggregator.
    destruct (Map_has _ (metaAggregators st)) eqn:E; simpl; [exact E|].
    apply Map_has_set.
  - unfold registerSolanaRouter.
    destruct (Map_has _ (solanaRouters st)) eqn:E; simpl; [exact E|].
    apply Map_has_set.
  - unfold registerNativeRouter.
    destruct (Map_has _ (nativeRouters st)) eqn:E; simpl; [exact E|].
    apply Map_has_set.
Qed.

Lemma name_taken_same_name p p' st :
  category_of p' = category_of p -> provider_name p' = provider_name p ->
  name_taken p' st = name_taken p st.
Proof.
  destruct p as [a|a|a|a], p' as [b|b|b|b]; try discriminate; simpl;
    intros _ ->; reflexivity.
Qed.

(** C8. Registering a provider whose name is already registered in the same
    category (in particular the same provider a second time) leaves the
    legacy map and the four per-category maps, the health cache and the
    registration latch as they were; the only trace is one duplicate
    warning in the log. *)
Theorem register_twice_ignored (p p' : AnyProvider) (st : Manager) :
  category_of p' = category_of p ->
  provider_name p' = provider_name p ->
  let once := registerProvider p st in
  let twice := registerProvider p' once in
  registry twice = registry once
  /\ healthCache twice = healthCache once
  /\ registrationComplete twice = registrationComplete once
  /\ logger twice
     = logger once ++ [WarnDuplicate (category_of p) (provider_name p)].
Proof.
  intros Hcat Hname once twice. subst twice.
  rewrite register_duplicate.
  - rewrite Hcat, Hname. repeat split; reflexivity.
  - rewrite (name_taken_same_name p p') by assumption.
    apply registered_name_taken.
Qed.

Lemma register_twice_ignored_witness :
  let once := registerProvider (AnEvmAggregator zeroXAdapter) new_Manager in
  let twice := registerProvider (AnEvmAggregator zeroXAdapter) once in
  registry twice = registry once
  /\ healthCache twice = healthCache once
  /\ registrationComplete twice = registrationComplete once
  /\ logger twice = logger once ++ [WarnDuplicate EVM_AGGREGATOR "0x"].
Proof.
  apply (register_twice_ignored (AnEvmAggregator zeroXAdapter)
           (AnEvmAggregator zeroXAdapter) new_Manager); reflexivity.
Defined.

(** ** The routing classifier *)

Lemma autoDetect_total request : exists t, autoDetect request = Ok t.
Proof.
  unfold autoDetect.
  destruct (bool_decide (ecosystem _ = ecosystem _)) eqn:Heco; simpl.
  - destruct (strict_eq _ _); simpl; eauto.
    destruct (bool_decide (_ = EVM)); eauto.
  - destruct (isNativeL1Swap _ _); eauto.
Qed.

Lemma autoDetect_with_swapType s request :
  autoDetect (with_swapType s request) = autoDetect request.
Proof. reflexivity. Qed.

Lemma determineSwapType_body request :
  determineSwapType request
  = match swapType request with
    | Some provided =>
        JS.bind (validateSwapType request provided) (fun consistent =>
          if consistent then Ok provided else autoDetect request)
    | None => autoDetect request
    end.
Proof.
  unfold validateSwapType.
  funelim (determineSwapType request).
  - rewrite e. reflexivity.
  - rewrite e, Heq. reflexivity.
  - rewrite e, Heq. reflexivity.
Qed.

Lemma determineSwapType_without_override request :
  determineSwapType (with_swapType None request) = autoDetect request.
Proof. rewrite determineSwapType_body. reflexivity. Qed.

(** What [determineSwapType] returns, in closed form. *)
Lemma determineSwapType_closed request :
  determineSwapType request
  = match swapType request, autoDetect request with
    | Some provided, Ok detected =>
        if bool_decide (detected = provided) then Ok provided else Ok detected
    | _, r => r
    end.
Proof.
  rewrite determineSwapType_body. unfold validateSwapType.
  rewrite determineSwapType_without_override.
  destruct (swapType request) as [provided|]; simpl.
  - destruct (autoDetect request) as [detected|m] eqn:E; simpl; [|reflexivity].
    destruct (bool_decide (detected = provided)); reflexivity.
  - destruct (autoDetect request); reflexivity.
Qed.

(** C6. Every request is classified, and classifying it again with the
    result supplied as its explicit [swapType] gives the same result.  An
    explicit [swapType] is checked against the type derived with the
    override removed: it is returned when the two are equal, and the derived
    type is returned otherwise. *)
Theorem determineSwapType_round_trip (request : UniversalSwapRequestDto) :
  (exists t,
      determineSwapType request = Ok t
      /\ determineSwapType (with_swapType (Some t) request) = Ok t)
  /\ (forall provided, exists derived,
         determineSwapType (with_swapType None request) = Ok derived
         /\ validateSwapType (with_swapType (Some provided) request) provided
            = Ok (bool_decide (derived = provided))
         /\ determineSwapType (with_swapType (Some provided) request)
            = Ok (if bool_decide (derived = provided) then provided else derived)).
Proof.
  destruct (autoDetect_total request) as [d Hd]. split.
  - exists (match swapType request with
            | Some provided => if bool_decide (d = provided) then provided else d
            | None => d
            end).
    rewrite !determineSwapType_closed. simpl.
    rewrite autoDetect_with_swapType, Hd.
    destruct (swapType request) as [provided|].
    + destruct (bool_decide (d = provided)) eqn:E; split; try reflexivity.
      * rewrite E. reflexivity.
      * rewrite bool_decide_eq_true_2 by reflexivity. reflexivity.
    + split; [reflexivity|].
      rewrite bool_decide_eq_true_2 by reflexivity. reflexivity.
  - intros provided. exists d. repeat split.
    + rewrite determineSwapType_without_override. exact Hd.
    + unfold validateSwapType. simpl.
      change (with_swapType None (with_swapType (Some provided) request))
        with (with_swapType None request).
      rewrite determineSwapType_without_override, Hd. reflexivity.
    + rewrite determineSwapType_closed. simpl.
      rewrite autoDetect_with_swapType, Hd.
      destruct (bool_decide (d = provided)); reflexivity.
Qed.

(** ** Approval status *)

(** C10. Called without an amount for a token that is not the native one,
    with a positive chain id, well-formed addresses and successful reads of
    the allowance and of the token information, [getApprovalStatus] returns
    a status that carries the allowance read and reports that approval is
    needed exactly when that allowance is zero. *)
Theorem approval_status_without_amount
    (isAddress : string -> bool) (wallet : WalletService) (n : Z)
    (tokenAddress owner spender : string) (allowance : JS.Amount)
    (info : TokenMeta) :
  0 < n ->
  validateTokenAddress isAddress tokenAddress = Ok tt ->
  validateWalletAddress isAddress owner = Ok tt ->
  validateWalletAddress isAddress spender = Ok tt ->
  isNativeToken tokenAddress = false ->
  getAllowance wallet (CNum n) tokenAddress owner spender = Ok allowance ->
  getTokenInfo wallet (CNum n) tokenAddress = Ok info ->
  exists r,
    getApprovalStatus isAddress wallet (CNum n) tokenAddress owner spender None
    = Ok r
    /\ currentAllowance r = allowance
    /\ (isApprovalNeeded r = true <-> allowance = 0%N)
    /\ (isApprovalNeeded r = false <-> (0 < allowance)%N).
Proof.
  intros Hn Htok Hown Hsp Hnative Hallow Hinfo.
  unfold getApprovalStatus, approvalStatusBody.
  replace ((n =? 0) || (n <=? 0)) with false
    by (symmetry; apply orb_false_intro; lia).
  rewrite Htok, Hown, Hsp. simpl. rewrite Hnative, Hallow. simpl.
  rewrite Hinfo. simpl.
  eexists. split; [reflexivity|]. simpl. split; [reflexivity|].
  unfold JS.BigInt. simpl. split.
  - rewrite Z.eqb_eq. lia.
  - rewrite Z.eqb_neq. lia.
Qed.

Lemma approval_status_without_amount_witness :
  exists r,
    getApprovalStatus isAddress_shape (sampleWallet 5%N 0%N) (CNum 1) sampleToken
      sampleOwner sampleSpender None = Ok r
    /\ currentAllowance r = 5%N
    /\ (isApprovalNeeded r = true <-> 5%N = 0%N)
    /\ (isApprovalNeeded r = false <-> (0 < 5)%N).
Proof.
  apply (approval_status_without_amount isAddress_shape (sampleWallet 5%N 0%N) 1
           sampleToken sampleOwner sampleSpender 5%N
           {| tm_symbol := "USDT"; tm_decimals := 6 |});
    first [lia | reflexivity].
Defined.

(** ** The Permit2 splice *)

#[local] Arguments String.append !s1 s2 /.

Section StringFacts.
Local Open Scope string_scope.

Lemma string_app_assoc (a b c : string) : (a ++ b) ++ c = a ++ (b ++ c).
Proof. induction a as [|x a IH]; simpl; [reflexivity | now rewrite IH]. Qed.

Lemma string_app_nil_r (a : string) : a ++ "" = a.
Proof. induction a as [|x a IH]; simpl; [reflexivity | now rewrite IH]. Qed.

Lemma string_length_app (a b : string) :
  String.length (a ++ b) = (String.length a + String.length b)%nat.
Proof. induction a as [|x a IH]; simpl; [reflexivity | now rewrite IH]. Qed.

Lemma substring_all (s : string) : substring 0 (String.length s) s = s.
Proof. induction s as [|x s IH]; simpl; [reflexivity | now rewrite IH]. Qed.

Lemma length_zeros (k : nat) : String.length (JS.zeros k) = k.
Proof. induction k; simpl; auto. Qed.

Lemma zeros_add (a b : nat) : JS.zeros (a + b) = JS.zeros a ++ JS.zeros b.
Proof. induction a; simpl; [reflexivity | now rewrite IHa]. Qed.

Lemma zeros_snoc (k : nat) : JS.zeros k ++ "0" = JS.zeros (S k).
Proof. induction k; simpl; [reflexivity | now rewrite IHk]. Qed.

(** Removing the first ["0x"] of a string that starts with it. *)
Lemma replace0x_prefixed (t : string) : Viem.replace0x ("0x" ++ t) = t.
Proof.
  unfold Viem.replace0x.
  assert (Hidx : String.index 0 "0x" ("0x" ++ t) = Some 0%nat)
    by (destruct t; reflexivity).
  rewrite Hidx. simpl. rewrite Nat.sub_0_r. apply substring_all.
Qed.

Lemma prefix_0x (t : string) : String.prefix "0x" ("0x" ++ t) = true.
Proof. destruct t; reflexivity. Qed.

End StringFacts.

Lemma length_hex_of_bytes (l : list Byte.byte) :
  String.length (hex_of_bytes l) = (2 * length l)%nat.
Proof.
  induction l as [|b l IH]; simpl; [reflexivity|]. rewrite IH. lia.
Qed.

Lemma hex_of_bytes_app (l1 l2 : list Byte.byte) :
  hex_of_bytes (l1 ++ l2) = (hex_of_bytes l1 ++ hex_of_bytes l2)%string.
Proof.
  induction l1 as [|b l1 IH]; simpl; [reflexivity|]. now rewrite IH.
Qed.

(** The byte length [size] reads off a hex string. *)
Lemma size_toHex (l : list Byte.byte) : Viem.size (toHex l) = N.of_nat (length l).
Proof.
  unfold Viem.size, toHex. rewrite prefix_0x. simpl.
  rewrite Nat.sub_0_r, length_hex_of_bytes. f_equal.
  apply Nat.div2_succ_double.
Qed.

Lemma concat_three (t x s : string) :
  Viem.concat [("0x" ++ t)%string; ("0x" ++ x)%string; ("0x" ++ s)%string]
  = ("0x" ++ t ++ x ++ s)%string.
Proof.
  unfold Viem.concat. cbn [fold_left]. rewrite !replace0x_prefixed.
  simpl. now rewrite string_app_assoc.
Qed.

Section HexDigits.
Local Open Scope N_scope.

(** Quotient and remainder by 16 as plain unknowns for [lia]. *)
Ltac split16 n :=
  let q := fresh "q" in
  let r := fresh "r" in
  pose proof (N.Div0.div_mod n 16);
  pose proof (N.mod_lt n 16 ltac:(discriminate));
  set (q := n / 16) in *; set (r := n mod 16) in *; clearbody q r.

Lemma hexfixed_length (k : nat) (n : N) : String.length (hexfixed k n) = k.
Proof.
  revert n. induction k as [|k IH]; intros n; simpl; [reflexivity|].
  rewrite string_length_app, IH. simpl. lia.
Qed.

Lemma hexfixed_zero (k : nat) : hexfixed k 0 = JS.zeros k.
Proof.
  induction k as [|k IH]; [reflexivity|].
  change (hexfixed (S k) 0) with (hexfixed k 0 ++ "0")%string.
  rewrite IH. apply zeros_snoc.
Qed.

Lemma pow16_succ (j : nat) : 16 ^ N.of_nat (S j) = 16 * 16 ^ N.of_nat j.
Proof. rewrite Nat2N.inj_succ. apply N.pow_succ_r'. Qed.

Lemma div16_lt (n : N) (j : nat) :
  n < 16 ^ N.of_nat (S j) -> n / 16 < 16 ^ N.of_nat j.
Proof.
  rewrite pow16_succ. intros H. apply N.Div0.div_lt_upper_bound. exact H.
Qed.

(** Digits above the value are zeros. *)
Lemma hexfixed_small (j k : nat) (n : N) :
  n < 16 ^ N.of_nat j ->
  hexfixed (k + j) n = (JS.zeros k ++ hexfixed j n)%string.
Proof.
  revert n. induction j as [|j IH]; intros n Hn.
  - simpl in Hn. assert (n = 0) by lia. subst n.
    rewrite Nat.add_0_r, hexfixed_zero. simpl. now rewrite string_app_nil_r.
  - replace (k + S j)%nat with (S (k + j)) by lia. simpl.
    rewrite IH by (apply div16_lt; exact Hn).
    now rewrite string_app_assoc.
Qed.

Lemma toString16_from_step (fuel : nat) (n : N) (acc : string) :
  Viem.toString16_from (S fuel) n acc
  = if n / 16 =? 0 then String (Viem.hexdigit (n mod 16)) acc
    else Viem.toString16_from fuel (n / 16)
           (String (Viem.hexdigit (n mod 16)) acc).
Proof. reflexivity. Qed.

(** [toString16_from] writes the digits of [n] up to its highest non-zero
    one. *)
Lemma toString16_from_digits (fuel : nat) :
  forall (n : N) (acc : string),
    n < 16 ^ N.of_nat (S fuel) ->
    exists j : nat,
      (1 <= j)%nat
      /\ n < 16 ^ N.of_nat j
      /\ (j = 1%nat \/ 16 ^ N.of_nat (j - 1) <= n)
      /\ Viem.toString16_from (S fuel) n acc = (hexfixed j n ++ acc)%string.
Proof.
  induction fuel as [|fuel IH]; intros n acc Hn.
  - exists 1%nat. repeat split; auto.
    simpl. replace (n / 16 =? 0) with true; [reflexivity|].
    symmetry. apply N.eqb_eq. apply N.div_small. simpl in Hn. lia.
  - rewrite (toString16_from_step (S fuel)).
    destruct (n / 16 =? 0) eqn:E.
    + apply N.eqb_eq in E. exists 1%nat.
      split; [lia|]. split; [|split; [now left | reflexivity]].
      apply N.div_small_iff in E; [exact E | discriminate].
    + apply N.eqb_neq in E.
      destruct (IH (n / 16) (String (Viem.hexdigit (n mod 16)) acc))
        as (j & Hj1 & Hlt & Hmin & Heq).
      { apply div16_lt. exact Hn. }
      exists (S j). repeat split.
      * lia.
      * rewrite pow16_succ. clear Heq. split16 n. lia.
      * right. replace (S j - 1)%nat with (S (j - 1)) by lia.
        rewrite pow16_succ. clear Heq.
        destruct Hmin as [-> | Hmin].
        -- change (16 ^ N.of_nat (1 - 1)) with 1. split16 n. lia.
        -- split16 n. lia.
      * rewrite Heq. simpl. now rewrite string_app_assoc.
Qed.

Lemma lt_pow16_log2 (n : N) : n < 16 ^ N.of_nat (S (N.to_nat (N.log2 n))).
Proof.
  rewrite Nat2N.inj_succ, N2Nat.id.
  destruct (N.eq_dec n 0) as [-> | Hn]; [reflexivity|].
  pose proof (N.log2_spec n ltac:(lia)) as [_ Hup].
  eapply N.lt_le_trans; [exact Hup|].
  apply N.pow_le_mono_l. lia.
Qed.

(** Padded to [k] digits, [toString(16)] is the fixed-width form. *)
Lemma padStart0_toString16 (k : nat) (n : N) :
  n < 16 ^ N.of_nat k -> (1 <= k)%nat ->
  (String.length (Viem.toString16 n) <= k)%nat
  /\ Viem.padStart0 k (Viem.toString16 n) = hexfixed k n.
Proof.
  intros Hn Hk. unfold Viem.toString16.
  destruct (toString16_from_digits _ n EmptyString (lt_pow16_log2 n))
    as (j & Hj1 & Hlt & Hmin & Heq).
  rewrite Heq, string_app_nil_r.
  assert (Hjk : (j <= k)%nat).
  { destruct Hmin as [-> | Hmin]; [exact Hk|].
    destruct (Nat.le_gt_cases j k) as [H|H]; [exact H|].
    exfalso.
    assert (16 ^ N.of_nat k <= 16 ^ N.of_nat (j - 1))
      by (apply N.pow_le_mono_r; lia).
    lia. }
  unfold Viem.padStart0. rewrite hexfixed_length. split; [exact Hjk|].
  replace k with ((k - j) + j)%nat at 2 by lia.
  symmetry. apply hexfixed_small. exact Hlt.
Qed.

End HexDigits.

Section BigEndian.
Local Open Scope N_scope.

Lemma to_N_byte_of_N (n : N) : Byte.to_N (byte_of_N n) = n mod 256.
Proof.
  unfold byte_of_N. destruct (Byte.of_N (n mod 256)) as [b|] eqn:E.
  - apply Byte.to_of_N. exact E.
  - apply Byte.of_N_None_iff in E.
    pose proof (N.mod_lt n 256 ltac:(discriminate)). lia.
Qed.

Lemma length_be_bytes (k : nat) (n : N) : length (be_bytes k n) = k.
Proof.
  revert n. induction k as [|k IH]; intros n; simpl; [reflexivity|].
  rewrite length_app, IH. simpl. lia.
Qed.

(** Two hex digits per byte, highest byte first. *)
Lemma hexfixed_be_bytes (k : nat) (n : N) :
  hexfixed (2 * k) n = hex_of_bytes (be_bytes k n).
Proof.
  revert n. induction k as [|k IH]; intros n; [reflexivity|].
  replace (2 * S k)%nat with (S (S (2 * k))) by lia.
  cbn [hexfixed be_bytes].
  rewrite hex_of_bytes_app. cbn [hex_of_bytes]. rewrite string_app_nil_r.
  unfold hex_of_byte. rewrite to_N_byte_of_N.
  rewrite N.Div0.div_div. change (16 * 16) with 256.
  rewrite IH, string_app_assoc. f_equal. simpl.
  change 256 with (16 * 16).
  rewrite N.Div0.mod_mul_r.
  pose proof (N.mod_lt n 16 ltac:(discriminate)) as Hr.
  pose proof (N.mod_lt (n / 16) 16 ltac:(discriminate)) as Hq.
  set (q := (n / 16) mod 16) in *. set (r := n mod 16) in *. clearbody q r.
  replace ((r + 16 * q) / 16) with q.
  2:{ symmetry.
      rewrite (N.add_comm r), (N.mul_comm 16 q), N.div_add_l by discriminate.
      rewrite (N.div_small r 16) by exact Hr. lia. }
  replace ((r + 16 * q) mod 16) with r; [reflexivity|].
  symmetry. rewrite (N.mul_comm 16 q), N.Div0.mod_add.
  apply N.mod_small. exact Hr.
Qed.

(** Decoding a big-endian encoding gives the integer back. *)
Lemma be_decode_snoc (l : list Byte.byte) (b : Byte.byte) :
  be_decode (l ++ [b]) = be_decode l * 256 + Byte.to_N b.
Proof. unfold be_decode. rewrite fold_left_app. reflexivity. Qed.

Lemma be_decode_be_bytes (k : nat) (n : N) :
  be_decode (be_bytes k n) = n mod 256 ^ N.of_nat k.
Proof.
  revert n. induction k as [|k IH]; intros n.
  - simpl. now rewrite N.mod_1_r.
  - cbn [be_bytes]. rewrite be_decode_snoc, IH, to_N_byte_of_N.
    rewrite Nat2N.inj_succ, N.pow_succ_r'.
    rewrite (N.Div0.mod_mul_r n 256). lia.
Qed.

Lemma be_decode_uint256 (n : N) : n < 2 ^ 256 -> be_decode (uint256_be n) = n.
Proof.
  intros Hn. unfold uint256_be. rewrite be_decode_be_bytes.
  apply N.mod_small. exact Hn.
Qed.

(** [numberToHex] with size 32 writes the 32-byte big-endian encoding. *)
Lemma numberToHex_uint256 (n : N) :
  n < 2 ^ 256 ->
  Viem.numberToHex n 32 = Ok ("0x" ++ hex_of_bytes (uint256_be n))%string.
Proof.
  intros Hn. unfold Viem.numberToHex.
  replace (2 ^ (N.of_nat 32 * 8) - 1 <? n) with false.
  2:{ symmetry. apply N.ltb_ge. change (N.of_nat 32 * 8) with 256.
      apply N.lt_le_pred in Hn. rewrite <- N.sub_1_r in Hn. exact Hn. }
  unfold Viem.padHex. rewrite replace0x_prefixed.
  destruct (padStart0_toString16 64 n) as [Hlen Hpad].
  { exact Hn. }
  { lia. }
  change (32 * 2)%nat with 64%nat.
  replace (64 <? String.length (Viem.toString16 n))%nat with false
    by (symmetry; apply Nat.ltb_ge; exact Hlen).
  rewrite Hpad. unfold uint256_be.
  now rewrite <- (hexfixed_be_bytes 32 n).
Qed.

End BigEndian.

(** The splice on hex strings, whatever the case of their digits: the
    digits of the payload, 64 digits for the number of signature bytes, the
    digits of the signature. *)
Lemma appendSignatureToTxData_hex (t s : string) :
  (Viem.size ("0x" ++ s) < 2 ^ 256)%N ->
  appendSignatureToTxData ("0x" ++ t) ("0x" ++ s)
  = Ok ("0x" ++ t ++ hex_of_bytes (uint256_be (Viem.size ("0x" ++ s))) ++ s)%string.
Proof.
  intros Hlen. unfold appendSignatureToTxData.
  rewrite (numberToHex_uint256 _ Hlen). cbn [JS.bind].
  now rewrite concat_three.
Qed.

(** The splice on byte sequences. *)
Lemma appendSignatureToTxData_bytes (original signature : list Byte.byte) :
  (N.of_nat (length signature) < 2 ^ 256)%N ->
  appendSignatureToTxData (toHex original) (toHex signature)
  = Ok (toHex (original
               ++ uint256_be (N.of_nat (length signature)) ++ signature)).
Proof.
  intros Hlen. unfold toHex at 1 2.
  rewrite appendSignatureToTxData_hex; fold (toHex signature);
    rewrite size_toHex; [|exact Hlen].
  unfold toHex. now rewrite !hex_of_bytes_app.
Qed.

(** [processPermit2Quote] returns the quote's payload untouched together
    with the spliced one. *)
Lemma processPermit2Quote_splice sign (q : SwapQuote) key chain data
    (original signature : list Byte.byte) :
  (N.of_nat (length signature) < 2 ^ 256)%N ->
  permit2 q = Some data ->
  q_data q = toHex original ->
  sign chain key data = Ok (toHex signature) ->
  processPermit2Quote sign q key chain
  = Ok {| originalTxData := toHex original;
          pr_signature := toHex signature;
          modifiedTxData :=
            toHex (original
                   ++ uint256_be (N.of_nat (length signature)) ++ signature);
          permit2Data := data |}.
Proof.
  intros Hlen Hp Hd Hs. unfold processPermit2Quote.
  rewrite Hp, Hs, Hd. cbn [JS.bind].
  now rewrite (appendSignatureToTxData_bytes _ _ Hlen).
Qed.

(** C2. For a payload and a signature given as byte sequences, the splice
    returns the payload, then the 32-byte big-endian unsigned encoding of
    the number of signature bytes, then the signature.  Its length is the
    length of the payload plus 32 plus the length of the signature, the 32
    bytes after the payload decode to the signature length, and on
    ["0xabcd"] with 65 bytes [0xaa] the result is ["0xabcd"], 31 zero bytes,
    [0x41] and the 65 signature bytes. *)
Theorem permit2_splice (original signature : list Byte.byte) :
  (N.of_nat (length signature) < 2 ^ 256)%N ->
  let prefix := uint256_be (N.of_nat (length signature)) in
  appendSignatureToTxData (toHex original) (toHex signature)
  = Ok (toHex (original ++ prefix ++ signature))
  /\ Viem.size (toHex (original ++ prefix ++ signature))
     = (Viem.size (toHex original) + 32 + Viem.size (toHex signature))%N
  /\ length prefix = 32%nat
  /\ be_decode prefix = N.of_nat (length signature)
  /\ appendSignatureToTxData "0xabcd" (toHex signature_aa)
     = Ok ("0xabcd" ++ hex_of_bytes (repeat Byte.x00 31) ++ "41"
           ++ hex_of_bytes signature_aa)%string.
Proof.
  intros Hlen prefix. subst prefix.
  split; [|split; [|split; [|split]]].
  - apply appendSignatureToTxData_bytes. exact Hlen.
  - rewrite !size_toHex, !length_app. unfold uint256_be.
    rewrite length_be_bytes. lia.
  - apply length_be_bytes.
  - apply be_decode_uint256. exact Hlen.
  - vm_compute. reflexivity.
Qed.

Lemma permit2_splice_witness :
  let prefix := uint256_be (N.of_nat (length signature_aa)) in
  appendSignatureToTxData (toHex [Byte.xab; Byte.xcd]) (toHex signature_aa)
  = Ok (toHex ([Byte.xab; Byte.xcd] ++ prefix ++ signature_aa))
  /\ Viem.size (toHex ([Byte.xab; Byte.xcd] ++ prefix ++ signature_aa))
     = (Viem.size (toHex [Byte.xab; Byte.xcd]) + 32
        + Viem.size (toHex signature_aa))%N
  /\ length prefix = 32%nat
  /\ be_decode prefix = N.of_nat (length signature_aa)
  /\ appendSignatureToTxData "0xabcd" (toHex signature_aa)
     = Ok ("0xabcd" ++ hex_of_bytes (repeat Byte.x00 31) ++ "41"
           ++ hex_of_bytes signature_aa)%string.
Proof.
  apply (permit2_splice [Byte.xab; Byte.xcd] signature_aa).
  vm_compute. reflexivity.
Defined.

(** ** Numbers read from digit strings *)

Section ParseFloat.
Local Open Scope Z_scope.

Lemma shr_1_m (mrs : shr_record) :
  0 <= shr_m mrs -> shr_m (shr_1 mrs) = shr_m mrs / 2.
Proof.
  destruct mrs as [m r s]. simpl. intros Hm.
  destruct m as [|p|p]; [reflexivity| |lia].
  destruct p as [p|p|]; simpl.
  - rewrite Pos2Z.inj_xI. symmetry.
    rewrite Z.add_comm, Z.mul_comm, Z.div_add by lia. reflexivity.
  - rewrite Pos2Z.inj_xO. symmetry.
    rewrite Z.mul_comm, Z.div_mul by lia. reflexivity.
  - reflexivity.
Qed.

Lemma iter_shr_1_m (p : positive) :
  forall mrs, 0 <= shr_m mrs ->
    shr_m (SpecFloat.iter_pos shr_1 p mrs) = shr_m mrs / 2 ^ Z.pos p.
Proof.
  assert (Hpow : forall k, 0 < 2 ^ Z.pos k)
    by (intros k; apply Z.pow_pos_nonneg; lia).
  assert (Hnn : forall m k, 0 <= m -> 0 <= m / 2 ^ Z.pos k)
    by (intros m k Hm; apply Z.div_pos; [exact Hm | apply Hpow]).
  induction p as [p IH|p IH|]; intros mrs Hm; simpl.
  - rewrite IH.
    2:{ rewrite IH; [apply Hnn|]; rewrite shr_1_m by exact Hm;
        apply Z.div_pos; lia. }
    rewrite IH by (rewrite shr_1_m by exact Hm; apply Z.div_pos; lia).
    rewrite shr_1_m by exact Hm.
    pose proof (Hpow p) as Hp.
    rewrite (Z.div_div _ 2) by lia.
    rewrite Z.div_div by first [lia | nia].
    f_equal.
    replace (Z.pos p~1) with (1 + Z.pos p + Z.pos p) by lia.
    rewrite !Z.pow_add_r, Z.pow_1_r by lia. ring.
  - rewrite IH by (rewrite IH by exact Hm; apply Hnn; exact Hm).
    rewrite IH by exact Hm.
    pose proof (Hpow p) as Hp.
    rewrite Z.div_div by lia.
    f_equal.
    replace (Z.pos p~0) with (Z.pos p + Z.pos p) by lia.
    rewrite Z.pow_add_r by lia. reflexivity.
  - rewrite shr_1_m by exact Hm. reflexivity.
Qed.

Lemma digits2_pos_le (p : positive) : 2 ^ (Z.pos (digits2_pos p) - 1) <= Z.pos p.
Proof.
  assert (Hstep : forall d : positive,
             2 ^ (Z.pos (Pos.succ d) - 1) = 2 * 2 ^ (Z.pos d - 1)).
  { intros d. rewrite Pos2Z.inj_succ.
    replace (Z.succ (Z.pos d) - 1) with (Z.succ (Z.pos d - 1)) by lia.
    apply Z.pow_succ_r. lia. }
  induction p as [p IH|p IH|]; simpl digits2_pos.
  - rewrite Hstep. lia.
  - rewrite Hstep. lia.
  - simpl. lia.
Qed.

(** Shifting a positive mantissa to its format exponent keeps it positive. *)
Lemma shr_fexp_positive (m : positive) (e : Z) (l : location) :
  emin JS.prec JS.emax <= e ->
  0 < shr_m (shr_fexp JS.prec JS.emax (Z.pos m) e l).1
  /\ emin JS.prec JS.emax <= (shr_fexp JS.prec JS.emax (Z.pos m) e l).2.
Proof.
  intros He. unfold shr_fexp, shr.
  assert (Hrec : shr_m (shr_record_of_loc (Z.pos m) l) = Z.pos m)
    by (destruct l as [|[]]; reflexivity).
  destruct (fexp JS.prec JS.emax (Zdigits2 (Z.pos m) + e) - e) as [|n|n] eqn:En;
    simpl; rewrite ?Hrec; try (split; [lia | exact He]).
  split; [|lia].
  rewrite iter_shr_1_m by (rewrite Hrec; lia). rewrite Hrec.
  apply Z.div_str_pos. split; [apply Z.pow_pos_nonneg; lia|].
  eapply Z.le_trans; [|apply digits2_pos_le].
  apply Z.pow_le_mono_r; [lia|].
  unfold fexp, emin, JS.prec, JS.emax in *. simpl Zdigits2 in En. lia.
Qed.

Lemma round_nearest_even_positive (m : Z) (l : location) :
  0 < m -> 0 < round_nearest_even m l.
Proof.
  intros Hm. destruct l as [|[]]; simpl; try lia.
  destruct (Z.even m); lia.
Qed.

Lemma binary_round_aux_positive (m : positive) (e : Z) :
  emin JS.prec JS.emax <= e ->
  match binary_round_aux JS.prec JS.emax false (Z.pos m) e loc_Exact with
  | S754_finite false _ _ | S754_infinity false => True
  | _ => False
  end.
Proof.
  intros He. unfold binary_round_aux.
  destruct (shr_fexp_positive m e loc_Exact He) as [Hm1 He1].
  destruct (shr_fexp JS.prec JS.emax (Z.pos m) e loc_Exact) as [mrs1 e1].
  simpl in Hm1, He1.
  pose proof (round_nearest_even_positive _ (loc_of_shr_record mrs1) Hm1) as Hr.
  destruct (round_nearest_even (shr_m mrs1) (loc_of_shr_record mrs1))
    as [|m2|m2]; try lia.
  destruct (shr_fexp_positive m2 e1 loc_Exact He1) as [Hm2 _].
  destruct (shr_fexp JS.prec JS.emax (Z.pos m2) e1 loc_Exact) as [mrs2 e2].
  simpl in Hm2.
  destruct (shr_m mrs2) as [|m3|m3]; try lia.
  destruct (e2 <=? JS.emax - JS.prec); exact I.
Qed.

(** A digit string that is not zero reads as a number above zero. *)
Lemma parseFloat_positive (a : JS.Amount) :
  JS.gt (JS.parseFloat a) (JS.of_Z 0) = (0 <? a)%N.
Proof.
  destruct a as [|p]; [reflexivity|].
  change (0 <? N.pos p)%N with true.
  unfold JS.parseFloat, JS.of_Z at 1, binary_normalize. simpl Z.of_N.
  unfold binary_round.
  destruct (shl_align p 0 (fexp JS.prec JS.emax (Z.pos (digits2_pos p) + 0)))
    as [mz ez] eqn:Eal.
  assert (Hez : emin JS.prec JS.emax <= ez).
  { unfold shl_align in Eal.
    destruct (fexp JS.prec JS.emax (Z.pos (digits2_pos p) + 0) - 0)
      as [|d|d] eqn:Ed; inversion Eal; subst; try (vm_compute; discriminate).
    unfold fexp, emin, JS.prec, JS.emax in *. lia. }
  pose proof (binary_round_aux_positive mz ez Hez) as H.
  destruct (binary_round_aux JS.prec JS.emax false (Z.pos mz) ez loc_Exact)
    as [[]|[]| |[] m e]; try contradiction; reflexivity.
Qed.

End ParseFloat.

(** ** Best quote and price difference *)

Lemma fold_pick_best_max (l : list QuoteEntry) (b0 : QuoteEntry) :
  let b := fold_left QuoteService.pick_best l b0 in
  (b = b0 \/ In b l)
  /\ (buyAmount (quote b0) <= buyAmount (quote b))%N
  /\ (forall q, In q l -> (buyAmount (quote q) <= buyAmount (quote b))%N).
Proof.
  revert b0. induction l as [|c l IH]; intros b0; simpl.
  - repeat split; [now left | lia | contradiction].
  - destruct (IH (QuoteService.pick_best b0 c)) as (Hin & Hge & Hall).
    unfold QuoteService.pick_best, JS.BigInt in Hin, Hge, Hall |- *.
    destruct (Z.of_N (buyAmount (quote c)) >? Z.of_N (buyAmount (quote b0)))
      eqn:E.
    + apply Z.gtb_lt in E. repeat split.
      * destruct Hin as [-> | Hin]; auto.
      * lia.
      * intros q [<- | Hq]; [exact Hge | apply Hall; exact Hq].
    + assert (Z.of_N (buyAmount (quote c)) <= Z.of_N (buyAmount (quote b0)))
        by (rewrite Z.gtb_ltb in E; apply Z.ltb_ge in E; exact E).
      repeat split.
      * destruct Hin as [-> | Hin]; auto.
      * exact Hge.
      * intros q [<- | Hq]; [lia | apply Hall; exact Hq].
Qed.

(** The selection of [QuoteService.getBestQuote] is the integer maximum. *)
Lemma QuoteService_bestOf_argmax (l : list QuoteEntry) :
  l <> [] ->
  exists b,
    QuoteService.bestOf l = Ok b /\ In b l
    /\ forall q, In q l -> (buyAmount (quote q) <= buyAmount (quote b))%N.
Proof.
  destruct l as [|b0 l]; [congruence|]. intros _.
  unfold QuoteService.bestOf, reduce. simpl length. simpl Nat.eqb. cbv iota.
  destruct (fold_pick_best_max l b0) as (Hin & Hge & Hall).
  eexists. split; [reflexivity|]. split.
  - destruct Hin as [-> | Hin]; [now left | now right].
  - intros q [<- | Hq]; [exact Hge | apply Hall; exact Hq].
Qed.

(** C1. With quotes of 2000000000000000000 from "0x" and of
    2000000000000000001 from "odos", both amounts read as the same number:
    [getBestQuote] and the [bestAggregator] of [compareQuotes] keep the
    first quote, which is not the integer maximum, while the selection of
    [QuoteService] on the same quotes is the larger one. *)
Theorem getBestQuote_float_tie :
  exists best other,
    getMultipleQuotes sampleParams (managerOf tiedAdapters) = Ok [best; other]
    /\ getBestQuote sampleParams (managerOf tiedAdapters) = Ok best
    /\ (exists c, compareQuotes sampleParams (managerOf tiedAdapters) = Ok c
                  /\ bestAggregator c = e_aggregator best)
    /\ e_aggregator best = ZEROX
    /\ e_aggregator other = ODOS
    /\ (buyAmount (quote best) < buyAmount (quote other))%N
    /\ QuoteService.bestOf [best; other] = Ok other.
Proof.
  eexists. eexists.
  split; [vm_compute; reflexivity|].
  split; [vm_compute; reflexivity|].
  split; [eexists; split; vm_compute; reflexivity|].
  repeat split; vm_compute; reflexivity.
Qed.

(** C5. With a single quote gathered, [compareQuotes] emits ["0.00%"], not
    ["0"]; with quotes of 2000000000000000000 and 2100000000000000000 it
    emits ["5.00%"].  [QuoteService.compareQuotes] emits ["0"] and ["5.00"]
    on the same quotes. *)
Theorem compareQuotes_single_quote :
  (exists c only,
      compareQuotes sampleParams
        (managerOf [healthyAdapter "0x" 2000000000000000000%N]) = Ok c
      /\ quotes c = [only]
      /\ priceDifference c = Some "0.00%"%string
      /\ option_map priceDifference
           (match QuoteService.compareOf [only] with
            | Ok c' => Some c' | Throw _ => None end)
         = Some (Some "0"%string))
  /\ (exists c,
        compareQuotes sampleParams
          (managerOf [healthyAdapter "0x" 2000000000000000000%N;
                      healthyAdapter "odos" 2100000000000000000%N]) = Ok c
        /\ bestAggregator c = ODOS
        /\ priceDifference c = Some "5.00%"%string
        /\ option_map priceDifference
             (match QuoteService.compareOf (quotes c) with
              | Ok c' => Some c' | Throw _ => None end)
           = Some (Some "5.00"%string)).
Proof.
  split.
  - eexists. eexists. split; [vm_compute; reflexivity|].
    repeat split; vm_compute; reflexivity.
  - eexists. split; [vm_compute; reflexivity|].
    repeat split; vm_compute; reflexivity.
Qed.

(** ** Chain compatibility *)

Lemma anyProviderSupports_existsb chain registry :
  anyProviderSupports chain registry
  = existsb (fun p => match p with Some f => f chain | None => false end)
      registry.
Proof.
  induction registry as [|[f|] rest IH]; simpl; auto.
  destruct (f chain); auto.
Qed.

(** What [validateChainCompatibility] computes: the supported-quote cache
    plays no part in it. *)
Lemma validateChainCompatibility_spec StringToNumber svc request :
  validateChainCompatibility StringToNumber svc request = true
  <-> isSupportedEcosystem (ecosystem (chain (u_sellToken request))) = true
      /\ isSupportedEcosystem (ecosystem (chain (u_buyToken request))) = true
      /\ forall c,
           c = chain (u_sellToken request) \/ c = chain (u_buyToken request) ->
           chain_truthy (ci_chainId c) = true
           /\ (providerRegistry svc = []
               \/ exists supports,
                    In (Some supports) (providerRegistry svc)
                    /\ supports (Number_ StringToNumber (ci_chainId c)) = true).
Proof.
  assert (Hchain : forall c,
    isChainSupported StringToNumber svc c = true
    <-> chain_truthy (ci_chainId c) = true
        /\ (providerRegistry svc = []
            \/ exists supports,
                 In (Some supports) (providerRegistry svc)
                 /\ supports (Number_ StringToNumber (ci_chainId c)) = true)).
  { intros c. unfold isChainSupported.
    rewrite anyProviderSupports_existsb.
    destruct (chain_truthy (ci_chainId c)); simpl negb; cbv iota.
    2:{ split; [discriminate | intros [H _]; discriminate]. }
    destruct (providerRegistry svc) as [|p rest] eqn:Ereg.
    - split; auto.
    - change (0 <? length (p :: rest))%nat with true. cbv iota.
      rewrite existsb_exists. split.
      + intros ([f|] & Hin & Hf); [|discriminate].
        split; [reflexivity|]. right. exists f. auto.
      + intros [_ [Hnil | (f & Hin & Hf)]]; [discriminate|].
        exists (Some f). auto. }
  unfold validateChainCompatibility.
  destruct (isSupportedEcosystem (ecosystem (chain (u_sellToken request))));
    simpl; [|split; [discriminate | intros [H _]; discriminate]].
  destruct (isSupportedEcosystem (ecosystem (chain (u_buyToken request))));
    simpl; [|split; [discriminate | intros [_ [H _]]; discriminate]].
  rewrite andb_true_iff, !Hchain. split.
  - intros [Hs Hb]. split; [reflexivity|]. split; [reflexivity|].
    intros c0 [-> | ->]; assumption.
  - intros (_ & _ & H). split; apply H; auto.
Qed.

Lemma validateChainCompatibility_ignores_cache StringToNumber svc request
    c buyTok sellTok :
  validateChainCompatibility StringToNumber
    (cacheSupportedQuote c buyTok sellTok svc) request
  = validateChainCompatibility StringToNumber svc request.
Proof. reflexivity. Qed.

(** C3. With a registry whose only adapter rejects chain 137 and a
    supported-quote cache that holds an entry for chain 137, a request on
    chain 137 between supported ecosystems is rejected; with an empty
    registry the same request is accepted. *)
Theorem validateChainCompatibility_skips_cache :
  validateChainCompatibility StringToNumber_none routingWithCachedPolygon
    (sampleRequest (CNum 137)) = false
  /\ isSupportedEcosystem EVM = true
  /\ is_Some (swapCacheService routingWithCachedPolygon !! CNum 137)
  /\ cache_isChainSupported (CNum 137) sampleToken
       (swapCacheService routingWithCachedPolygon) = true
  /\ validateChainCompatibility StringToNumber_none emptyRouting
       (sampleRequest (CNum 137)) = true.
Proof.
  split; [reflexivity|]. split; [reflexivity|].
  unfold routingWithCachedPolygon, cacheSupportedQuote, cache_isChainSupported,
    addSupportedQuote. cbn [swapCacheService].
  rewrite lookup_insert_eq.
  split; [eexists; reflexivity|].
  split; [|reflexivity].
  cbn [fst snd]. apply orb_true_iff. right.
  apply bool_decide_eq_true_2. set_solver.
Qed.

(** ** The universal pre-check *)

Section PreCheck.
Variable StringToNumber : string -> option Z.
Variable isAddress : string -> bool.
Variable wallet : WalletService.
Variable now : Z.
Variable request : UniversalSwapRequestDto.

Lemma warnings_warn w n : warnings (warn w n) = warnings n ++ [w].
Proof. reflexivity. Qed.

Lemma warnings_detail k d n : warnings (detail k d n) = warnings n.
Proof. reflexivity. Qed.

(** A probe's outcome does not depend on the accumulators it is given, and
    it only appends to the warnings. *)
Ltac in_warnings := rewrite ?in_app_iff; simpl; intuition auto.

Ltac notes_cases := cbn; rewrite ?app_nil_r; repeat split; reflexivity.

Lemma parametersProbe_notes sv n :
  (parametersProbe StringToNumber request sv n).1
  = (parametersProbe StringToNumber request sv noNotes).1
  /\ warnings (parametersProbe StringToNumber request sv n).2
     = warnings n
       ++ warnings (parametersProbe StringToNumber request sv noNotes).2.
Proof.
  unfold parametersProbe.
  destruct (validateChainCompatibility _ _ _); notes_cases.
Qed.

Lemma liquidityProbe_notes sv n :
  (liquidityProbe request sv n).1.1 = (liquidityProbe request sv noNotes).1.1
  /\ warnings (liquidityProbe request sv n).1.2
     = warnings n ++ warnings (liquidityProbe request sv noNotes).1.2
  /\ aggregatorManager (liquidityProbe request sv n).2 = aggregatorManager sv.
Proof.
  unfold liquidityProbe, liquidityBody, JS.bind.
  destruct (determineSwapType request); [|notes_cases].
  destruct (determineProviderCategory _ request); [|notes_cases].
  destruct (bool_decide _); [|notes_cases].
  destruct (convertToLegacyParams request); [|notes_cases].
  destruct (getMultipleQuotes _ _); [|notes_cases].
  destruct (firstQuoteLiquid _); notes_cases.
Qed.

Lemma approvalProbe_notes sv n :
  (approvalProbe StringToNumber isAddress wallet request sv n).1
  = (approvalProbe StringToNumber isAddress wallet request sv noNotes).1
  /\ warnings (approvalProbe StringToNumber isAddress wallet request sv n).2
     = warnings n
       ++ warnings
            (approvalProbe StringToNumber isAddress wallet request sv noNotes).2.
Proof.
  unfold approvalProbe, approvalBody, JS.bind.
  destruct (bool_decide _); [|notes_cases].
  destruct (String.eqb _ nativeEthAddress); [notes_cases|].
  destruct (getSpenderForSwap request _); [|notes_cases].
  destruct (negb _); [notes_cases|].
  destruct (getApprovalStatus _ _ _ _ _ _ _); [|notes_cases].
  destruct (isApprovalNeeded _); notes_cases.
Qed.

Lemma approvalProbe_manager sv sv' n :
  aggregatorManager sv' = aggregatorManager sv ->
  approvalProbe StringToNumber isAddress wallet request sv' n
  = approvalProbe StringToNumber isAddress wallet request sv n.
Proof. intros H. unfold approvalProbe, approvalBody. now rewrite H. Qed.

Lemma balanceProbe_notes n :
  (balanceProbe StringToNumber wallet request n).1
  = (balanceProbe StringToNumber wallet request noNotes).1
  /\ warnings (balanceProbe StringToNumber wallet request n).2
     = warnings n
       ++ warnings (balanceProbe StringToNumber wallet request noNotes).2.
Proof.
  unfold balanceProbe, balanceBody, JS.bind.
  destruct (bool_decide _); [|notes_cases].
  destruct (getBalance _ _ _ _); [|notes_cases].
  destruct (negb _); notes_cases.
Qed.

Lemma healthProbe_notes sv n :
  (healthProbe now request sv n).1.1 = (healthProbe now request sv noNotes).1.1
  /\ warnings (healthProbe now request sv n).1.2
     = warnings n ++ warnings (healthProbe now request sv noNotes).1.2.
Proof.
  unfold healthProbe.
  destruct (bool_decide _); [|notes_cases].
  destruct (getProvidersHealth now (aggregatorManager sv)) as [hs m].
  destruct (forallb _ _); notes_cases.
Qed.

Lemma healthProbe_manager sv sv' n :
  aggregatorManager sv' = aggregatorManager sv ->
  (healthProbe now request sv' n).1 = (healthProbe now request sv n).1.
Proof.
  intros H. unfold healthProbe. rewrite H.
  destruct (bool_decide _); [|reflexivity].
  destruct (getProvidersHealth now (aggregatorManager sv)) as [hs m].
  reflexivity.
Qed.

(** The pre-check is the five probes, each as if run alone on the services
    it starts from; the warnings are theirs, in order. *)
Lemma universalPreCheck_fields sv :
  let r := (universalPreCheck StringToNumber isAddress wallet now request sv).1 in
  parametersValid r = (parametersProbe StringToNumber request sv noNotes).1
  /\ liquidityAvailable r = (liquidityProbe request sv noNotes).1.1
  /\ approvalRequired r
     = (approvalProbe StringToNumber isAddress wallet request sv noNotes).1
  /\ sufficientBalance r
     = (balanceProbe StringToNumber wallet request noNotes).1
  /\ providerHealthy r = (healthProbe now request sv noNotes).1.1
  /\ pc_warnings r
     = warnings (parametersProbe StringToNumber request sv noNotes).2
       ++ warnings (liquidityProbe request sv noNotes).1.2
       ++ warnings
            (approvalProbe StringToNumber isAddress wallet request sv noNotes).2
       ++ warnings (balanceProbe StringToNumber wallet request noNotes).2
       ++ warnings (healthProbe now request sv noNotes).1.2.
Proof.
  unfold universalPreCheck. fold noNotes.
  destruct (parametersProbe StringToNumber request sv noNotes)
    as [o1 n1] eqn:E1.
  pose proof (liquidityProbe_notes sv n1) as H2.
  destruct (liquidityProbe request sv n1) as [[o2 n2] sv2] eqn:E2.
  simpl in H2. destruct H2 as (-> & Hw2 & Hm2).
  rewrite (approvalProbe_manager sv sv2 n2 Hm2).
  pose proof (approvalProbe_notes sv n2) as H3.
  destruct (approvalProbe StringToNumber isAddress wallet request sv n2)
    as [o3 n3] eqn:E3.
  simpl in H3. destruct H3 as (-> & Hw3).
  pose proof (balanceProbe_notes n3) as H4.
  destruct (balanceProbe StringToNumber wallet request n3) as [o4 n4] eqn:E4.
  simpl in H4. destruct H4 as (-> & Hw4).
  pose proof (healthProbe_manager sv sv2 n4 Hm2) as H5m.
  pose proof (healthProbe_notes sv n4) as H5.
  destruct (healthProbe now request sv2 n4) as [[o5 n5] sv5] eqn:E5.
  simpl in H5m. rewrite <- H5m in H5. simpl in H5. destruct H5 as (-> & Hw5).
  simpl. repeat split.
  rewrite Hw5, Hw4, Hw3, Hw2. now rewrite <- !app_assoc.
Qed.

Lemma liquidityProbe_boolean sv n :
  is_Some (liquidityProbe request sv n).1.1.
Proof.
  unfold liquidityProbe.
  destruct (match liquidityBody request sv n with Ok r => r | Throw _ => _ end)
    as [[b n'] sv'].
  eexists. reflexivity.
Qed.

Lemma balanceProbe_boolean n :
  is_Some (balanceProbe StringToNumber wallet request n).1.
Proof.
  unfold balanceProbe.
  destruct (match balanceBody StringToNumber wallet request n with
            | Ok r => r | Throw _ => _ end) as [b n'].
  eexists. reflexivity.
Qed.

Lemma healthProbe_boolean sv n : is_Some (healthProbe now request sv n).1.1.
Proof.
  unfold healthProbe.
  destruct (bool_decide _).
  - destruct (getProvidersHealth now (aggregatorManager sv)) as [hs m].
    eexists. reflexivity.
  - eexists. reflexivity.
Qed.

(** C9. [universalPreCheck] always returns, and its five outcomes are those
    of the five probes, each as if it had run alone: no probe depends on
    what another one found or on whether it threw, and the warnings are
    those of the five probes in order.  Four outcomes are always booleans.
    A probe whose body throws records [false] and a warning that carries the
    message.  When the approval probe gets no spender for an EVM token that
    is not native ETH, it records [null] and a warning. *)
Theorem universalPreCheck_no_short_circuit (sv : Services) :
  let r := (universalPreCheck StringToNumber isAddress wallet now request sv).1 in
  (parametersValid r = (parametersProbe StringToNumber request sv noNotes).1
   /\ liquidityAvailable r = (liquidityProbe request sv noNotes).1.1
   /\ approvalRequired r
      = (approvalProbe StringToNumber isAddress wallet request sv noNotes).1
   /\ sufficientBalance r
      = (balanceProbe StringToNumber wallet request noNotes).1
   /\ providerHealthy r = (healthProbe now request sv noNotes).1.1
   /\ pc_warnings r
      = warnings (parametersProbe StringToNumber request sv noNotes).2
        ++ warnings (liquidityProbe request sv noNotes).1.2
        ++ warnings
             (approvalProbe StringToNumber isAddress wallet request sv noNotes).2
        ++ warnings (balanceProbe StringToNumber wallet request noNotes).2
        ++ warnings (healthProbe now request sv noNotes).1.2)
  /\ (is_Some (parametersValid r) /\ is_Some (liquidityAvailable r)
      /\ is_Some (sufficientBalance r) /\ is_Some (providerHealthy r))
  /\ (forall m, liquidityBody request sv noNotes = Throw m ->
        liquidityAvailable r = Some false
        /\ In ("Liquidity check failed: " ++ m)%string (pc_warnings r))
  /\ (forall m,
        approvalBody StringToNumber isAddress wallet request sv noNotes
        = Throw m ->
        approvalRequired r = Some false
        /\ In ("Approval check failed: " ++ m)%string (pc_warnings r))
  /\ (forall m, balanceBody StringToNumber wallet request noNotes = Throw m ->
        sufficientBalance r = Some false
        /\ In ("Wallet balance check failed: " ++ m)%string (pc_warnings r))
  /\ (ecosystem (chain (u_sellToken request)) = EVM ->
      String.eqb (JS.toLowerCase (address (u_sellToken request)))
        nativeEthAddress = false ->
      getSpenderForSwap request (aggregatorManager sv) = Ok ""%string ->
      approvalRequired r = None
      /\ In "Approval check skipped: unable to determine spender address"%string
           (pc_warnings r)).
Proof.
  intros r. pose proof (universalPreCheck_fields sv) as Hf.
  fold r in Hf. destruct Hf as (H1 & H2 & H3 & H4 & H5 & Hw).
  split; [repeat split; assumption|].
  split.
  { rewrite H1, H2, H4, H5.
    split; [eexists; reflexivity|].
    split; [apply liquidityProbe_boolean|].
    split; [apply balanceProbe_boolean | apply healthProbe_boolean]. }
  split; [|split; [|split]].
  - intros m Hm. rewrite H2, Hw. unfold liquidityProbe. rewrite Hm. simpl.
    split; [reflexivity|]. in_warnings.
  - intros m Hm. rewrite H3, Hw. unfold approvalProbe. rewrite Hm. simpl.
    split; [reflexivity|]. in_warnings.
  - intros m Hm. rewrite H4, Hw. unfold balanceProbe. rewrite Hm. simpl.
    split; [reflexivity|]. in_warnings.
  - intros Heco Hnative Hsp. rewrite H3, Hw.
    unfold approvalProbe, approvalBody.
    rewrite Heco, Hnative, Hsp. simpl.
    split; [reflexivity|]. in_warnings.
Qed.

End PreCheck.

Lemma universalPreCheck_no_short_circuit_witness :
  approvalRequired (samplePreCheck servicesWithoutAdapters) = None
  /\ In "Approval check skipped: unable to determine spender address"%string
       (pc_warnings (samplePreCheck servicesWithoutAdapters)).
Proof.
  apply (universalPreCheck_no_short_circuit StringToNumber_none isAddress_shape
           (sampleWallet 0%N 5000000000000000000%N) 0 (sampleRequest (CNum 1))
           servicesWithoutAdapters); reflexivity.
Defined.

(** ** Liquidity *)

Lemma firstQuoteLiquid_spec (gathered : list QuoteEntry) :
  firstQuoteLiquid gathered = true
  <-> exists first rest,
        gathered = first :: rest /\ (0 < buyAmount (quote first))%N.
Proof.
  unfold firstQuoteLiquid. destruct gathered as [|first rest]; simpl.
  - split; [discriminate | intros (f & r & H & _); discriminate].
  - rewrite parseFloat_positive, N.ltb_lt. split.
    + intros H. exists first, rest. auto.
    + intros (f & r & H & Hpos). inversion H; subst. exact Hpos.
Qed.

(** A request that converts to legacy parameters is an on-chain EVM request
    and is routed to the EVM aggregators. *)
Lemma convertToLegacyParams_on_chain request lp :
  convertToLegacyParams request = Ok lp ->
  determineSwapType request = Ok ON_CHAIN
  /\ determineProviderCategory ON_CHAIN request = Ok evm_aggregators.
Proof.
  unfold convertToLegacyParams.
  destruct (bool_decide (ecosystem (chain (u_sellToken request)) = EVM))
    eqn:Es; simpl; [|discriminate].
  destruct (bool_decide (ecosystem (chain (u_buyToken request)) = EVM))
    eqn:Eb; simpl; [|discriminate].
  destruct (strict_eq _ _) eqn:Eid; simpl; [|discriminate].
  intros _. apply bool_decide_eq_true_1 in Es, Eb. split.
  - rewrite determineSwapType_closed. unfold autoDetect.
    rewrite Es, Eb, Eid. simpl.
    destruct (swapType request) as [provided|]; [|reflexivity].
    destruct (bool_decide (ON_CHAIN = provided)) eqn:E; [|reflexivity].
    apply bool_decide_eq_true_1 in E. now subst.
  - unfold determineProviderCategory, getOnChainProviderCategory.
    now rewrite Es.
Qed.

Section Liquidity.
Variable StringToNumber : string -> option Z.
Variable isAddress : string -> bool.
Variable wallet : WalletService.
Variable now : Z.

(** C4 (amended). For a request that the pre-check sends to the EVM fan-out,
    [liquidityAvailable] is a boolean, and it is [true] exactly when the
    fan-out returns at least one quote and the first quote of the returned
    list has a [buyAmount] above zero. *)
Theorem liquidity_first_quote (request : UniversalSwapRequestDto)
    (sv : Services) (lp : LegacyParams) :
  convertToLegacyParams request = Ok lp ->
  let r := (universalPreCheck StringToNumber isAddress wallet now request sv).1 in
  (liquidityAvailable r = Some true
   <-> exists first rest,
         getMultipleQuotes lp (aggregatorManager sv) = Ok (first :: rest)
         /\ (0 < buyAmount (quote first))%N)
  /\ (liquidityAvailable r = Some true \/ liquidityAvailable r = Some false).
Proof.
  intros Hlp r.
  destruct (universalPreCheck_fields StringToNumber isAddress wallet now request
              sv) as (_ & H2 & _).
  fold r in H2. rewrite H2. clear H2 r.
  destruct (convertToLegacyParams_on_chain request lp Hlp) as [Ht Hc].
  unfold liquidityProbe, liquidityBody. rewrite Ht. cbn [JS.bind].
  rewrite Hc. cbn [JS.bind]. rewrite bool_decide_eq_true_2 by reflexivity.
  rewrite Hlp. cbn [JS.bind].
  destruct (getMultipleQuotes lp (aggregatorManager sv)) as [gathered|m];
    cbn [JS.bind].
  - pose proof (firstQuoteLiquid_spec gathered) as Hspec.
    destruct (firstQuoteLiquid gathered); simpl; split; auto.
    + split; [intros _|reflexivity].
      destruct Hspec as [Hspec _]. destruct (Hspec eq_refl) as (f & rs & -> & Hp).
      exists f, rs. auto.
    + split; [discriminate|].
      intros (f & rs & Heq & Hp). inversion Heq; subst.
      destruct Hspec as [_ Hspec]. discriminate Hspec. exists f, rs. auto.
  - simpl. split; auto. split; [discriminate|].
    intros (f & rs & Heq & _). discriminate.
Qed.

End Liquidity.

Lemma liquidity_first_quote_witness :
  let r := samplePreCheck servicesWithEmptyFirstQuote in
  (liquidityAvailable r = Some true
   <-> exists first rest,
         getMultipleQuotes sampleParams
           (aggregatorManager servicesWithEmptyFirstQuote)
         = Ok (first :: rest)
         /\ (0 < buyAmount (quote first))%N)
  /\ (liquidityAvailable r = Some true \/ liquidityAvailable r = Some false).
Proof.
  apply (liquidity_first_quote StringToNumber_none isAddress_shape
           (sampleWallet 0%N 5000000000000000000%N) 0 (sampleRequest (CNum 1))
           servicesWithEmptyFirstQuote sampleParams).
  reflexivity.
Defined.

(** C4, as stated, fails: the fan-out returns a quote of 0 from "0x" and a
    quote of 100 from "odos", and the pre-check reports no liquidity. *)
Lemma liquidity_some_quote_counterexample :
  exists gathered,
    getMultipleQuotes sampleParams
      (aggregatorManager servicesWithEmptyFirstQuote) = Ok gathered
    /\ liquidityAvailable (samplePreCheck servicesWithEmptyFirstQuote)
       = Some false
    /\ ~ liquid_iff_some_quote (samplePreCheck servicesWithEmptyFirstQuote)
           gathered.
Proof.
  eexists. split; [vm_compute; reflexivity|].
  split; [vm_compute; reflexivity|].
  intros [_ H].
  assert (Hliq : liquidityAvailable (samplePreCheck servicesWithEmptyFirstQuote)
                 = Some false) by (vm_compute; reflexivity).
  rewrite Hliq in H. discriminate H.
  eexists. split; [right; left; reflexivity|]. vm_compute. reflexivity.
Qed.

(** ** The provider score *)

Lemma Math_max_zero_not_below (x : JS.number) :
  JS.lt (JS.Math_max (JS.of_Z 0) x) (JS.of_Z 0) = false.
Proof.
  replace (JS.of_Z 0) with (S754_zero false) by (vm_compute; reflexivity).
  unfold JS.Math_max, JS.lt.
  destruct x as [s|s| |s m e]; try destruct s; reflexivity.
Qed.

(** C7 (amended). With the health [h] that [getProviderHealth] returns for
    the provider, and a latency that is absent or neither zero nor NaN, the
    score is [scoreFormula]: from 150 plus the latency bonus minus the
    error-rate penalty when [h] is healthy and from 0 otherwise (no latency
    bonus and no error-rate penalty then), plus the bonuses of [nudges],
    never below zero.  For a provider that is not healthy it is exactly the
    sum of the bonuses. *)
Theorem provider_score_formula (now : Z) (provider : OnchainAggregator)
    (request : SwapRequest) (st : Manager) :
  let h := (getProviderHealth now (as_IProvider provider) st).1 in
  match latency h with
  | Some l => JS.truthy l = true
  | None => True
  end ->
  let score := (calculateProviderScore now provider request st).1 in
  score = scoreFormula h (getProviderName provider) request
  /\ (status h <> healthy ->
      score
      = JS.of_Z (fold_right Z.add 0 (nudges (getProviderName provider) request)))
  /\ JS.lt score (JS.of_Z 0) = false.
Proof.
  intros h Hlat score. subst score h.
  unfold calculateProviderScore.
  destruct (getProviderHealth now (as_IProvider provider) st) as [h st'].
  cbn [fst] in *.
  unfold scoreFormula, healthPart, nudges.
  set (is0x := String.eqb (JS.toLowerCase (getProviderName provider)) "0x").
  set (isOdos := String.eqb (JS.toLowerCase (getProviderName provider)) "odos").
  set (big := JS.gt (JS.parseFloat (sellAmount request)) (JS.of_Z (10 ^ 21))).
  set (c1 := strict_eq (chainId request) (CNum 1)).
  set (c137 := strict_eq (chainId request) (CNum 137)).
  set (p2 := bool_decide (approvalStrategy request = Some PERMIT2)).
  destruct (bool_decide (status h = healthy)) eqn:Eh.
  - split.
    + replace (JS.add (JS.of_Z 100) (JS.of_Z 50)) with (JS.of_Z 150)
        by (vm_compute; reflexivity).
      (destruct (latency h) as [l|]; [rewrite Hlat|];
        destruct (errorRate h); destruct c1, c137, is0x, isOdos, big, p2;
        cbn [app fold_left andb]; reflexivity).
    + split; [|apply Math_max_zero_not_below].
      intros Hneq. apply bool_decide_eq_true_1 in Eh. contradiction.
  - replace (JS.sub (JS.of_Z 100) (JS.of_Z 100)) with (JS.of_Z 0)
      by (vm_compute; reflexivity).
    (split; [|split; [intros _|apply Math_max_zero_not_below]];
      destruct c1, c137, is0x, isOdos, big, p2; vm_compute; reflexivity).
Qed.

Lemma provider_score_formula_witness :
  let request := sampleSwapRequest 1 1000000000000000000%N (Some PERMIT2) in
  let h := (getProviderHealth 0 (as_IProvider fastZeroX) new_Manager).1 in
  let score := (calculateProviderScore 0 fastZeroX request new_Manager).1 in
  score = scoreFormula h (getProviderName fastZeroX) request
  /\ (status h <> healthy ->
      score
      = JS.of_Z (fold_right Z.add 0 (nudges (getProviderName fastZeroX) request)))
  /\ JS.lt score (JS.of_Z 0) = false.
Proof.
  apply (provider_score_formula 0 fastZeroX
           (sampleSwapRequest 1 1000000000000000000%N (Some PERMIT2))
           new_Manager).
  vm_compute. reflexivity.
Defined.

(** C7, as stated, fails.  For "0x" on chain 1 when its health probe throws
    (unhealthy, error rate 1) the code scores 20, where the stated sum is
    100 - 100 - 100 + 20, clamped to 0.  For a healthy "0x" on chain 5 with
    sellAmount 10^21 + 1 the code scores 150, where the stated sum is 160. *)
Lemma provider_score_counterexample :
  (let request := sampleSwapRequest 1 1000000000000000000%N None in
   let h := (getProviderHealth 0 (as_IProvider zeroXAdapter) new_Manager).1 in
   status h = unhealthy
   /\ errorRate h = Some (JS.of_Z 1)
   /\ (calculateProviderScore 0 zeroXAdapter request new_Manager).1 = JS.of_Z 20
   /\ claimedScore h "0x" request = JS.of_Z 0
   /\ (calculateProviderScore 0 zeroXAdapter request new_Manager).1
      <> claimedScore h "0x" request)
  /\ (let request :=
        sampleSwapRequest 5 1000000000000000000001%N None in
      let provider := healthyAdapter "0x" 1%N in
      let h := (getProviderHealth 0 (as_IProvider provider) new_Manager).1 in
      (10 ^ 21 < JS.BigInt (sellAmount request))
      /\ (calculateProviderScore 0 provider request new_Manager).1 = JS.of_Z 150
      /\ claimedScore h "0x" request = JS.of_Z 160
      /\ (calculateProviderScore 0 provider request new_Manager).1
         <> claimedScore h "0x" request).
Proof.
  split.
  - cbv zeta.
    repeat split; try (vm_compute; reflexivity).
    vm_compute. discriminate.
  - cbv zeta.
    repeat split; try (vm_compute; reflexivity).
    vm_compute. discriminate.
Qed.
(** * Further properties of the code *)

(** ** The supported-quote cache *)

Lemma elem_of_singleton_union (a b : string) (s : gset string) :
  a ∈ ({[ b ]} ∪ s : gset string) <-> a = b \/ a ∈ s.
Proof. set_solver. Qed.

(** X1.  After [addSupportedQuote(c', buy, sell)] a token is reported as
    supported on a chain exactly when it was before, or the chain is [c']
    and the token is [buy] or [sell] up to the case of its letters; after
    [clearCache] nothing is supported. *)
Theorem cache_supported_after_add (c c' : chain_id) (buyTok sellTok t : string)
    (cache : SwapCache) :
  (cache_isChainSupported c t (addSupportedQuote c' buyTok sellTok cache) = true
   <-> cache_isChainSupported c t cache = true
       \/ (c = c'
           /\ (JS.toLowerCase t = JS.toLowerCase buyTok
               \/ JS.toLowerCase t = JS.toLowerCase sellTok)))
  /\ cache_isChainSupported c t
       (clearCache (addSupportedQuote c' buyTok sellTok cache)) = false.
Proof.
  split.
  - unfold cache_isChainSupported, addSupportedQuote.
    destruct (decide (c = c')) as [->|Hne].
    + rewrite lookup_insert_eq. cbn [fst snd].
      rewrite orb_true_iff, !bool_decide_eq_true, !elem_of_singleton_union.
      destruct (cache !! c') as [entry|] eqn:E; cbn [default fst snd].
      * rewrite orb_true_iff, !bool_decide_eq_true. tauto.
      * split.
        -- intros [[H|H]|[H|H]]; try (right; split; [reflexivity|tauto]);
             set_solver.
        -- intros [H|[_ [H|H]]]; [discriminate| |]; tauto.
    + rewrite lookup_insert_ne by congruence.
      split; [tauto|]. intros [H|[H _]]; [exact H|congruence].
  - unfold cache_isChainSupported, clearCache. rewrite lookup_empty. reflexivity.
Qed.

(** ** The provider registry *)

Section MapLemmas.
Context {K V : Type} `{EqDecision K}.

Lemma Map_has_get (k : K) (m : list (K * V)) :
  Map_has k m = true <-> is_Some (Map_get k m).
Proof.
  unfold Map_has, Map_get. induction m as [|kv m IH]; cbn.
  - split; [discriminate|]. intros [x H]. discriminate.
  - destruct (bool_decide (kv.1 = k)); cbn; [|exact IH].
    split; [eauto|reflexivity].
Qed.

Lemma Map_get_has_false (k : K) (m : list (K * V)) :
  Map_has k m = false -> Map_get k m = None.
Proof.
  intros H. destruct (Map_get k m) eqn:E; [|reflexivity].
  assert (Map_has k m = true) by (apply Map_has_get; rewrite E; eauto).
  congruence.
Qed.

Lemma Map_get_set_eq (k : K) (v : V) (m : list (K * V)) :
  Map_get k (Map_set k v m) = Some v.
Proof.
  unfold Map_get. induction m as [|kv m IH]; cbn.
  - rewrite bool_decide_eq_true_2 by reflexivity. reflexivity.
  - destruct (bool_decide (kv.1 = k)) eqn:E; cbn.
    + rewrite bool_decide_eq_true_2 by reflexivity. reflexivity.
    + rewrite E. exact IH.
Qed.

Lemma Map_get_set_ne (k k' : K) (v : V) (m : list (K * V)) :
  k <> k' -> Map_get k (Map_set k' v m) = Map_get k m.
Proof.
  intros Hne. unfold Map_get. induction m as [|kv m IH]; cbn.
  - rewrite bool_decide_eq_false_2 by congruence. reflexivity.
  - destruct (bool_decide (kv.1 = k')) eqn:E; cbn.
    + apply bool_decide_eq_true in E.
      rewrite !bool_decide_eq_false_2 by congruence. reflexivity.
    + destruct (bool_decide (kv.1 = k)); [reflexivity|exact IH].
Qed.

Lemma Map_set_new (k : K) (v : V) (m : list (K * V)) :
  Map_has k m = false -> Map_set k v m = m ++ [(k, v)].
Proof.
  unfold Map_has. induction m as [|kv m IH]; cbn; [reflexivity|].
  destruct (bool_decide (kv.1 = k)); cbn; [discriminate|].
  intros H. rewrite IH by exact H. reflexivity.
Qed.

Lemma Map_has_In (k : K) (m : list (K * V)) :
  Map_has k m = true <-> In k (map fst m).
Proof.
  unfold Map_has. rewrite existsb_exists, in_map_iff.
  split.
  - intros [kv [H1 H2]]. exists kv. apply bool_decide_eq_true in H2. tauto.
  - intros [kv [H1 H2]]. exists kv. rewrite bool_decide_eq_true. tauto.
Qed.

Lemma Map_set_keys_NoDup (k : K) (v : V) (m : list (K * V)) :
  List.NoDup (map fst m) -> List.NoDup (map fst (Map_set k v m)).
Proof.
  induction m as [|kv m IH]; cbn; intros H.
  - constructor; [intros []|constructor].
  - inversion H as [|? ? Hnot Hrest]; subst.
    destruct (bool_decide (kv.1 = k)) eqn:E; cbn.
    + apply bool_decide_eq_true in E. rewrite <- E. exact H.
    + apply bool_decide_eq_false in E. constructor; [|auto].
      intros Hin. apply Hnot.
      apply in_map_iff in Hin as [kv' [Hk Hin]].
      clear IH H Hrest Hnot.
      induction m as [|kv2 m IHm]; cbn in Hin.
      * destruct Hin as [<-|[]]. cbn in Hk. congruence.
      * destruct (bool_decide (kv2.1 = k)) eqn:E2; cbn in Hin.
        -- destruct Hin as [<-|Hin]; [cbn in Hk; congruence|].
           right. apply in_map_iff. eauto.
        -- destruct Hin as [<-|Hin]; [left; exact Hk|right; auto].
Qed.

Lemma Map_set_In (k : K) (v : V) (m : list (K * V)) (kv : K * V) :
  In kv (Map_set k v m) -> kv = (k, v) \/ In kv m.
Proof.
  induction m as [|kv2 m IH]; cbn.
  - intros [<-|[]]. auto.
  - destruct (bool_decide (kv2.1 = k)); cbn.
    + intros [<-|H]; auto.
    + intros [<-|H]; auto. destruct (IH H); auto.
Qed.

End MapLemmas.

Lemma registerProvider_maps p st :
  evmAggregators (registerProvider p st)
  = match p with
    | AnEvmAggregator a =>
        if Map_has (getProviderName a) (evmAggregators st)
        then evmAggregators st
        else Map_set (getProviderName a) a (evmAggregators st)
    | _ => evmAggregators st
    end
  /\ metaAggregators (registerProvider p st)
     = match p with
       | AMetaAggregator a =>
           if Map_has (p_name a) (metaAggregators st)
           then metaAggregators st
           else Map_set (p_name a) a (metaAggregators st)
       | _ => metaAggregators st
       end
  /\ solanaRouters (registerProvider p st)
     = match p with
       | ASolanaRouter a =>
           if Map_has (p_name a) (solanaRouters st)
           then solanaRouters st
           else Map_set (p_name a) a (solanaRouters st)
       | _ => solanaRouters st
       end
  /\ nativeRouters (registerProvider p st)
     = match p with
       | ANativeRouter a =>
           if Map_has (p_name a) (nativeRouters st)
           then nativeRouters st
           else Map_set (p_name a) a (nativeRouters st)
       | _ => nativeRouters st
       end.
Proof.
  destruct p as [a|a|a|a]; cbn;
    unfold registerEvmAggregator, registerMetaAggregator, registerSolanaRouter,
      registerNativeRouter, registerInLegacyMap;
    repeat match goal with |- context [if ?b then _ else _] => destruct b end;
    cbn; auto.
Qed.

Lemma registerProvider_aggregators p st :
  aggregators (registerProvider p st)
  = match p with
    | AnEvmAggregator a =>
        if Map_has (getProviderName a) (evmAggregators st)
        then aggregators st
        else match mapProviderNameToAggregatorType (getProviderName a) with
             | Some t => Map_set t a (aggregators st)
             | None => aggregators st
             end
    | _ => aggregators st
    end.
Proof.
  destruct p as [a|a|a|a]; cbn;
    unfold registerEvmAggregator, registerMetaAggregator, registerSolanaRouter,
      registerNativeRouter, registerInLegacyMap, mapProviderNameToAggregatorType;
    repeat match goal with |- context [if ?b then _ else _] => destruct b end;
    cbn; auto.
Qed.

Lemma registered_as_registerProvider c n q p st :
  registered_as c n st = Some q ->
  registered_as c n (registerProvider p st) = Some q.
Proof.
  intros H. unfold registered_as in *.
  destruct (registerProvider_maps p st) as (He & Hm & Hs & Hn).
  rewrite He, Hm, Hs, Hn. clear He Hm Hs Hn.
  destruct c, p as [a|a|a|a]; try exact H;
    match goal with
    | |- context [Map_has ?k ?m] => destruct (Map_has k m) eqn:Ehas
    end; try exact H;
    match goal with
    | |- context [Map_set ?k _ _] => destruct (decide (n = k)) as [->|Hne]
    end;
    try (rewrite Map_get_set_ne by exact Hne; exact H);
    rewrite (Map_get_has_false _ _ Ehas) in H; discriminate.
Qed.

Lemma registered_as_register_all c n q later :
  forall st, registered_as c n st = Some q ->
    registered_as c n (register_all later st) = Some q.
Proof.
  unfold register_all. induction later as [|p later IH]; cbn; intros st H.
  - exact H.
  - apply IH, registered_as_registerProvider, H.
Qed.

Lemma registered_as_fresh p st :
  name_taken p st = false ->
  registered_as (category_of p) (provider_name p) (registerProvider p st)
  = Some p.
Proof.
  intros H. unfold registered_as.
  destruct (registerProvider_maps p st) as (He & Hm & Hs & Hn).
  destruct p as [a|a|a|a]; cbn in *;
    [rewrite He|rewrite Hm|rewrite Hs|rewrite Hn]; rewrite H;
    rewrite Map_get_set_eq; reflexivity.
Qed.

(** X2.  The first provider to register under a name in a category keeps the
    name: whatever registers afterwards, in any category and under any name,
    a lookup of the name in that category still gives this provider. *)
Theorem first_registration_wins (p : AnyProvider) (later : list AnyProvider)
    (st : Manager) :
  name_taken p st = false ->
  registered_as (category_of p) (provider_name p)
    (register_all later (registerProvider p st)) = Some p.
Proof.
  intros H. apply registered_as_register_all, registered_as_fresh, H.
Qed.

Lemma first_registration_wins_witness :
  registered_as EVM_AGGREGATOR "0x"
    (register_all
       [AnEvmAggregator (healthyAdapter "0x" 5%N);
        AMetaAggregator {| p_name := "0x"; p_healthCheck := Throw "down" |}]
       (registerProvider (AnEvmAggregator zeroXAdapter) new_Manager))
  = Some (AnEvmAggregator zeroXAdapter).
Proof.
  apply (first_registration_wins (AnEvmAggregator zeroXAdapter)).
  reflexivity.
Defined.

Lemma Map_set_wf {V : Type} (name : V -> string) (k : string) (v : V)
    (m : list (string * V)) :
  k = name v ->
  List.NoDup (map fst m) /\ Forall (fun entry => entry.1 = name entry.2) m ->
  List.NoDup (map fst (Map_set k v m))
  /\ Forall (fun entry => entry.1 = name entry.2) (Map_set k v m).
Proof.
  intros Hk [Hnd Hall]. split; [apply Map_set_keys_NoDup, Hnd|].
  apply List.Forall_forall. intros kv Hin.
  apply Map_set_In in Hin as [->|Hin]; [exact Hk|].
  rewrite List.Forall_forall in Hall. auto.
Qed.

Lemma Map_values_set_new {K V : Type} `{EqDecision K} (k : K) (v : V)
    (m : list (K * V)) :
  Map_has k m = false -> Map_values (Map_set k v m) = Map_values m ++ [v].
Proof.
  intros H. rewrite Map_set_new by exact H.
  unfold Map_values. rewrite map_app. reflexivity.
Qed.

Lemma registry_consistent_registerProvider p st :
  registry_consistent st -> registry_consistent (registerProvider p st).
Proof.
  unfold registry_consistent.
  intros (He & Hm & Hs & Hn & Hld & Hl).
  destruct (registerProvider_maps p st) as (Ee & Em & Es & En).
  rewrite Ee, Em, Es, En, (registerProvider_aggregators p st).
  clear Ee Em Es En.
  destruct p as [a|a|a|a].
  - destruct (Map_has (getProviderName a) (evmAggregators st)) eqn:Ehas.
    + tauto.
    + split; [apply Map_set_wf; [reflexivity|exact He]|].
      split; [exact Hm|]. split; [exact Hs|]. split; [exact Hn|].
      rewrite (Map_values_set_new _ _ _ Ehas).
      assert (Hold : Forall
                (fun entry =>
                   mapProviderNameToAggregatorType (getProviderName entry.2)
                   = Some entry.1
                   /\ In entry.2 (Map_values (evmAggregators st) ++ [a]))
                (aggregators st)).
      { eapply List.Forall_impl; [|exact Hl]. cbn. intros kv [H1 H2].
        split; [exact H1|]. apply in_or_app. auto. }
      destruct (mapProviderNameToAggregatorType (getProviderName a)) as [t|] eqn:Et.
      * split; [apply Map_set_keys_NoDup, Hld|].
        apply List.Forall_forall. intros kv Hin.
        apply Map_set_In in Hin as [->|Hin].
        -- cbn. split; [exact Et|]. apply in_or_app. right. left. reflexivity.
        -- rewrite List.Forall_forall in Hold. auto.
      * split; [exact Hld|exact Hold].
  - destruct (Map_has (p_name a) (metaAggregators st)); [tauto|].
    split; [exact He|]. split; [apply Map_set_wf; [reflexivity|exact Hm]|]. tauto.
  - destruct (Map_has (p_name a) (solanaRouters st)); [tauto|].
    split; [exact He|]. split; [exact Hm|].
    split; [apply Map_set_wf; [reflexivity|exact Hs]|]. tauto.
  - destruct (Map_has (p_name a) (nativeRouters st)); [tauto|].
    split; [exact He|]. split; [exact Hm|]. split; [exact Hs|].
    split; [apply Map_set_wf; [reflexivity|exact Hn]|]. tauto.
Qed.

Lemma registry_consistent_register_all ps :
  forall st, registry_consistent st -> registry_consistent (register_all ps st).
Proof.
  unfold register_all. induction ps as [|p ps IH]; cbn; intros st H.
  - exact H.
  - apply IH, registry_consistent_registerProvider, H.
Qed.

Lemma registry_consistent_new : registry_consistent new_Manager.
Proof.
  unfold registry_consistent, new_Manager. cbn.
  repeat split; constructor.
Qed.

(** X3.  In every registry built by registrations alone, in any order and
    with any repetitions, the names of a category are pairwise distinct and
    each provider sits under the name it gives itself; the legacy map has one
    entry per aggregator type, each of them an EVM aggregator of the
    registry whose name reads, in lower case, as that type. *)
Theorem registrations_keep_registry_consistent (ps : list AnyProvider) :
  registry_consistent (register_all ps new_Manager).
Proof.
  apply registry_consistent_register_all, registry_consistent_new.
Qed.

(** X4.  An EVM aggregator that registers under a new name takes the legacy
    slot its name maps to, replacing the aggregator that held the slot: the
    legacy map then answers for the newcomer, and no other slot changes.  A
    name that maps to no aggregator type leaves the legacy map as it was. *)
Theorem legacy_slot_goes_to_last (a : OnchainAggregator) (st : Manager) :
  Map_has (getProviderName a) (evmAggregators st) = false ->
  let st' := registerEvmAggregator a st in
  match mapProviderNameToAggregatorType (getProviderName a) with
  | Some t =>
      Map_get t (aggregators st') = Some a
      /\ (forall c, isAggregatorSupported c t st' = supportsChain a c)
      /\ (forall t', t' <> t ->
            Map_get t' (aggregators st') = Map_get t' (aggregators st))
  | None => aggregators st' = aggregators st
  end.
Proof.
  intros Hnew st'.
  pose proof (registerProvider_aggregators (AnEvmAggregator a) st) as E.
  cbn in E. rewrite Hnew in E. fold st' in E.
  destruct (mapProviderNameToAggregatorType (getProviderName a)) as [t|].
  - rewrite E. split; [apply Map_get_set_eq|].
    split.
    + intros c. unfold isAggregatorSupported. rewrite E, Map_get_set_eq.
      reflexivity.
    + intros t' Hne. apply Map_get_set_ne, Hne.
  - exact E.
Qed.

Lemma legacy_slot_goes_to_last_witness :
  let shouting :=
    {| getProviderName := "0X"; healthCheck := Throw "offline";
       supportsChain := fun c => strict_eq c (CNum 137);
       getQuote := fun _ _ => Throw "no quote" |} in
  let st' := registerEvmAggregator shouting (managerOf [zeroXAdapter]) in
  Map_get ZEROX (aggregators st') = Some shouting
  /\ (forall c, isAggregatorSupported c ZEROX st' = supportsChain shouting c)
  /\ (forall t', t' <> ZEROX ->
        Map_get t' (aggregators st')
        = Map_get t' (aggregators (managerOf [zeroXAdapter]))).
Proof.
  intros shouting.
  apply (legacy_slot_goes_to_last shouting (managerOf [zeroXAdapter])).
  reflexivity.
Defined.

(** X5.  [onRegistrationComplete] is a latch that guards nothing: calling it
    again changes nothing, it leaves the registry as it is, and a provider
    that registers after it is registered exactly as it would have been
    before. *)
Theorem registration_latch_guards_nothing (p : AnyProvider) (st : Manager) :
  onRegistrationComplete (onRegistrationComplete st) = onRegistrationComplete st
  /\ registrationComplete (onRegistrationComplete st) = true
  /\ registry (onRegistrationComplete st) = registry st
  /\ registry (registerProvider p (onRegistrationComplete st))
     = registry (registerProvider p st).
Proof.
  unfold onRegistrationComplete.
  destruct (registrationComplete st) eqn:E.
  - rewrite E. auto.
  - cbn. split; [reflexivity|]. split; [reflexivity|]. split; [reflexivity|].
    unfold registry.
    destruct (registerProvider_maps p st) as (E1 & E2 & E3 & E4).
    destruct (registerProvider_maps p
      (log LogRegistrationComplete
         {| aggregators := aggregators st; evmAggregators := evmAggregators st;
            metaAggregators := metaAggregators st;
            solanaRouters := solanaRouters st; nativeRouters := nativeRouters st;
            healthCache := healthCache st; registrationComplete := true;
            logger := logger st |})) as (F1 & F2 & F3 & F4).
    rewrite E1, E2, E3, E4, F1, F2, F3, F4.
    rewrite !registerProvider_aggregators. reflexivity.
Qed.

(** ** The health cache *)

Lemma getProviderHealth_cached now p st :
  let r := getProviderHealth now p st in
  healthCache r.2 !! p_name p = Some r.1
  /\ registry r.2 = registry st
  /\ registrationComplete r.2 = registrationComplete st
  /\ logger r.2 = logger st.
Proof.
  unfold getProviderHealth.
  destruct (healthCache st !! p_name p) as [cached|] eqn:E.
  - destruct (now - lastCheck cached <? healthCacheTimeout).
    + cbn. auto.
    + destruct (p_healthCheck p); cbn; rewrite lookup_insert_eq; auto.
  - destruct (p_healthCheck p); cbn; rewrite lookup_insert_eq; auto.
Qed.

Lemma getProviderHealth_again (now now' : Z) (p p' : Provider) (st : Manager) :
  p_name p' = p_name p ->
  now' - lastCheck (getProviderHealth now p st).1 < healthCacheTimeout ->
  getProviderHealth now' p' (getProviderHealth now p st).2
  = getProviderHealth now p st.
Proof.
  intros Hname Hfresh.
  destruct (getProviderHealth_cached now p st) as (Hc & _).
  unfold getProviderHealth at 1. rewrite Hname, Hc.
  apply Z.ltb_lt in Hfresh. rewrite Hfresh.
  destruct (getProviderHealth now p st). reflexivity.
Qed.

(** X6.  A health that [getProviderHealth] has returned is served again,
    with no probe and no change of state, to every lookup under the same
    provider name made less than five minutes after the health's own
    [lastCheck], whatever the provider would answer by then. *)
Theorem health_served_from_cache (now now' : Z) (p p' : Provider)
    (st : Manager) :
  p_name p' = p_name p ->
  let first := getProviderHealth now p st in
  now' - lastCheck first.1 < 5 * 60 * 1000 ->
  getProviderHealth now' p' first.2 = first.
Proof.
  intros Hname first Hfresh.
  exact (getProviderHealth_again now now' p p' st Hname Hfresh).
Qed.

Lemma health_served_from_cache_witness :
  getProviderHealth 299999
    (as_IProvider (healthyAdapter "0x" 1%N))
    (getProviderHealth 0 (as_IProvider zeroXAdapter) new_Manager).2
  = getProviderHealth 0 (as_IProvider zeroXAdapter) new_Manager.
Proof.
  apply (health_served_from_cache 0 299999 (as_IProvider zeroXAdapter)
           (as_IProvider (healthyAdapter "0x" 1%N)) new_Manager).
  - reflexivity.
  - vm_compute. reflexivity.
Defined.

(** X7.  A probe that throws, made because the cache holds no entry that is
    still fresh, is recorded as an unhealthy status with error rate 1 and no
    latency, stamped with the current time; for the next five minutes every
    lookup under that name reports this failure. *)
Theorem failed_probe_is_remembered (now now' : Z) (p p' : Provider)
    (st : Manager) (message : string) :
  p_healthCheck p = Throw message ->
  match healthCache st !! p_name p with
  | Some cached => 5 * 60 * 1000 <= now - lastCheck cached
  | None => True
  end ->
  p_name p' = p_name p ->
  now' - now < 5 * 60 * 1000 ->
  let failed :=
    {| h_name := p_name p; status := unhealthy; latency := None;
       lastCheck := now; errorRate := Some (JS.of_Z 1) |} in
  (getProviderHealth now p st).1 = failed
  /\ (getProviderHealth now' p' (getProviderHealth now p st).2).1 = failed.
Proof.
  intros Hthrow Hstale Hname Hsoon failed.
  assert (E : (getProviderHealth now p st).1 = failed).
  { unfold getProviderHealth. rewrite Hthrow.
    destruct (healthCache st !! p_name p) as [cached|]; [|reflexivity].
    change (5 * 60 * 1000) with healthCacheTimeout in Hstale.
    apply Z.ltb_ge in Hstale. rewrite Hstale. reflexivity. }
  split; [exact E|].
  rewrite (getProviderHealth_again now now' p p' st Hname).
  - exact E.
  - rewrite E. cbn. exact Hsoon.
Qed.

Lemma failed_probe_is_remembered_witness :
  let failed :=
    {| h_name := "0x"; status := unhealthy; latency := None;
       lastCheck := 1000; errorRate := Some (JS.of_Z 1) |} in
  (getProviderHealth 1000 (as_IProvider zeroXAdapter) new_Manager).1 = failed
  /\ (getProviderHealth 300999 (as_IProvider (healthyAdapter "0x" 1%N))
        (getProviderHealth 1000 (as_IProvider zeroXAdapter) new_Manager).2).1
     = failed.
Proof.
  apply (failed_probe_is_remembered 1000 300999 (as_IProvider zeroXAdapter)
           (as_IProvider (healthyAdapter "0x" 1%N)) new_Manager "offline").
  - reflexivity.
  - exact I.
  - reflexivity.
  - vm_compute. reflexivity.
Defined.

Lemma healthOfAll_shape now providers :
  forall st,
    let r := healthOfAll now providers st in
    length r.1 = length providers
    /\ registry r.2 = registry st
    /\ registrationComplete r.2 = registrationComplete st
    /\ logger r.2 = logger st.
Proof.
  induction providers as [|p providers IH]; intros st; cbn.
  - auto.
  - destruct (getProviderHealth_cached now p st) as (_ & H1 & H2 & H3).
    destruct (getProviderHealth now p st) as [h st1]. cbn in *.
    specialize (IH st1).
    destruct (healthOfAll now providers st1) as [hs st2]. cbn in *.
    destruct IH as (I0 & I1 & I2 & I3).
    repeat split; congruence.
Qed.

(** [getProvidersHealth] reports one health per registered provider in each
    of the four categories and touches nothing but the health cache. *)
Lemma providers_health_report_shape (now : Z) (st : Manager) :
  let r := getProvidersHealth now st in
  length (evm r.1) = length (evmAggregators st)
  /\ length (meta r.1) = length (metaAggregators st)
  /\ length (solana r.1) = length (solanaRouters st)
  /\ length (native r.1) = length (nativeRouters st)
  /\ registry r.2 = registry st
  /\ registrationComplete r.2 = registrationComplete st
  /\ logger r.2 = logger st.
Proof.
  unfold getProvidersHealth.
  pose proof (healthOfAll_shape now
    (map as_IProvider (Map_values (evmAggregators st))) st) as H1.
  destruct (healthOfAll now (map as_IProvider (Map_values (evmAggregators st))) st)
    as [e st1]. cbn in H1. destruct H1 as (L1 & R1 & C1 & G1).
  assert (M1 : metaAggregators st1 = metaAggregators st)
    by (unfold registry in R1; congruence).
  rewrite M1.
  pose proof (healthOfAll_shape now (Map_values (metaAggregators st)) st1) as H2.
  destruct (healthOfAll now (Map_values (metaAggregators st)) st1) as [m st2].
  cbn in H2. destruct H2 as (L2 & R2 & C2 & G2).
  assert (M2 : solanaRouters st2 = solanaRouters st)
    by (unfold registry in R1, R2; congruence).
  rewrite M2.
  pose proof (healthOfAll_shape now (Map_values (solanaRouters st)) st2) as H3.
  destruct (healthOfAll now (Map_values (solanaRouters st)) st2) as [s st3].
  cbn in H3. destruct H3 as (L3 & R3 & C3 & G3).
  assert (M3 : nativeRouters st3 = nativeRouters st)
    by (unfold registry in R1, R2, R3; congruence).
  rewrite M3.
  pose proof (healthOfAll_shape now (Map_values (nativeRouters st)) st3) as H4.
  destruct (healthOfAll now (Map_values (nativeRouters st)) st3) as [n st4].
  cbn in H4. destruct H4 as (L4 & R4 & C4 & G4).
  cbn. unfold Map_values in *. rewrite !length_map in *.
  repeat split; congruence.
Qed.

(** ** Quotes from the registered adapters *)

Lemma fulfilled_spec req providers :
  Forall
    (fun e =>
       exists provider answer,
         In provider providers
         /\ getQuote provider req (Some false) = Ok answer
         /\ quote e = convertToLegacyQuote answer (getProviderName provider)
         /\ e_aggregator e = q_aggregator (quote e))
    (fulfilled req providers)
  /\ length (fulfilled req providers)
     = length (List.filter
                 (fun provider =>
                    match getQuote provider req (Some false) with
                    | Ok _ => true
                    | Throw _ => false
                    end) providers).
Proof.
  induction providers as [|p providers [IH1 IH2]]; cbn.
  - split; [constructor|reflexivity].
  - assert (Hmono : Forall
      (fun e =>
         exists provider answer,
           (p = provider \/ In provider providers)
           /\ getQuote provider req (Some false) = Ok answer
           /\ quote e = convertToLegacyQuote answer (getProviderName provider)
           /\ e_aggregator e = q_aggregator (quote e))
      (fulfilled req providers)).
    { eapply List.Forall_impl; [|exact IH1]. cbn.
      intros e (provider & answer & H1 & H2). exists provider, answer. tauto. }
    destruct (getQuote p req (Some false)) as [answer|m] eqn:E; cbn.
    + split; [|congruence]. constructor; [|exact Hmono].
      exists p, answer. cbn. auto.
    + split; [exact Hmono|exact IH2].
Qed.

(** X8.  [getMultipleQuotes] asks exactly the registered EVM aggregators
    that support the chain: every entry it returns is the answer of one of
    them, labelled as [convertToLegacyQuote] labels it, and there is one
    entry per supporting aggregator that answered.  It throws only when no
    aggregator supports the chain or when every supporting one threw. *)
Theorem multiple_quotes_come_from_supporting_adapters (p : LegacyParams)
    (st : Manager) :
  let supporting := getProvidersForChain (lp_chainId p) st in
  let req := convertToPortsRequest (requestOf p) in
  let answers provider :=
    match getQuote provider req (Some false) with
    | Ok _ => true
    | Throw _ => false
    end in
  (forall provider,
      In provider supporting
      <-> In provider (Map_values (evmAggregators st))
          /\ supportsChain provider (lp_chainId p) = true)
  /\ match getMultipleQuotes p st with
     | Ok entries =>
         entries <> []
         /\ length entries = length (List.filter answers supporting)
         /\ Forall
              (fun e =>
                 exists provider answer,
                   In provider supporting
                   /\ getQuote provider req (Some false) = Ok answer
                   /\ quote e
                      = convertToLegacyQuote answer (getProviderName provider)
                   /\ e_aggregator e = q_aggregator (quote e))
              entries
     | Throw _ =>
         supporting = [] \/ List.filter answers supporting = []
     end.
Proof.
  intros supporting req answers. split.
  - intros provider. unfold supporting, getProvidersForChain.
    rewrite filter_In. reflexivity.
  - assert (E : getMultipleQuotes p st
                = if (length supporting =? 0)%nat
                  then Throw "No providers support chain"
                  else if (length (fulfilled req supporting) =? 0)%nat
                       then Throw "All providers failed to provide quotes"
                       else Ok (fulfilled req supporting)) by reflexivity.
    rewrite E. clear E.
    destruct (fulfilled_spec req supporting) as [H1 H2]. fold answers in H2.
    destruct (length supporting =? 0)%nat eqn:E0.
    + left. apply Nat.eqb_eq in E0. destruct supporting; [reflexivity|discriminate].
    + destruct (length (fulfilled req supporting) =? 0)%nat eqn:E1.
      * right. apply Nat.eqb_eq in E1. rewrite E1 in H2.
        destruct (List.filter answers supporting); [reflexivity|discriminate].
      * apply Nat.eqb_neq in E1. split; [|split; assumption].
        intros Hnil. apply E1. rewrite Hnil. reflexivity.
Qed.

Lemma tryProviders_spec req providers :
  forall lastError,
    match tryProviders req providers lastError with
    | inl q =>
        exists before provider after answer,
          providers = before ++ provider :: after
          /\ Forall (fun p => exists m, getQuote p req None = Throw m) before
          /\ getQuote provider req None = Ok answer
          /\ q = convertToLegacyQuote answer (getProviderName provider)
    | inr e =>
        Forall (fun p => exists m, getQuote p req None = Throw m) providers
        /\ match last providers with
           | Some lastProvider =>
               exists m, getQuote lastProvider req None = Throw m /\ e = Some m
           | None => e = lastError
           end
    end.
Proof.
  induction providers as [|p providers IH]; intros lastError; cbn.
  - split; [constructor|reflexivity].
  - destruct (getQuote p req None) as [answer|m] eqn:E.
    + exists [], p, providers, answer. cbn.
      split; [reflexivity|]. split; [constructor|]. split; [exact E|reflexivity].
    + specialize (IH (Some m)).
      destruct (tryProviders req providers (Some m)) as [q|e].
      * destruct IH as (before & provider & after & answer & H1 & H2 & H3 & H4).
        exists (p :: before), provider, after, answer. cbn.
        split; [congruence|]. split; [|tauto].
        constructor; [eauto|exact H2].
      * destruct IH as [H1 H2]. split; [constructor; eauto|].
        destruct providers as [|p2 providers].
        -- cbn in *. exists m. auto.
        -- change (last (p :: p2 :: providers)) with (last (p2 :: providers)).
           destruct (last (p2 :: providers)) eqn:EL; [exact H2|].
           apply last_None in EL. discriminate.
Qed.

(** X9.  [tryProvidersInOrder] returns the quote of the first provider of
    the list whose [getQuote] does not throw, converted under that
    provider's name, and asks no provider after it.  It throws only when
    every provider threw, and then reports the error of the last provider
    of the list (["undefined"] for an empty list). *)
Theorem first_answering_provider_wins (providers : list OnchainAggregator)
    (request : SwapRequest) (strictValidation : option bool) :
  let req := convertToPortsRequest request in
  match tryProvidersInOrder providers request strictValidation with
  | Ok q =>
      exists before provider after answer,
        providers = before ++ provider :: after
        /\ Forall (fun p => exists m, getQuote p req None = Throw m) before
        /\ getQuote provider req None = Ok answer
        /\ q = convertToLegacyQuote answer (getProviderName provider)
  | Throw message =>
      Forall (fun p => exists m, getQuote p req None = Throw m) providers
      /\ exists lastMessage,
           message
           = ("All providers failed for chain " ++ chain_text (chainId request)
              ++ ". Last error: " ++ lastMessage)%string
           /\ match last providers with
              | Some lastProvider =>
                  getQuote lastProvider req None = Throw lastMessage
              | None => lastMessage = "undefined"%string
              end
  end.
Proof.
  intros req. unfold tryProvidersInOrder. fold req.
  pose proof (tryProviders_spec req providers None) as H.
  destruct (tryProviders req providers None) as [q|e]; [exact H|].
  destruct H as [H1 H2]. split; [exact H1|].
  exists (default "undefined"%string e). split; [reflexivity|].
  destruct (last providers) as [lastProvider|].
  - destruct H2 as (m & H2 & ->). exact H2.
  - rewrite H2. reflexivity.
Qed.

(** ** Provider selection at run time *)

Lemma sort_insert_In {A : Type} (cmp : A -> A -> JS.number) (x y : A)
    (l : list A) :
  In y (sort_insert cmp x l) <-> y = x \/ In y l.
Proof.
  induction l as [|z l IH]; cbn [sort_insert].
  - cbn. intuition congruence.
  - destruct (JS.gt (cmp x z) (JS.of_Z 0)).
    + change (In y (z :: sort_insert cmp x l))
        with (z = y \/ In y (sort_insert cmp x l)).
      rewrite IH. cbn. intuition congruence.
    + cbn. intuition congruence.
Qed.

Lemma Array_sort_In {A : Type} (cmp : A -> A -> JS.number) (y : A)
    (l : list A) :
  In y (Array_sort cmp l) <-> In y l.
Proof.
  unfold Array_sort. induction l as [|x l IH]; [reflexivity|].
  cbn [fold_right]. rewrite sort_insert_In, IH. cbn. intuition congruence.
Qed.

Section SelectionFacts.
Variable Date_now : nat -> Z.

Lemma awaitProviderHealth_run provider w :
  awaitProviderHealth Date_now provider w
  = ((getProviderHealth (Date_now (lookups w)) provider (manager w)).1,
     {| manager :=
          (getProviderHealth (Date_now (lookups w)) provider (manager w)).2;
        lookups := S (lookups w) |}).
Proof.
  unfold awaitProviderHealth.
  destruct (getProviderHealth (Date_now (lookups w)) provider (manager w)).
  reflexivity.
Qed.

Lemma calculateProviderScore_state now provider request st :
  (calculateProviderScore now provider request st).2
  = (getProviderHealth now (as_IProvider provider) st).2.
Proof.
  unfold calculateProviderScore.
  destruct (getProviderHealth now (as_IProvider provider) st). reflexivity.
Qed.

Lemma awaitProviderScore_run provider request w :
  awaitProviderScore Date_now provider request w
  = ((calculateProviderScore (Date_now (lookups w)) provider request
        (manager w)).1,
     {| manager :=
          (getProviderHealth (Date_now (lookups w)) (as_IProvider provider)
             (manager w)).2;
        lookups := S (lookups w) |}).
Proof.
  unfold awaitProviderScore.
  rewrite <- (calculateProviderScore_state _ provider request).
  destruct (calculateProviderScore (Date_now (lookups w)) provider request
              (manager w)).
  reflexivity.
Qed.

Lemma filterHealthyProviders_cons provider rest w :
  filterHealthyProviders Date_now (provider :: rest) w
  = let h := awaitProviderHealth Date_now (as_IProvider provider) w in
    let r := filterHealthyProviders Date_now rest h.2 in
    (if bool_decide (status h.1 = healthy) then provider :: r.1 else r.1, r.2).
Proof.
  cbn [filterHealthyProviders]. unfold andThen, resolve.
  destruct (awaitProviderHealth Date_now (as_IProvider provider) w) as [h w1].
  cbn. destruct (filterHealthyProviders Date_now rest w1). reflexivity.
Qed.

Lemma scoreProviders_cons provider rest request w :
  scoreProviders Date_now (provider :: rest) request w
  = let s := awaitProviderScore Date_now provider request w in
    let r := scoreProviders Date_now rest request s.2 in
    ({| rp_provider := provider; rp_score := s.1;
        rp_reason := getProviderScoreReason provider request s.1 |} :: r.1,
     r.2).
Proof.
  cbn [scoreProviders]. unfold andThen, resolve.
  destruct (awaitProviderScore Date_now provider request w) as [s w1].
  cbn. destruct (scoreProviders Date_now rest request w1). reflexivity.
Qed.

(** The registry of a run. *)
Lemma filterHealthyProviders_shape providers :
  forall w,
    let r := filterHealthyProviders Date_now providers w in
    (forall p, In p r.1 -> In p providers)
    /\ registry (manager r.2) = registry (manager w).
Proof.
  induction providers as [|p providers IH]; intros w.
  - cbn. auto.
  - rewrite filterHealthyProviders_cons, awaitProviderHealth_run. cbn zeta.
    cbn [fst snd].
    set (w1 := {| manager := _; lookups := _ |}).
    destruct (IH w1) as [I1 I2].
    destruct (getProviderHealth_cached (Date_now (lookups w)) (as_IProvider p)
                (manager w)) as (_ & R & _).
    split.
    + intros q. destruct (bool_decide _); cbn; intros Hq; auto.
      destruct Hq; auto.
    + rewrite I2. exact R.
Qed.

Lemma scoreProviders_shape providers request :
  forall w,
    let r := scoreProviders Date_now providers request w in
    map rp_provider r.1 = providers
    /\ registry (manager r.2) = registry (manager w).
Proof.
  induction providers as [|p providers IH]; intros w.
  - cbn. auto.
  - rewrite scoreProviders_cons, awaitProviderScore_run. cbn zeta.
    cbn [fst snd].
    set (w1 := {| manager := _; lookups := _ |}).
    destruct (IH w1) as [I1 I2].
    destruct (getProviderHealth_cached (Date_now (lookups w)) (as_IProvider p)
                (manager w)) as (_ & R & _).
    split.
    + cbn. rewrite I1. reflexivity.
    + rewrite I2. exact R.
Qed.

Lemma rankProvidersByPerformance_shape providers request w :
  let r := rankProvidersByPerformance Date_now providers request w in
  (forall p, In p (map rp_provider r.1) <-> In p providers)
  /\ registry (manager r.2) = registry (manager w).
Proof.
  unfold rankProvidersByPerformance, andThen, resolve.
  destruct (scoreProviders_shape providers request w) as [S1 S2].
  destruct (scoreProviders Date_now providers request w) as [ranked w1].
  cbn in *. split; [|exact S2].
  intros p. rewrite <- S1, !in_map_iff.
  split; intros (x & Hx & Hin); exists x; split; auto;
    [apply Array_sort_In in Hin|apply Array_sort_In]; exact Hin.
Qed.

Lemma getDynamicQuote_run request strictValidation w :
  let supporting := getProvidersForChain (chainId request) (manager w) in
  getDynamicQuote Date_now request strictValidation w
  = if (length supporting =? 0)%nat then
      (Throw ("No providers support chain " ++ chain_text (chainId request)
              ++ ". Supported chains: "
              ++ String.concat ", "
                   (map decimalZ (getAllSupportedChains (manager w))))%string,
       w)
    else
      let f := filterHealthyProviders Date_now supporting w in
      if (length f.1 =? 0)%nat then
        (tryProvidersWithFallback supporting request strictValidation, f.2)
      else
        let r := rankProvidersByPerformance Date_now f.1 request f.2 in
        (tryProvidersInOrder (map rp_provider r.1) request strictValidation,
         r.2).
Proof.
  intros supporting. unfold getDynamicQuote. fold supporting.
  destruct (length supporting =? 0)%nat; [reflexivity|].
  unfold andThen, resolve.
  destruct (filterHealthyProviders Date_now supporting w) as [hs w1]. cbn.
  destruct (length hs =? 0)%nat; [reflexivity|].
  destruct (rankProvidersByPerformance Date_now hs request w1). reflexivity.
Qed.

End SelectionFacts.

Lemma tried_providers_outcome (tried : list OnchainAggregator)
    (request : SwapRequest) (sv : option bool) (r : result SwapQuote) :
  (r = tryProvidersInOrder tried request sv
   \/ r = tryProvidersWithFallback tried request sv) ->
  match r with
  | Ok q =>
      exists provider answer,
        In provider tried
        /\ getQuote provider (convertToPortsRequest request) None = Ok answer
        /\ q = convertToLegacyQuote answer (getProviderName provider)
  | Throw _ =>
      Forall
        (fun p =>
           exists m, getQuote p (convertToPortsRequest request) None = Throw m)
        tried
  end.
Proof.
  intros Hr.
  pose proof (tryProviders_spec (convertToPortsRequest request) tried None) as H.
  destruct Hr as [-> | ->];
    unfold tryProvidersInOrder, tryProvidersWithFallback;
    destruct (tryProviders (convertToPortsRequest request) tried None) as [q|e];
    solve
      [ destruct H as (before & provider & after & answer & H1 & H2 & H3 & H4);
        exists provider, answer; split;
        [rewrite H1; apply in_or_app; right; left; reflexivity | tauto]
      | tauto ].
Qed.

Lemma getProviderHealth_miss now provider st :
  healthCache st !! p_name provider = None ->
  getProviderHealth now provider st
  = match p_healthCheck provider with
    | Ok health =>
        (health,
         set_healthCache (<[p_name provider := health]> (healthCache st)) st)
    | Throw _ =>
        let failedHealth :=
          {| h_name := p_name provider; status := unhealthy; latency := None;
             lastCheck := now; errorRate := Some (JS.of_Z 1) |} in
        (failedHealth,
         set_healthCache (<[p_name provider := failedHealth]> (healthCache st))
           st)
    end.
Proof. intros H. unfold getProviderHealth. rewrite H. reflexivity. Qed.

Lemma getProviderHealth_miss_status now provider st :
  healthCache st !! getProviderName provider = None ->
  bool_decide
    (status (getProviderHealth now (as_IProvider provider) st).1 = healthy)
  = probesHealthy provider.
Proof.
  intros H. rewrite getProviderHealth_miss by exact H.
  unfold probesHealthy. cbn. destruct (healthCheck provider); reflexivity.
Qed.

Lemma getProviderHealth_other now provider st name :
  name <> p_name provider ->
  healthCache (getProviderHealth now provider st).2 !! name
  = healthCache st !! name.
Proof.
  intros Hne. unfold getProviderHealth.
  destruct (healthCache st !! p_name provider) as [cached|];
    [destruct (now - lastCheck cached <? healthCacheTimeout); [reflexivity|]|];
    destruct (p_healthCheck provider); cbn;
    rewrite lookup_insert_ne by congruence; reflexivity.
Qed.

Lemma getProviderHealth_never_healthy now provider st :
  map_Forall (fun _ h => status h <> healthy) (healthCache st) ->
  probesHealthy provider = false ->
  let r := getProviderHealth now (as_IProvider provider) st in
  bool_decide (status r.1 = healthy) = false
  /\ map_Forall (fun _ h => status h <> healthy) (healthCache r.2).
Proof.
  intros Hall Hp. unfold probesHealthy in Hp. cbn zeta.
  assert (Hprobe : forall h, healthCheck provider = Ok h -> status h <> healthy).
  { intros h E. rewrite E in Hp. apply bool_decide_eq_false in Hp. exact Hp. }
  unfold getProviderHealth. cbn [p_name p_healthCheck as_IProvider].
  destruct (healthCache st !! getProviderName provider) as [cached|] eqn:E.
  - destruct (now - lastCheck cached <? healthCacheTimeout).
    + cbn. split; [|exact Hall].
      apply bool_decide_eq_false. exact (Hall _ _ E).
    + destruct (healthCheck provider) as [h|m]; cbn.
      * split; [apply bool_decide_eq_false; auto|].
        apply map_Forall_insert_2; auto.
      * split; [reflexivity|]. apply map_Forall_insert_2; [discriminate|auto].
  - destruct (healthCheck provider) as [h|m]; cbn.
    + split; [apply bool_decide_eq_false; auto|].
      apply map_Forall_insert_2; auto.
    + split; [reflexivity|]. apply map_Forall_insert_2; [discriminate|auto].
Qed.

Section SelectionTheorems.
Variable Date_now : nat -> Z.

Lemma filterHealthyProviders_none providers :
  forall w,
    map_Forall (fun _ h => status h <> healthy) (healthCache (manager w)) ->
    Forall (fun p => probesHealthy p = false) providers ->
    (filterHealthyProviders Date_now providers w).1 = [].
Proof.
  induction providers as [|p providers IH]; intros w Hc Hp.
  - reflexivity.
  - inversion Hp as [|? ? Hp1 Hp2]; subst.
    rewrite filterHealthyProviders_cons, awaitProviderHealth_run.
    cbn zeta. cbn [fst snd].
    destruct (getProviderHealth_never_healthy (Date_now (lookups w)) p
                (manager w) Hc Hp1) as [H1 H2].
    rewrite H1. apply IH; [exact H2|exact Hp2].
Qed.

Lemma filterHealthyProviders_fresh providers :
  forall w,
    Forall (fun p => healthCache (manager w) !! getProviderName p = None)
      providers ->
    List.NoDup (map getProviderName providers) ->
    (filterHealthyProviders Date_now providers w).1
    = List.filter probesHealthy providers.
Proof.
  induction providers as [|p providers IH]; intros w Hc Hnd.
  - reflexivity.
  - inversion Hc as [|? ? Hc1 Hc2]; subst.
    inversion Hnd as [|? ? Hn1 Hn2]; subst.
    rewrite filterHealthyProviders_cons, awaitProviderHealth_run.
    cbn zeta. cbn [fst snd].
    rewrite (getProviderHealth_miss_status _ p (manager w) Hc1).
    rewrite IH; [reflexivity| |exact Hn2].
    cbn [manager].
    rewrite List.Forall_forall in Hc2. apply List.Forall_forall.
    intros q Hq.
    rewrite getProviderHealth_other; [auto|].
    cbn. intros E. apply Hn1. rewrite <- E. apply in_map. exact Hq.
Qed.

(** X10.  A quote that [getDynamicQuote] returns is the answer of a
    registered EVM aggregator that supports the chain of the request,
    converted under that aggregator's name.  When it throws, either no
    registered aggregator supports the chain or a supporting aggregator was
    asked and threw.  The call changes no registry. *)
Theorem dynamic_quote_comes_from_supporting_adapter (request : SwapRequest)
    (strictValidation : option bool) (w : Run) :
  let r := getDynamicQuote Date_now request strictValidation w in
  let supporting := getProvidersForChain (chainId request) (manager w) in
  match r.1 with
  | Ok q =>
      exists provider answer,
        In provider (Map_values (evmAggregators (manager w)))
        /\ supportsChain provider (chainId request) = true
        /\ getQuote provider (convertToPortsRequest request) None = Ok answer
        /\ q = convertToLegacyQuote answer (getProviderName provider)
  | Throw _ =>
      supporting = []
      \/ exists provider m,
           In provider supporting
           /\ getQuote provider (convertToPortsRequest request) None = Throw m
  end
  /\ registry (manager r.2) = registry (manager w).
Proof.
  intros r supporting. subst r. rewrite getDynamicQuote_run. fold supporting.
  destruct (length supporting =? 0)%nat eqn:E0.
  { cbn. split; [|reflexivity]. left.
    apply Nat.eqb_eq in E0. destruct supporting; [reflexivity|discriminate]. }
  assert (Hsub : forall p, In p supporting ->
            In p (Map_values (evmAggregators (manager w)))
            /\ supportsChain p (chainId request) = true).
  { intros p Hp. unfold supporting, getProvidersForChain in Hp.
    apply filter_In in Hp. exact Hp. }
  generalize (filterHealthyProviders_shape Date_now supporting w).
  cbn zeta.
  destruct (filterHealthyProviders Date_now supporting w) as [hs w1].
  cbn [fst snd]. intros [F1 F2].
  destruct (length hs =? 0)%nat eqn:E1.
  - cbn [fst snd]. split; [|exact F2].
    pose proof (tried_providers_outcome supporting request strictValidation
                  (tryProvidersWithFallback supporting request strictValidation)
                  (or_intror eq_refl)) as H.
    destruct (tryProvidersWithFallback supporting request strictValidation)
      as [q|m].
    + destruct H as (provider & answer & H1 & H2 & H3).
      exists provider, answer. destruct (Hsub provider H1). auto.
    + right. destruct supporting as [|p0 rest]; [discriminate|].
      inversion H as [|? ? [m0 Hm0] _]; subst.
      exists p0, m0. split; [left; reflexivity|exact Hm0].
  - generalize (rankProvidersByPerformance_shape Date_now hs request w1).
    cbn zeta.
    destruct (rankProvidersByPerformance Date_now hs request w1) as [rk w2].
    cbn [fst snd]. intros [R1 R2]. split; [|rewrite R2; exact F2].
    pose proof (tried_providers_outcome (map rp_provider rk) request
                  strictValidation
                  (tryProvidersInOrder (map rp_provider rk) request
                     strictValidation) (or_introl eq_refl)) as H.
    destruct (tryProvidersInOrder (map rp_provider rk) request
                strictValidation) as [q|m].
    + destruct H as (provider & answer & H1 & H2 & H3).
      exists provider, answer.
      apply R1, F1 in H1. destruct (Hsub provider H1). auto.
    + right. destruct hs as [|p0 rest]; [discriminate|].
      assert (Hin : In p0 (map rp_provider rk)) by (apply R1; left; reflexivity).
      rewrite List.Forall_forall in H. destruct (H p0 Hin) as [m0 Hm0].
      exists p0, m0. split; [|exact Hm0].
      apply F1. left. reflexivity.
Qed.

(** X11.  When no cached health is healthy and no supporting aggregator
    probes healthy, [getDynamicQuote] still asks every supporting
    aggregator, in registration order: its answer is that of
    [tryProvidersWithFallback] on all of them. *)
Theorem unhealthy_adapters_are_the_last_resort (request : SwapRequest)
    (strictValidation : option bool) (w : Run) :
  let supporting := getProvidersForChain (chainId request) (manager w) in
  map_Forall (fun _ h => status h <> healthy) (healthCache (manager w)) ->
  Forall (fun p => probesHealthy p = false) supporting ->
  supporting <> [] ->
  (getDynamicQuote Date_now request strictValidation w).1
  = tryProvidersWithFallback supporting request strictValidation.
Proof.
  intros supporting Hc Hp Hne. rewrite getDynamicQuote_run. fold supporting.
  destruct (length supporting =? 0)%nat eqn:E0.
  { apply Nat.eqb_eq in E0. destruct supporting; [congruence|discriminate]. }
  cbn zeta. rewrite (filterHealthyProviders_none supporting w Hc Hp).
  reflexivity.
Qed.

End SelectionTheorems.

Lemma unhealthy_adapters_are_the_last_resort_witness :
  let limping :=
    quotingAdapter "0x" 5%N (sampleHealth "0x" unhealthy None None) in
  let request := sampleSwapRequest 1 1000000000000000000%N None in
  (getDynamicQuote (fun _ => 0) request None
     {| manager := managerOf [limping; zeroXAdapter]; lookups := 0 |}).1
  = tryProvidersWithFallback [limping; zeroXAdapter] request None.
Proof.
  intros limping request.
  apply (unhealthy_adapters_are_the_last_resort (fun _ => 0) request None
           {| manager := managerOf [limping; zeroXAdapter]; lookups := 0 |}).
  - apply map_Forall_empty.
  - repeat constructor.
  - discriminate.
Defined.

Lemma NoDup_map_filter {A B : Type} (f : A -> B) (g : A -> bool) (l : list A) :
  List.NoDup (map f l) -> List.NoDup (map f (List.filter g l)).
Proof.
  induction l as [|x l IH]; cbn; intros H; [constructor|].
  inversion H as [|? ? H1 H2]; subst.
  destruct (g x); cbn; [|auto].
  constructor; [|auto].
  intros Hin. apply H1. apply in_map_iff in Hin as (y & Hy & Hin).
  apply filter_In in Hin as [Hin _]. apply in_map_iff. eauto.
Qed.

Lemma NoDup_map_inj {A B : Type} (f : A -> B) (l : list A) (x y : A) :
  List.NoDup (map f l) -> In x l -> In y l -> f x = f y -> x = y.
Proof.
  induction l as [|z l IH]; cbn; intros H Hx Hy E; [contradiction|].
  inversion H as [|? ? H1 H2]; subst.
  destruct Hx as [->|Hx], Hy as [->|Hy]; auto.
  - exfalso. apply H1. rewrite E. apply in_map, Hy.
  - exfalso. apply H1. rewrite <- E. apply in_map, Hx.
Qed.

Lemma registry_consistent_names st :
  registry_consistent st ->
  List.NoDup (map getProviderName (Map_values (evmAggregators st))).
Proof.
  intros [[Hnd Hall] _]. unfold Map_values. rewrite map_map.
  replace (map (fun x => getProviderName x.2) (evmAggregators st))
    with (map fst (evmAggregators st)); [exact Hnd|].
  apply map_ext_in. intros kv Hin.
  rewrite List.Forall_forall in Hall. apply Hall, Hin.
Qed.

Lemma registry_consistent_get st name p :
  registry_consistent st ->
  Map_get name (evmAggregators st) = Some p ->
  In p (Map_values (evmAggregators st)) /\ getProviderName p = name.
Proof.
  intros [[_ Hall] _]. unfold Map_get.
  destruct (List.find _ (evmAggregators st)) as [kv|] eqn:E; [|discriminate].
  intros [= <-]. apply find_some in E as [Hin Hk].
  apply bool_decide_eq_true in Hk.
  rewrite List.Forall_forall in Hall.
  split; [apply in_map, Hin|]. rewrite <- (Hall kv Hin). exact Hk.
Qed.

Section PreferenceTheorems.
Variable Date_now : nat -> Z.

(** X12.  In a consistent registry whose health cache is still empty, as
    long as some supporting aggregator probes healthy, [getDynamicQuote]
    asks only the supporting aggregators that probe healthy: its quote is
    the answer of one of them, and it throws when all of them throw, even if
    an aggregator that is not healthy could have quoted. *)
Theorem healthy_adapters_are_the_only_ones_asked (request : SwapRequest)
    (strictValidation : option bool) (w : Run) :
  let supporting := getProvidersForChain (chainId request) (manager w) in
  let eligible := List.filter probesHealthy supporting in
  registry_consistent (manager w) ->
  healthCache (manager w) = ∅ ->
  eligible <> [] ->
  match (getDynamicQuote Date_now request strictValidation w).1 with
  | Ok q =>
      exists provider answer,
        In provider eligible
        /\ getQuote provider (convertToPortsRequest request) None = Ok answer
        /\ q = convertToLegacyQuote answer (getProviderName provider)
  | Throw _ =>
      Forall
        (fun p =>
           exists m, getQuote p (convertToPortsRequest request) None = Throw m)
        eligible
  end.
Proof.
  intros supporting eligible Hcons Hcache Hne.
  rewrite getDynamicQuote_run. fold supporting.
  assert (Hfresh : (filterHealthyProviders Date_now supporting w).1 = eligible).
  { apply filterHealthyProviders_fresh.
    - apply List.Forall_forall. intros p _. rewrite Hcache. apply lookup_empty.
    - apply NoDup_map_filter, registry_consistent_names, Hcons. }
  destruct (length supporting =? 0)%nat eqn:E0.
  { apply Nat.eqb_eq in E0. exfalso. apply Hne. unfold eligible.
    destruct supporting; [reflexivity|discriminate]. }
  cbn zeta. rewrite Hfresh.
  destruct (length eligible =? 0)%nat eqn:E1.
  { apply Nat.eqb_eq in E1. exfalso. apply Hne.
    destruct eligible; [reflexivity|discriminate]. }
  generalize (rankProvidersByPerformance_shape Date_now eligible request
                (filterHealthyProviders Date_now supporting w).2).
  cbn zeta.
  destruct (rankProvidersByPerformance Date_now eligible request
              (filterHealthyProviders Date_now supporting w).2) as [rk w2].
  cbn [fst snd]. intros [R1 _].
  pose proof (tried_providers_outcome (map rp_provider rk) request
                strictValidation
                (tryProvidersInOrder (map rp_provider rk) request
                   strictValidation) (or_introl eq_refl)) as H.
  destruct (tryProvidersInOrder (map rp_provider rk) request strictValidation)
    as [q|m].
  - destruct H as (provider & answer & H1 & H2).
    exists provider, answer. split; [apply R1, H1|exact H2].
  - rewrite List.Forall_forall in H. apply List.Forall_forall.
    intros p Hp. apply H, R1, Hp.
Qed.

Lemma healthyAmong_cons chain provider rest w :
  healthyAmong Date_now chain (provider :: rest) w
  = if supportsChain provider chain then
      let h := awaitProviderHealth Date_now (as_IProvider provider) w in
      let r := healthyAmong Date_now chain rest h.2 in
      (if bool_decide (status h.1 = healthy) then provider :: r.1 else r.1, r.2)
    else healthyAmong Date_now chain rest w.
Proof.
  cbn [healthyAmong]. destruct (supportsChain provider chain); [|reflexivity].
  unfold andThen, resolve.
  destruct (awaitProviderHealth Date_now (as_IProvider provider) w) as [h w1].
  cbn. destruct (healthyAmong Date_now chain rest w1). reflexivity.
Qed.

Lemma healthyAmong_fresh chain providers :
  forall w,
    Forall (fun p => healthCache (manager w) !! getProviderName p = None)
      providers ->
    List.NoDup (map getProviderName providers) ->
    (healthyAmong Date_now chain providers w).1
    = List.filter (fun p => supportsChain p chain && probesHealthy p) providers.
Proof.
  induction providers as [|p providers IH]; intros w Hc Hnd.
  - reflexivity.
  - inversion Hc as [|? ? Hc1 Hc2]; subst.
    inversion Hnd as [|? ? Hn1 Hn2]; subst.
    rewrite healthyAmong_cons. cbn [List.filter].
    destruct (supportsChain p chain); cbn [andb].
    + rewrite awaitProviderHealth_run. cbn zeta. cbn [fst snd].
      rewrite (getProviderHealth_miss_status _ p (manager w) Hc1).
      rewrite IH; [reflexivity| |exact Hn2].
      cbn [manager].
      rewrite List.Forall_forall in Hc2. apply List.Forall_forall.
      intros q Hq.
      rewrite getProviderHealth_other; [auto|].
      cbn. intros E. apply Hn1. rewrite <- E. apply in_map. exact Hq.
    + apply IH; assumption.
Qed.

Lemma getHealthyEvmProviders_fresh chain w p :
  registry_consistent (manager w) ->
  healthCache (manager w) = ∅ ->
  (In p (getHealthyEvmProviders Date_now chain w).1
   <-> In p (Map_values (evmAggregators (manager w)))
       /\ supportsChain p chain = true /\ probesHealthy p = true).
Proof.
  intros Hcons Hcache. unfold getHealthyEvmProviders.
  pose proof (healthyAmong_fresh chain (Map_values (evmAggregators (manager w))) w)
    as H.
  destruct (healthyAmong Date_now chain (Map_values (evmAggregators (manager w))) w)
    as [hs w1].
  cbn [fst snd] in *. rewrite Array_sort_In, H.
  - rewrite filter_In, andb_true_iff. reflexivity.
  - apply List.Forall_forall. intros q _. rewrite Hcache. apply lookup_empty.
  - apply registry_consistent_names, Hcons.
Qed.

(** X13.  In a consistent registry whose health cache is still empty,
    [getQuote] with a preferred aggregator type returns the answer of the
    aggregator registered under that type's name whenever this aggregator
    supports the chain, probes healthy and answers: no ranking is made and
    no other aggregator decides the outcome.  The quote is labelled with the
    preferred type. *)
Theorem preferred_adapter_is_asked_first (request : SwapRequest)
    (t : AggregatorType) (strictValidation : option bool) (w : Run)
    (p : OnchainAggregator) (answer : PortsSwapQuote) :
  registry_consistent (manager w) ->
  healthCache (manager w) = ∅ ->
  Map_get (mapAggregatorTypeToProviderName t) (evmAggregators (manager w))
  = Some p ->
  supportsChain p (chainId request) = true ->
  probesHealthy p = true ->
  getQuote p (convertToPortsRequest request) None = Ok answer ->
  let q := convertToLegacyQuote answer (mapAggregatorTypeToProviderName t) in
  (getQuoteFor Date_now request (Some t) strictValidation w).1 = Ok q
  /\ q_aggregator q = t.
Proof.
  intros Hcons Hcache Hget Hsup Hhealthy Hanswer q.
  split; [|destruct t; reflexivity].
  destruct (registry_consistent_get _ _ _ Hcons Hget) as [Hin Hname].
  unfold getQuoteFor, getEvmQuote, andThen.
  assert (Ht : string_truthy (mapAggregatorTypeToProviderName t) = true)
    by (destruct t; reflexivity).
  rewrite Ht.
  pose proof (fun x => getHealthyEvmProviders_fresh (chainId request) w x
                         Hcons Hcache) as Hh.
  destruct (getHealthyEvmProviders Date_now (chainId request) w) as [hs w1].
  cbn [fst snd] in Hh.
  assert (Hp : In p hs) by (apply Hh; auto).
  destruct (List.find
              (fun p0 => String.eqb (getProviderName p0)
                           (mapAggregatorTypeToProviderName t)) hs)
    as [p'|] eqn:Ef.
  - apply find_some in Ef as [Hin' Hn'].
    apply String.eqb_eq in Hn'.
    assert (p' = p).
    { apply (NoDup_map_inj getProviderName
               (Map_values (evmAggregators (manager w))));
        [apply registry_consistent_names, Hcons|apply Hh, Hin'|exact Hin|].
      congruence. }
    subst p'. rewrite Hanswer. reflexivity.
  - exfalso. apply (find_none _ _ Ef) in Hp.
    rewrite Hname, String.eqb_refl in Hp. discriminate.
Qed.

End PreferenceTheorems.

Lemma healthy_adapters_are_the_only_ones_asked_witness :
  let limping :=
    quotingAdapter "paraswap" 7%N (sampleHealth "paraswap" degraded None None) in
  let request := sampleSwapRequest 1 1000000000000000000%N None in
  match
    (getDynamicQuote (fun k => 1000 * Z.of_nat k) request None
       {| manager := managerOf [limping; healthyAdapter "odos" 5%N];
          lookups := 0 |}).1
  with
  | Ok q =>
      exists provider answer,
        In provider [healthyAdapter "odos" 5%N]
        /\ getQuote provider (convertToPortsRequest request) None = Ok answer
        /\ q = convertToLegacyQuote answer (getProviderName provider)
  | Throw _ =>
      Forall
        (fun p =>
           exists m, getQuote p (convertToPortsRequest request) None = Throw m)
        [healthyAdapter "odos" 5%N]
  end.
Proof.
  intros limping request.
  apply (healthy_adapters_are_the_only_ones_asked (fun k => 1000 * Z.of_nat k) request None
           {| manager := managerOf [limping; healthyAdapter "odos" 5%N];
              lookups := 0 |}).
  - apply (registry_consistent_register_all
             [AnEvmAggregator limping;
              AnEvmAggregator (healthyAdapter "odos" 5%N)]),
      registry_consistent_new.
  - reflexivity.
  - discriminate.
Defined.

Lemma preferred_adapter_is_asked_first_witness :
  let request := sampleSwapRequest 137 1000000000000000000%N None in
  let polygonOdos :=
    {| getProviderName := "odos";
       healthCheck := Ok (sampleHealth "odos" healthy None None);
       supportsChain := fun c => strict_eq c (CNum 137);
       getQuote := fun _ _ => Ok (sampleQuote "odos" 9%N) |} in
  let q := convertToLegacyQuote (sampleQuote "odos" 9%N) "odos" in
  (getQuoteFor (fun k => 1000 * Z.of_nat k) request (Some ODOS) None
     {| manager := managerOf [zeroXAdapter; polygonOdos]; lookups := 0 |}).1
  = Ok q
  /\ q_aggregator q = ODOS.
Proof.
  intros request polygonOdos.
  apply (preferred_adapter_is_asked_first (fun k => 1000 * Z.of_nat k) request ODOS None
           {| manager := managerOf [zeroXAdapter; polygonOdos]; lookups := 0 |}
           polygonOdos (sampleQuote "odos" 9%N)).
  - apply (registry_consistent_register_all
             [AnEvmAggregator zeroXAdapter; AnEvmAggregator polygonOdos]),
      registry_consistent_new.
  - reflexivity.
  - reflexivity.
  - reflexivity.
  - reflexivity.
  - reflexivity.
Defined.

(** ** Discovery of the supported aggregator types *)

Lemma discoverAggregators_spec chain entries :
  forall supported,
    List.NoDup supported ->
    List.NoDup (discoverAggregators chain entries supported)
    /\ forall t,
         In t (discoverAggregators chain entries supported)
         <-> In t supported
             \/ exists entry,
                  In entry entries
                  /\ supportsChain entry.2 chain = true
                  /\ mapProviderNameToAggregatorType entry.1 = Some t.
Proof.
  induction entries as [|[name a] entries IH]; intros supported Hnd.
  - cbn. split; [exact Hnd|]. intros t. split; [auto|].
    intros [H|(entry & [] & _)]. exact H.
  - cbn [discoverAggregators].
    set (supported' :=
           if supportsChain a chain then
             match mapProviderNameToAggregatorType name with
             | Some aggregatorType =>
                 if negb (existsb (fun t => bool_decide (t = aggregatorType))
                            supported)
                 then supported ++ [aggregatorType] else supported
             | None => supported
             end
           else supported).
    assert (H' : List.NoDup supported'
                 /\ forall t, In t supported'
                      <-> In t supported
                          \/ (supportsChain a chain = true
                              /\ mapProviderNameToAggregatorType name = Some t)).
    { unfold supported'.
      destruct (supportsChain a chain);
        [|split; [exact Hnd|intros t; intuition discriminate]].
      destruct (mapProviderNameToAggregatorType name) as [u|];
        [|split; [exact Hnd|intros t; intuition discriminate]].
      destruct (existsb (fun t => bool_decide (t = u)) supported) eqn:Ex;
        cbn [negb].
      - apply existsb_exists in Ex as (v & Hv & Ev).
        apply bool_decide_eq_true in Ev. subst v.
        split; [exact Hnd|]. intros t. split; [auto|].
        intros [H|[_ [= <-]]]; assumption.
      - split.
        + apply List.NoDup_app;
            [exact Hnd|constructor; [intros []|constructor]|].
          intros v Hv [Hu|[]]. subst v.
          assert (existsb (fun t => bool_decide (t = u)) supported = true).
          { apply existsb_exists. exists u. split; [exact Hv|].
            apply bool_decide_eq_true. reflexivity. }
          congruence.
        + intros t. rewrite in_app_iff. cbn. intuition congruence. }
    destruct H' as [Hnd' Hin'].
    destruct (IH supported' Hnd') as [I1 I2]. split; [exact I1|].
    intros t. rewrite I2, Hin'. cbn [In]. split.
    + intros [[H|[H1 H2]]|(entry & H1 & H2)]; auto.
      * right. exists (name, a). cbn. auto.
      * right. exists entry. auto.
    + intros [H|(entry & [<-|H1] & H2 & H3)]; auto.
      right. exists entry. auto.
Qed.

(** X14.  In a consistent registry, [getEnhancedSupportedAggregators] lists
    exactly the aggregator types under whose name (in any letter case) a
    registered EVM aggregator supports the chain, each type once; the
    legacy map, consulted when this list is empty, never adds a type. *)
Theorem enhanced_discovery_needs_no_legacy_fallback (chain : chain_id)
    (st : Manager) :
  registry_consistent st ->
  let supported := getEnhancedSupportedAggregators chain st in
  supported = discoverAggregators chain (evmAggregators st) []
  /\ List.NoDup supported
  /\ forall t,
       In t supported
       <-> exists a,
             In a (Map_values (evmAggregators st))
             /\ supportsChain a chain = true
             /\ mapProviderNameToAggregatorType (getProviderName a) = Some t.
Proof.
  intros Hcons supported.
  destruct (discoverAggregators_spec chain (evmAggregators st) []
              ltac:(constructor)) as [Hnd Hin].
  assert (Hchar : forall t,
            In t (discoverAggregators chain (evmAggregators st) [])
            <-> exists a,
                  In a (Map_values (evmAggregators st))
                  /\ supportsChain a chain = true
                  /\ mapProviderNameToAggregatorType (getProviderName a)
                     = Some t).
  { intros t. rewrite Hin. destruct Hcons as [[_ Hkeys] _].
    rewrite List.Forall_forall in Hkeys. split.
    - intros [[]|(entry & H1 & H2 & H3)]. exists entry.2.
      split; [apply in_map, H1|]. rewrite <- (Hkeys entry H1). auto.
    - intros (a & H1 & H2 & H3). right.
      apply in_map_iff in H1 as (entry & <- & H1). exists entry.
      rewrite (Hkeys entry H1). auto. }
  assert (E : supported = discoverAggregators chain (evmAggregators st) []).
  { unfold supported, getEnhancedSupportedAggregators.
    destruct (discoverAggregators chain (evmAggregators st) []) as [|t ts] eqn:Ed;
      [|reflexivity].
    cbn [length Nat.eqb app]. unfold getSupportedAggregators.
    destruct (List.filter (fun entry => supportsChain entry.2 chain)
                (aggregators st)) as [|[t a] rest] eqn:Ef; [reflexivity|].
    exfalso.
    assert (Hentry : In (t, a)
              (List.filter (fun entry => supportsChain entry.2 chain)
                 (aggregators st))) by (rewrite Ef; left; reflexivity).
    apply filter_In in Hentry as [Hentry Hsup]. cbn in Hsup.
    destruct Hcons as (_ & _ & _ & _ & _ & Hlegacy).
    rewrite List.Forall_forall in Hlegacy.
    destruct (Hlegacy _ Hentry) as [Hmap Hreg]. cbn in Hmap, Hreg.
    assert (Hin0 : In t []) by (apply Hchar; eauto).
    exact Hin0. }
  split; [exact E|]. rewrite E. split; [exact Hnd|exact Hchar].
Qed.

Lemma enhanced_discovery_needs_no_legacy_fallback_witness :
  let st := managerOf [zeroXAdapter; healthyAdapter "odos" 5%N] in
  let supported := getEnhancedSupportedAggregators (CNum 1) st in
  supported = discoverAggregators (CNum 1) (evmAggregators st) []
  /\ List.NoDup supported
  /\ forall t,
       In t supported
       <-> exists a,
             In a (Map_values (evmAggregators st))
             /\ supportsChain a (CNum 1) = true
             /\ mapProviderNameToAggregatorType (getProviderName a) = Some t.
Proof.
  intros st.
  apply (enhanced_discovery_needs_no_legacy_fallback (CNum 1) st).
  apply (registry_consistent_register_all
           [AnEvmAggregator zeroXAdapter;
            AnEvmAggregator (healthyAdapter "odos" 5%N)]),
    registry_consistent_new.
Defined.

(** ** Routing *)

Lemma determineSwapType_autoDetect request :
  determineSwapType request = autoDetect request.
Proof.
  rewrite determineSwapType_closed.
  destruct (swapType request) as [provided|]; [|reflexivity].
  destruct (autoDetect request) as [detected|m]; [|reflexivity].
  destruct (bool_decide (detected = provided)) eqn:E; [|reflexivity].
  apply bool_decide_eq_true in E. congruence.
Qed.

Lemma determineEvmSwapType_range a b :
  determineEvmSwapType a b = L1_TO_L2 \/ determineEvmSwapType a b = L2_TO_L1
  \/ determineEvmSwapType a b = L2_TO_L2
  \/ determineEvmSwapType a b = CROSS_CHAIN.
Proof.
  unfold determineEvmSwapType.
  repeat match goal with |- context [if ?b then _ else _] => destruct b end;
    auto.
Qed.

Lemma determineSwapType_classified (request : UniversalSwapRequestDto) :
  let sell := chain (u_sellToken request) in
  let buy := chain (u_buyToken request) in
  exists t,
    determineSwapType request = Ok t
    /\ (t = ON_CHAIN
        <-> ecosystem sell = ecosystem buy
            /\ strict_eq (ci_chainId sell) (ci_chainId buy) = true)
    /\ (t = NATIVE_SWAP
        <-> ecosystem sell <> ecosystem buy
            /\ isNativeL1Swap (ecosystem sell) (ecosystem buy) = true)
    /\ (t = L1_TO_L2 \/ t = L2_TO_L1 \/ t = L2_TO_L2 ->
        ecosystem sell = EVM /\ ecosystem buy = EVM
        /\ strict_eq (ci_chainId sell) (ci_chainId buy) = false
        /\ t = determineEvmSwapType (ci_chainId sell) (ci_chainId buy)).
Proof.
  intros sell buy.
  rewrite determineSwapType_autoDetect. unfold autoDetect.
  fold sell. fold buy.
  destruct (decide (ecosystem sell = ecosystem buy)) as [Heco|Heco].
  + rewrite (bool_decide_eq_true_2 _ Heco).
    destruct (strict_eq (ci_chainId sell) (ci_chainId buy)) eqn:Eid; cbn.
    * exists ON_CHAIN. split; [reflexivity|].
      split; [tauto|]. split; [split; [discriminate|tauto]|].
      intros [H|[H|H]]; discriminate.
    * destruct (decide (ecosystem sell = EVM)) as [Hevm|Hevm].
      -- rewrite (bool_decide_eq_true_2 _ Hevm).
         eexists. split; [reflexivity|].
         pose proof (determineEvmSwapType_range (ci_chainId sell)
                       (ci_chainId buy)) as Hr.
         split; [split; [intros H; rewrite H in Hr; intuition discriminate
                        |intros [_ H]; discriminate]|].
         split; [split; [intros H; rewrite H in Hr; intuition discriminate
                        |tauto]|].
         intros _. repeat split; congruence.
      -- rewrite (bool_decide_eq_false_2 _ Hevm).
         exists CROSS_CHAIN. split; [reflexivity|].
         split; [split; [discriminate|intros [_ H]; discriminate]|].
         split; [split; [discriminate|tauto]|].
         intros [H|[H|H]]; discriminate.
  + rewrite (bool_decide_eq_false_2 _ Heco). cbn.
    destruct (isNativeL1Swap (ecosystem sell) (ecosystem buy)).
    * exists NATIVE_SWAP. split; [reflexivity|].
      split; [split; [discriminate|tauto]|].
      split; [tauto|]. intros [H|[H|H]]; discriminate.
    * exists CROSS_CHAIN. split; [reflexivity|].
      split; [split; [discriminate|tauto]|].
      split; [split; [discriminate|intros [_ H]; discriminate]|].
      intros [H|[H|H]]; discriminate.
Qed.

(** X15.  The type [determineSwapType] gives a request depends only on the
    two chains: an explicit [swapType] never changes it.  The call never
    throws.  The type is on-chain exactly for one ecosystem and strictly
    equal chain ids, native exactly for different ecosystems with Bitcoin,
    THORChain, Maya or Cosmos on a side, and one of the three L1/L2 types
    only between two different chains of the EVM ecosystem. *)
Theorem swap_type_depends_on_chains_only (request : UniversalSwapRequestDto) :
  let sell := chain (u_sellToken request) in
  let buy := chain (u_buyToken request) in
  (forall s,
      determineSwapType (with_swapType s request) = determineSwapType request)
  /\ exists t,
       determineSwapType request = Ok t
       /\ (t = ON_CHAIN
           <-> ecosystem sell = ecosystem buy
               /\ strict_eq (ci_chainId sell) (ci_chainId buy) = true)
       /\ (t = NATIVE_SWAP
           <-> ecosystem sell <> ecosystem buy
               /\ isNativeL1Swap (ecosystem sell) (ecosystem buy) = true)
       /\ (t = L1_TO_L2 \/ t = L2_TO_L1 \/ t = L2_TO_L2 ->
           ecosystem sell = EVM /\ ecosystem buy = EVM
           /\ strict_eq (ci_chainId sell) (ci_chainId buy) = false
           /\ t = determineEvmSwapType (ci_chainId sell) (ci_chainId buy)).
Proof.
  intros sell buy. split.
  - intros s. rewrite !determineSwapType_autoDetect.
    apply autoDetect_with_swapType.
  - exact (determineSwapType_classified request).
Qed.

Lemma convertToLegacyParams_value request lp :
  convertToLegacyParams request = Ok lp -> lp = legacyParamsOf request.
Proof.
  unfold convertToLegacyParams.
  repeat match goal with |- context [if ?b then _ else _] => destruct b end;
    intros [= <-]; reflexivity.
Qed.

Section RoutingTheorems.
Variable StringToNumber : string -> option Z.

(** X16.  A request that passes [validateChainCompatibility] always gets a
    swap type, and its provider category is then decided as follows: the
    EVM aggregators only for an on-chain swap between EVM chains, for which
    [convertToLegacyParams] succeeds on the chain of the sell token; the
    Solana routers only for an on-chain Solana swap; the native routers
    exactly for a native swap; and [determineProviderCategory] throws
    exactly for an on-chain swap inside Cosmos, Bitcoin, THORChain or Maya,
    ecosystems that the chain check accepts. *)
Theorem validated_request_routing (svc : SwapRoutingService)
    (request : UniversalSwapRequestDto) :
  validateChainCompatibility StringToNumber svc request = true ->
  let sell := ecosystem (chain (u_sellToken request)) in
  let buy := ecosystem (chain (u_buyToken request)) in
  exists t,
    determineSwapType request = Ok t
    /\ match determineProviderCategory t request with
       | Ok evm_aggregators =>
           t = ON_CHAIN /\ sell = EVM /\ buy = EVM
           /\ convertToLegacyParams request = Ok (legacyParamsOf request)
       | Ok cat_solana => t = ON_CHAIN /\ sell = SOLANA /\ buy = SOLANA
       | Ok cat_meta => t <> ON_CHAIN /\ t <> NATIVE_SWAP
       | Ok native_l1 => t = NATIVE_SWAP /\ sell <> buy
       | Throw _ =>
           t = ON_CHAIN /\ sell = buy
           /\ In sell [COSMOS; BITCOIN; THORCHAIN; MAYA]
       end.
Proof.
  intros Hvalid sell buy.
  destruct (determineSwapType_classified request)
    as (t & Ht & Hon & Hnat & Hl).
  exists t. split; [exact Ht|].
  unfold validateChainCompatibility in Hvalid.
  fold sell in Hvalid. fold buy in Hvalid. cbn zeta in Hon, Hnat, Hl.
  fold sell in Hon, Hnat, Hl. fold buy in Hon, Hnat, Hl.
  assert (Hs : isSupportedEcosystem sell = true)
    by (destruct (isSupportedEcosystem sell); [reflexivity|discriminate]).
  assert (Hb : isSupportedEcosystem buy = true)
    by (destruct (isSupportedEcosystem buy);
        [reflexivity|rewrite orb_true_r in Hvalid; discriminate]).
  clear Hvalid.
  destruct t; cbn [determineProviderCategory].
  - destruct Hon as [[Heco Hid] _]; [reflexivity|].
    unfold getOnChainProviderCategory, convertToLegacyParams.
    fold sell. fold buy. rewrite <- Heco in *. rewrite Hid.
    destruct sell; try discriminate Hs; cbn;
      repeat split; auto 6.
  - split; discriminate.
  - split; discriminate.
  - split; discriminate.
  - split; discriminate.
  - destruct Hnat as [[Hne _] _]; [reflexivity|]. auto.
Qed.

End RoutingTheorems.

Lemma validated_request_routing_witness :
  exists t,
    determineSwapType (sampleRequest (CNum 1)) = Ok t
    /\ match determineProviderCategory t (sampleRequest (CNum 1)) with
       | Ok evm_aggregators =>
           t = ON_CHAIN /\ EVM = EVM /\ EVM = EVM
           /\ convertToLegacyParams (sampleRequest (CNum 1))
              = Ok (legacyParamsOf (sampleRequest (CNum 1)))
       | Ok cat_solana => t = ON_CHAIN /\ EVM = SOLANA /\ EVM = SOLANA
       | Ok cat_meta => t <> ON_CHAIN /\ t <> NATIVE_SWAP
       | Ok native_l1 => t = NATIVE_SWAP /\ EVM <> EVM
       | Throw _ =>
           t = ON_CHAIN /\ EVM = EVM /\ In EVM [COSMOS; BITCOIN; THORCHAIN; MAYA]
       end.
Proof.
  apply (validated_request_routing StringToNumber_none emptyRouting
           (sampleRequest (CNum 1))).
  reflexivity.
Defined.



(** ** Approvals *)

Section ApprovalTheorems.
Variable isAddress : string -> bool.
Variable wallet : WalletService.
Variable permit2Allowance :
  chain_id -> string -> string -> string -> result Permit2Allowance.

Lemma approvalStatusBody_valid (n : Z) (tokenAddress owner spender : string)
    (amount : option JS.Amount) :
  0 < n ->
  validateTokenAddress isAddress tokenAddress = Ok tt ->
  validateWalletAddress isAddress owner = Ok tt ->
  validateWalletAddress isAddress spender = Ok tt ->
  approvalStatusBody isAddress wallet (CNum n) tokenAddress owner spender amount
  = if isNativeToken tokenAddress then
      Ok {| currentAllowance := 0%N; isApprovalNeeded := false;
            tokenInfo := None; isPermit2Compatible := false;
            as_permit2Address := None |}
    else
      JS.bind (getAllowance wallet (CNum n) tokenAddress owner spender)
        (fun allowance =>
      JS.bind (getTokenInfo wallet (CNum n) tokenAddress) (fun info =>
        let compatible :=
          if isPermit2Supported (CNum n)
          then isTokenPermit2Compatible wallet (CNum n) tokenAddress
          else false in
        let needed :=
          match amount with
          | Some required => JS.BigInt allowance <? JS.BigInt required
          | None => JS.BigInt allowance =? JS.BigInt 0%N
          end in
        Ok {| currentAllowance := allowance; isApprovalNeeded := needed;
              tokenInfo := Some info; isPermit2Compatible := compatible;
              as_permit2Address :=
                if compatible then Some permit2Address else None |})).
Proof.
  intros Hn Ht Ho Hs. unfold approvalStatusBody.
  replace ((n =? 0) || (n <=? 0)) with false by lia.
  rewrite Ht, Ho, Hs. reflexivity.
Qed.

(** X19.  For valid inputs and a token that is not native, given an amount,
    [getApprovalStatus] reports the allowance read from the chain and asks
    for an approval exactly when that allowance is below the amount; so an
    approval that suffices for an amount suffices for every smaller one.
    It names the Permit2 contract exactly when it reports the token as
    Permit2 compatible, which happens only on a chain that has Permit2. *)
Theorem approval_status_with_amount (n : Z)
    (tokenAddress owner spender : string) (allowance amount : JS.Amount)
    (info : TokenMeta) :
  0 < n ->
  validateTokenAddress isAddress tokenAddress = Ok tt ->
  validateWalletAddress isAddress owner = Ok tt ->
  validateWalletAddress isAddress spender = Ok tt ->
  isNativeToken tokenAddress = false ->
  getAllowance wallet (CNum n) tokenAddress owner spender = Ok allowance ->
  getTokenInfo wallet (CNum n) tokenAddress = Ok info ->
  exists r,
    getApprovalStatus isAddress wallet (CNum n) tokenAddress owner spender
      (Some amount) = Ok r
    /\ currentAllowance r = allowance
    /\ tokenInfo r = Some info
    /\ (isApprovalNeeded r = true <-> (allowance < amount)%N)
    /\ (forall smaller r',
          (smaller <= amount)%N ->
          getApprovalStatus isAddress wallet (CNum n) tokenAddress owner spender
            (Some smaller) = Ok r' ->
          isApprovalNeeded r = false -> isApprovalNeeded r' = false)
    /\ (as_permit2Address r = Some permit2Address
        <-> isPermit2Compatible r = true)
    /\ (isPermit2Compatible r = true -> isPermit2Supported (CNum n) = true).
Proof.
  intros Hn Ht Ho Hs Hnat Ha Hi.
  unfold getApprovalStatus.
  rewrite approvalStatusBody_valid by assumption.
  rewrite Hnat, Ha, Hi. cbn [JS.bind]. cbn zeta.
  set (compatible :=
         if isPermit2Supported (CNum n)
         then isTokenPermit2Compatible wallet (CNum n) tokenAddress
         else false).
  assert (Hcomp : compatible = true -> isPermit2Supported (CNum n) = true).
  { unfold compatible. destruct (isPermit2Supported (CNum n)); auto. }
  clearbody compatible.
  eexists. split; [reflexivity|]. cbn [currentAllowance tokenInfo
    isApprovalNeeded as_permit2Address isPermit2Compatible].
  split; [reflexivity|]. split; [reflexivity|].
  split; [unfold JS.BigInt; rewrite Z.ltb_lt; lia|].
  split.
  - intros smaller r' Hle.
    rewrite approvalStatusBody_valid by assumption.
    rewrite Hnat, Ha, Hi. cbn [JS.bind]. intros [= <-].
    cbn [isApprovalNeeded].
    unfold JS.BigInt. rewrite !Z.ltb_ge. lia.
  - split; [|exact Hcomp].
    destruct compatible; split; intros H; congruence.
Qed.

(** X20.  The native token (the zero address, in any letter case) needs no
    approval: [isApprovalNeeded] answers false on any chain and
    [getApprovalStatus], for valid inputs, answers a zero allowance with no
    token information, without reading anything from the chain; Permit2 is
    never available for it.  The address ["0xeeee...eeee"] is not taken as
    native by these checks. *)
Theorem native_token_needs_no_approval (now n : Z) (chain : chain_id)
    (tokenAddress owner spender : string) (amount : JS.Amount)
    (optionalAmount : option JS.Amount) :
  isNativeToken tokenAddress = true ->
  ApprovalService.isApprovalNeeded wallet permit2Allowance now chain
    tokenAddress owner spender amount = Ok false
  /\ ApprovalService.isPermit2Available wallet chain tokenAddress = false
  /\ (0 < n ->
      validateTokenAddress isAddress tokenAddress = Ok tt ->
      validateWalletAddress isAddress owner = Ok tt ->
      validateWalletAddress isAddress spender = Ok tt ->
      getApprovalStatus isAddress wallet (CNum n) tokenAddress owner spender
        optionalAmount
      = Ok {| currentAllowance := 0%N; isApprovalNeeded := false;
              tokenInfo := None; isPermit2Compatible := false;
              as_permit2Address := None |})
  /\ isNativeToken nativeEthAddress = false.
Proof.
  intros Hnat.
  split; [unfold ApprovalService.isApprovalNeeded; rewrite Hnat; reflexivity|].
  split; [unfold ApprovalService.isPermit2Available; rewrite Hnat; reflexivity|].
  split; [|reflexivity].
  intros Hn Ht Ho Hs. unfold getApprovalStatus.
  rewrite approvalStatusBody_valid by assumption. rewrite Hnat. reflexivity.
Qed.

(** X21.  [getApprovalStatus] checks the chain id, then the token, the owner
    and the spender, and reads the chain only after all four.  A chain id
    that is zero, negative or not a number and an address of the wrong
    format are reported with the validation message itself; an empty
    address is reported as a failure of the service, with the message
    prefixed. *)
Theorem approval_status_rejections (chain : chain_id)
    (tokenAddress owner spender : string) (amount : option JS.Amount) :
  let status :=
    getApprovalStatus isAddress wallet chain tokenAddress owner spender amount in
  let validChain := match chain with CNum n => 0 <? n | _ => false end in
  (validChain = false -> status = Throw "Invalid chain ID")
  /\ (validChain = true -> tokenAddress = ""%string ->
      status = Throw "Failed to get approval status: Token address is required")
  /\ (validChain = true -> tokenAddress <> ""%string ->
      isAddress tokenAddress = false ->
      status = Throw "Invalid token address format")
  /\ (validChain = true ->
      validateTokenAddress isAddress tokenAddress = Ok tt ->
      owner = ""%string ->
      status = Throw "Failed to get approval status: Wallet address is required")
  /\ (validChain = true ->
      validateTokenAddress isAddress tokenAddress = Ok tt ->
      owner <> ""%string -> isAddress owner = false ->
      status = Throw "Invalid wallet address format")
  /\ (validChain = true ->
      validateTokenAddress isAddress tokenAddress = Ok tt ->
      validateWalletAddress isAddress owner = Ok tt ->
      spender = ""%string ->
      status = Throw "Failed to get approval status: Wallet address is required")
  /\ (validChain = true ->
      validateTokenAddress isAddress tokenAddress = Ok tt ->
      validateWalletAddress isAddress owner = Ok tt ->
      spender <> ""%string -> isAddress spender = false ->
      status = Throw "Invalid wallet address format").
Proof.
  intros status validChain. subst status.
  unfold getApprovalStatus, approvalStatusBody.
  assert (Hbad : validChain = false ->
            match chain with
            | CNum n => (n =? 0) || (n <=? 0)
            | _ => true
            end = true).
  { unfold validChain. destruct chain; try reflexivity. intros H. lia. }
  assert (Hgood : validChain = true ->
            match chain with
            | CNum n => (n =? 0) || (n <=? 0)
            | _ => true
            end = false).
  { unfold validChain. destruct chain; try discriminate. intros H. lia. }
  assert (Hempty : forall s, s <> ""%string -> string_truthy s = true).
  { intros s Hs. unfold string_truthy. destruct (String.eqb_spec s "");
      [contradiction|reflexivity]. }
  split; [intros H; rewrite (Hbad H); reflexivity|].
  split; [intros H ->; rewrite (Hgood H); reflexivity|].
  split.
  { intros H Hne Hf. rewrite (Hgood H). unfold validateTokenAddress.
    rewrite (Hempty _ Hne), Hf. reflexivity. }
  split; [intros H Ht ->; rewrite (Hgood H), Ht; reflexivity|].
  split.
  { intros H Ht Hne Hf. rewrite (Hgood H), Ht. unfold validateWalletAddress.
    rewrite (Hempty _ Hne), Hf. reflexivity. }
  split; [intros H Ht Ho ->; rewrite (Hgood H), Ht, Ho; reflexivity|].
  intros H Ht Ho Hne Hf. rewrite (Hgood H), Ht, Ho.
  unfold validateWalletAddress. rewrite (Hempty _ Hne), Hf. reflexivity.
Qed.

(** X22.  For a token that is not native, [isApprovalNeeded] looks at one
    allowance only.  If the token is Permit2 compatible it is the allowance
    of the Permit2 contract: no approval is needed exactly when that
    allowance can be read, has not expired and covers the amount, and any
    failure counts as "needed"; the ERC-20 allowance of the spender plays
    no role.  Otherwise it is the ERC-20 allowance, and an approval is
    needed exactly when it is below the amount. *)
Theorem approval_need_reads_one_allowance (now : Z) (chain : chain_id)
    (tokenAddress owner spender : string) (amount : JS.Amount) :
  isNativeToken tokenAddress = false ->
  (isTokenPermit2Compatible wallet chain tokenAddress = true ->
   ApprovalService.isApprovalNeeded wallet permit2Allowance now chain
     tokenAddress owner spender amount
   = Ok match permit2Allowance chain owner tokenAddress spender with
        | Ok a =>
            (pa_expiration a <? now / 1000) || (pa_amount a <? amount)%N
        | Throw _ => true
        end)
  /\ (isTokenPermit2Compatible wallet chain tokenAddress = false ->
      forall allowance,
        getAllowance wallet chain tokenAddress owner spender = Ok allowance ->
        ApprovalService.isApprovalNeeded wallet permit2Allowance now chain
          tokenAddress owner spender amount
        = Ok (allowance <? amount)%N).
Proof.
  intros Hnat. unfold ApprovalService.isApprovalNeeded. rewrite Hnat. split.
  - intros Hc.
    assert (Hs : isPermit2Supported chain = true).
    { unfold isTokenPermit2Compatible in Hc.
      destruct (isPermit2Supported chain); [reflexivity|discriminate]. }
    rewrite Hs, Hc. cbn [andb].
    unfold ApprovalService.isPermit2ApprovalNeeded, getPermit2Address.
    rewrite Hc, Hs. cbn [negb JS.bind].
    destruct (permit2Allowance chain owner tokenAddress spender) as [a|m];
      cbn [JS.bind]; [|reflexivity].
    unfold JS.BigInt.
    replace (Z.of_N (pa_amount a) <? Z.of_N amount)
      with (pa_amount a <? amount)%N
      by (destruct (N.ltb_spec (pa_amount a) amount);
          destruct (Z.ltb_spec (Z.of_N (pa_amount a)) (Z.of_N amount)); lia).
    destruct ((pa_expiration a <? now / 1000) || (pa_amount a <? amount)%N);
      reflexivity.
  - intros Hc allowance Ha. rewrite Hc, andb_false_r, Ha. cbn [JS.bind].
    unfold JS.BigInt.
    replace (Z.of_N allowance <? Z.of_N amount) with (allowance <? amount)%N
      by (destruct (N.ltb_spec allowance amount);
          destruct (Z.ltb_spec (Z.of_N allowance) (Z.of_N amount)); lia).
    reflexivity.
Qed.

(** X23.  [createPermit2Signature] never returns a signature: whatever its
    arguments it throws, and for arguments that pass every check the error
    says that Permit2 signatures are disabled. *)
Theorem permit2_signature_is_never_created (chain : chain_id)
    (privateKey tokenAddress spender : string) (amount : JS.Amount)
    (deadline : Z) :
  (exists message,
      ApprovalService.createPermit2Signature isAddress wallet chain privateKey
        tokenAddress spender amount deadline = Throw message)
  /\ (validatePrivateKey privateKey = Ok tt ->
      validateTokenAddress isAddress tokenAddress = Ok tt ->
      validateWalletAddress isAddress spender = Ok tt ->
      isNativeToken tokenAddress = false ->
      isTokenPermit2Compatible wallet chain tokenAddress = true ->
      ApprovalService.createPermit2Signature isAddress wallet chain privateKey
        tokenAddress spender amount deadline
      = Throw "Failed to create Permit2 signature: Permit2 signatures temporarily disabled. Use standard ERC-20 approvals or new permit2 workflow service.").
Proof.
  unfold ApprovalService.createPermit2Signature. split.
  - match goal with
    | |- exists m, match ?b with Ok _ => _ | Throw _ => _ end = _ =>
        assert (H : exists m, b = Throw m)
    end.
    { destruct (validatePrivateKey privateKey) as [[]|m]; cbn [JS.bind]; [|eauto].
      destruct (validateTokenAddress isAddress tokenAddress) as [[]|m];
        cbn [JS.bind]; [|eauto].
      destruct (validateWalletAddress isAddress spender) as [[]|m];
        cbn [JS.bind]; [|eauto].
      repeat match goal with |- context [if ?b then _ else _] => destruct b end;
        eauto. }
    destruct H as [m ->]. destruct (isValidationError m); eauto.
  - intros Hk Ht Hs Hnat Hc. rewrite Hk, Ht, Hs. cbn [JS.bind].
    assert (Hsup : isPermit2Supported chain = true).
    { unfold isTokenPermit2Compatible in Hc.
      destruct (isPermit2Supported chain); [reflexivity|discriminate]. }
    rewrite Hnat, Hsup, Hc. reflexivity.
Qed.

(** X24.  For a token that is Permit2 compatible and a positive amount, a
    Permit2 approval is not needed exactly when [getPermit2Allowance]
    returns an allowance that covers the amount: the two methods agree on
    expiry, since an expired allowance is returned as zero. *)
Theorem permit2_need_agrees_with_allowance (now : Z) (chain : chain_id)
    (tokenAddress owner spender : string) (amount : JS.Amount) :
  isTokenPermit2Compatible wallet chain tokenAddress = true ->
  (0 < amount)%N ->
  ApprovalService.isPermit2ApprovalNeeded wallet permit2Allowance now chain
    tokenAddress owner spender amount = false
  <-> exists allowance,
        ApprovalService.getPermit2Allowance permit2Allowance now chain
          tokenAddress owner spender = Ok allowance
        /\ (amount <= allowance)%N.
Proof.
  intros Hc Hpos.
  assert (Hs : isPermit2Supported chain = true).
  { unfold isTokenPermit2Compatible in Hc.
    destruct (isPermit2Supported chain); [reflexivity|discriminate]. }
  unfold ApprovalService.isPermit2ApprovalNeeded,
    ApprovalService.getPermit2Allowance, getPermit2Address.
  rewrite Hc, Hs. cbn [negb JS.bind].
  destruct (permit2Allowance chain owner tokenAddress spender) as [a|m];
    cbn [JS.bind].
  - unfold JS.BigInt.
    destruct (Z.ltb_spec (pa_expiration a) (now / 1000)); cbn [orb].
    + split; [discriminate|]. intros (allowance & [= <-] & Hle). lia.
    + destruct (Z.ltb_spec (Z.of_N (pa_amount a)) (Z.of_N amount)).
      * split; [discriminate|]. intros (allowance & [= <-] & Hle). lia.
      * split; [|reflexivity]. intros _. exists (pa_amount a).
        split; [reflexivity|lia].
  - split; [discriminate|]. intros (allowance & H & _). discriminate.
Qed.

End ApprovalTheorems.

Lemma approval_status_with_amount_witness :
  exists r,
    getApprovalStatus isAddress_shape (sampleWallet 5%N 0%N) (CNum 1) sampleToken
      sampleOwner sampleSpender (Some 7%N) = Ok r
    /\ currentAllowance r = 5%N
    /\ tokenInfo r = Some {| tm_symbol := "USDT"; tm_decimals := 6 |}
    /\ (isApprovalNeeded r = true <-> (5 < 7)%N)
    /\ (forall smaller r',
          (smaller <= 7)%N ->
          getApprovalStatus isAddress_shape (sampleWallet 5%N 0%N) (CNum 1)
            sampleToken sampleOwner sampleSpender (Some smaller) = Ok r' ->
          isApprovalNeeded r = false -> isApprovalNeeded r' = false)
    /\ (as_permit2Address r = Some permit2Address
        <-> isPermit2Compatible r = true)
    /\ (isPermit2Compatible r = true -> isPermit2Supported (CNum 1) = true).
Proof.
  apply (approval_status_with_amount isAddress_shape (sampleWallet 5%N 0%N) 1
           sampleToken sampleOwner sampleSpender 5%N 7%N
           {| tm_symbol := "USDT"; tm_decimals := 6 |});
    first [lia | reflexivity].
Defined.

Lemma native_token_needs_no_approval_witness :
  ApprovalService.isApprovalNeeded (sampleWallet 5%N 0%N)
    (fun _ _ _ _ => Throw "unreachable") 0 (CNum 1) nativeTokenAddress
    sampleOwner sampleSpender 7%N = Ok false
  /\ ApprovalService.isPermit2Available (sampleWallet 5%N 0%N) (CNum 1)
       nativeTokenAddress = false
  /\ (0 < 1 ->
      validateTokenAddress isAddress_shape nativeTokenAddress = Ok tt ->
      validateWalletAddress isAddress_shape sampleOwner = Ok tt ->
      validateWalletAddress isAddress_shape sampleSpender = Ok tt ->
      getApprovalStatus isAddress_shape (sampleWallet 5%N 0%N) (CNum 1)
        nativeTokenAddress sampleOwner sampleSpender (Some 7%N)
      = Ok {| currentAllowance := 0%N; isApprovalNeeded := false;
              tokenInfo := None; isPermit2Compatible := false;
              as_permit2Address := None |})
  /\ isNativeToken nativeEthAddress = false.
Proof.
  apply (native_token_needs_no_approval isAddress_shape (sampleWallet 5%N 0%N)
           (fun _ _ _ _ => Throw "unreachable") 0 1 (CNum 1)
           nativeTokenAddress sampleOwner sampleSpender 7%N (Some 7%N)).
  reflexivity.
Defined.

Lemma approval_need_reads_one_allowance_witness :
  (isTokenPermit2Compatible (sampleWallet 0%N 0%N) (CNum 1) sampleToken = true ->
   ApprovalService.isApprovalNeeded (sampleWallet 0%N 0%N)
     (fun _ _ _ _ =>
        Ok {| pa_amount := 9%N; pa_expiration := 2000; pa_nonce := 0 |})
     1000000 (CNum 1) sampleToken sampleOwner sampleSpender 7%N
   = Ok ((2000 <? 1000000 / 1000) || (9 <? 7)%N))
  /\ (isTokenPermit2Compatible (sampleWallet 0%N 0%N) (CNum 1) sampleToken
      = false ->
      forall allowance,
        getAllowance (sampleWallet 0%N 0%N) (CNum 1) sampleToken sampleOwner
          sampleSpender = Ok allowance ->
        ApprovalService.isApprovalNeeded (sampleWallet 0%N 0%N)
          (fun _ _ _ _ =>
             Ok {| pa_amount := 9%N; pa_expiration := 2000; pa_nonce := 0 |})
          1000000 (CNum 1) sampleToken sampleOwner sampleSpender 7%N
        = Ok (allowance <? 7)%N).
Proof.
  apply (approval_need_reads_one_allowance (sampleWallet 0%N 0%N)
           (fun _ _ _ _ =>
              Ok {| pa_amount := 9%N; pa_expiration := 2000; pa_nonce := 0 |})
           1000000 (CNum 1) sampleToken sampleOwner sampleSpender 7%N).
  reflexivity.
Defined.

Lemma permit2_need_agrees_with_allowance_witness :
  ApprovalService.isPermit2ApprovalNeeded (sampleWallet 0%N 0%N)
    (fun _ _ _ _ =>
       Ok {| pa_amount := 9%N; pa_expiration := 2000; pa_nonce := 0 |})
    1000000 (CNum 1) sampleToken sampleOwner sampleSpender 7%N = false
  <-> exists allowance,
        ApprovalService.getPermit2Allowance
          (fun _ _ _ _ =>
             Ok {| pa_amount := 9%N; pa_expiration := 2000; pa_nonce := 0 |})
          1000000 (CNum 1) sampleToken sampleOwner sampleSpender = Ok allowance
        /\ (7 <= allowance)%N.
Proof.
  apply (permit2_need_agrees_with_allowance (sampleWallet 0%N 0%N)
           (fun _ _ _ _ =>
              Ok {| pa_amount := 9%N; pa_expiration := 2000; pa_nonce := 0 |})
           1000000 (CNum 1) sampleToken sampleOwner sampleSpender 7%N).
  - reflexivity.
  - reflexivity.
Defined.

(** ** The Permit2 workflow *)

(** X25.  [createSignedQuote] succeeds exactly when [processPermit2Quote]
    does, and then returns the quote with its [data] replaced by the
    spliced payload and every other field as it was.  It throws the error
    of [processPermit2Quote]: the plain message for a quote without Permit2
    data, and the prefixed message of the signer or of the splice
    otherwise. *)
Theorem signed_quote_changes_only_data
    (sign : chain_id -> string -> Permit2Data -> result string)
    (q : SwapQuote) (privateKey : string) (chain : chain_id) :
  match createSignedQuote sign q privateKey chain with
  | Ok signed =>
      exists r data,
        processPermit2Quote sign q privateKey chain = Ok r
        /\ permit2 q = Some data
        /\ sign chain privateKey data = Ok (pr_signature r)
        /\ appendSignatureToTxData (q_data q) (pr_signature r)
           = Ok (modifiedTxData r)
        /\ q_data signed = modifiedTxData r
        /\ (q_sellToken signed, q_buyToken signed, q_sellAmount signed,
            buyAmount signed, minBuyAmount signed, q_gas signed, q_to signed,
            q_value signed, allowanceTarget signed, q_aggregator signed,
            permit2 signed, q_approvalStrategy signed)
           = (q_sellToken q, q_buyToken q, q_sellAmount q, buyAmount q,
              minBuyAmount q, q_gas q, q_to q, q_value q, allowanceTarget q,
              q_aggregator q, permit2 q, q_approvalStrategy q)
  | Throw message =>
      processPermit2Quote sign q privateKey chain = Throw message
      /\ match permit2 q with
         | None => message = "Quote does not contain permit2 data"%string
         | Some data =>
             exists cause,
               message = ("Permit2 workflow failed: " ++ cause)%string
               /\ (sign chain privateKey data = Throw cause
                   \/ exists signature,
                        sign chain privateKey data = Ok signature
                        /\ appendSignatureToTxData (q_data q) signature
                           = Throw cause)
         end
  end.
Proof.
  unfold createSignedQuote, processPermit2Quote.
  destruct (permit2 q) as [data|]; cbn [JS.bind]; [|auto].
  destruct (sign chain privateKey data) as [signature|m] eqn:Es;
    cbn [JS.bind].
  - destruct (appendSignatureToTxData (q_data q) signature) as [modified|m]
      eqn:Ea; cbn [JS.bind].
    + eexists _, data. cbn. repeat split; auto.
    + split; [reflexivity|]. exists m. split; [reflexivity|]. right. eauto.
  - split; [reflexivity|]. exists m. auto.
Qed.

(** X26.  [appendSignatureToTxData] never throws on a signature of fewer
    than 2^256 characters, whatever the two strings are: the result starts
    with ["0x"] and is made of the payload and of the signature, each
    without its first ["0x"], with 64 hex digits between them. *)
Theorem signature_splice_never_fails (transactionData signature : string) :
  (N.of_nat (String.length signature) < 2 ^ 256)%N ->
  exists lengthDigits,
    String.length lengthDigits = 64%nat
    /\ appendSignatureToTxData transactionData signature
       = Ok ("0x" ++ Viem.replace0x transactionData ++ lengthDigits
             ++ Viem.replace0x signature)%string.
Proof.
  intros Hlen.
  assert (Hsize : (Viem.size signature < 2 ^ 256)%N).
  { unfold Viem.size. destruct (String.prefix "0x" signature); [|exact Hlen].
    eapply N.le_lt_trans; [|exact Hlen].
    assert (H : forall k, (Nat.div2 k <= k)%nat).
    { intros k. induction k as [k IH] using lt_wf_ind.
      destruct k as [|[|k]]; cbn; try lia. specialize (IH k). lia. }
    pose proof (H (S (String.length signature - 2))) as H2.
    destruct (String.length signature) as [|[|n]]; cbn in *; lia. }
  exists (hex_of_bytes (uint256_be (Viem.size signature))).
  split.
  - rewrite length_hex_of_bytes. unfold uint256_be. rewrite length_be_bytes.
    reflexivity.
  - unfold appendSignatureToTxData.
    rewrite (numberToHex_uint256 _ Hsize). cbn [JS.bind].
    unfold Viem.concat. cbn [fold_left].
    rewrite replace0x_prefixed. cbn [String.append].
    rewrite !string_app_assoc. reflexivity.
Qed.

Lemma signature_splice_never_fails_witness :
  exists lengthDigits,
    String.length lengthDigits = 64%nat
    /\ appendSignatureToTxData "0xabcd" "aabb"
       = Ok ("0x" ++ Viem.replace0x "0xabcd" ++ lengthDigits
             ++ Viem.replace0x "aabb")%string.
Proof.
  apply (signature_splice_never_fails "0xabcd" "aabb").
  vm_compute. reflexivity.
Defined.

(** ** Slippage arithmetic *)

(** X27.  For an expected amount that is not negative and a slippage
    between 0 and 10000 basis points, [calculateMinReturn] is the exact
    share rounded down and [calculateMaxInput] the exact surcharge rounded
    down: the minimum is between zero and the expected amount, the maximum
    between the expected amount and its double, both are the expected
    amount for a slippage of zero, and a larger slippage never raises the
    minimum nor lowers the maximum. *)
Theorem slippage_bounds (expected slippageBps : Z) :
  0 <= expected ->
  0 <= slippageBps <= 10000 ->
  let lo := calculateMinReturn expected slippageBps in
  let hi := calculateMaxInput expected slippageBps in
  0 <= lo <= expected /\ expected <= hi <= 2 * expected
  /\ 10000 * lo <= expected * (10000 - slippageBps) < 10000 * (lo + 1)
  /\ 10000 * hi <= expected * (10000 + slippageBps) < 10000 * (hi + 1)
  /\ calculateMinReturn expected 0 = expected
  /\ calculateMaxInput expected 0 = expected
  /\ (forall larger,
        slippageBps <= larger <= 10000 ->
        calculateMinReturn expected larger <= lo
        /\ hi <= calculateMaxInput expected larger).
Proof.
  intros He Hb lo hi. subst lo hi.
  unfold calculateMinReturn, calculateMaxInput. cbn zeta.
  assert (Hq : forall a, 0 <= a -> Z.quot a 10000 = a / 10000).
  { intros a Ha. apply Z.quot_div_nonneg; lia. }
  assert (Hpos : forall k, 0 <= k -> 0 <= expected * k).
  { intros k Hk. apply Z.mul_nonneg_nonneg; lia. }
  assert (Hmono : forall j k, j <= k -> expected * j <= expected * k).
  { intros j k Hjk. apply Z.mul_le_mono_nonneg_l; lia. }
  rewrite (Hq (expected * (10000 - slippageBps))) by (apply Hpos; lia).
  rewrite (Hq (expected * (10000 + slippageBps))) by (apply Hpos; lia).
  rewrite (Hq (expected * (10000 - 0))) by (apply Hpos; lia).
  rewrite (Hq (expected * (10000 + 0))) by (apply Hpos; lia).
  replace (expected * (10000 - 0)) with (expected * 10000) by lia.
  replace (expected * (10000 + 0)) with (expected * 10000) by lia.
  rewrite Z.div_mul by lia.
  pose proof (Hpos (10000 - slippageBps) ltac:(lia)) as P1.
  pose proof (Hmono (10000 - slippageBps) 10000 ltac:(lia)) as P1'.
  pose proof (Hmono 10000 (10000 + slippageBps) ltac:(lia)) as P2.
  pose proof (Hmono (10000 + slippageBps) 20000 ltac:(lia)) as P2'.
  pose proof (Z.div_mod (expected * (10000 - slippageBps)) 10000 ltac:(lia)) as D1.
  pose proof (Z.mod_pos_bound (expected * (10000 - slippageBps)) 10000 ltac:(lia))
    as M1.
  pose proof (Z.div_mod (expected * (10000 + slippageBps)) 10000 ltac:(lia)) as D2.
  pose proof (Z.mod_pos_bound (expected * (10000 + slippageBps)) 10000 ltac:(lia))
    as M2.
  set (p1 := expected * (10000 - slippageBps)) in *.
  set (p2 := expected * (10000 + slippageBps)) in *.
  set (q1 := p1 / 10000) in *. set (q2 := p2 / 10000) in *.
  set (r1 := p1 mod 10000) in *. set (r2 := p2 mod 10000) in *.
  clearbody q1 q2 r1 r2.
  split; [lia|]. split; [lia|]. split; [lia|]. split; [lia|].
  split; [reflexivity|]. split; [reflexivity|].
  intros larger Hl.
  rewrite (Hq (expected * (10000 - larger))) by (apply Hpos; lia).
  rewrite (Hq (expected * (10000 + larger))) by (apply Hpos; lia).
  pose proof (Hmono (10000 - larger) (10000 - slippageBps) ltac:(lia)) as L1.
  pose proof (Hmono (10000 + slippageBps) (10000 + larger) ltac:(lia)) as L2.
  fold p1 in L1. fold p2 in L2.
  pose proof (Z.div_le_mono _ _ 10000 ltac:(lia) L1) as L1'.
  pose proof (Z.div_le_mono _ _ 10000 ltac:(lia) L2) as L2'.
  pose proof (Z.div_mod p1 10000 ltac:(lia)) as D1'.
  pose proof (Z.mod_pos_bound p1 10000 ltac:(lia)) as M1'.
  pose proof (Z.div_mod p2 10000 ltac:(lia)) as D2'.
  pose proof (Z.mod_pos_bound p2 10000 ltac:(lia)) as M2'.
  split; lia.
Qed.

Lemma slippage_bounds_witness :
  let lo := calculateMinReturn 1999 50 in
  let hi := calculateMaxInput 1999 50 in
  0 <= lo <= 1999 /\ 1999 <= hi <= 2 * 1999
  /\ 10000 * lo <= 1999 * (10000 - 50) < 10000 * (lo + 1)
  /\ 10000 * hi <= 1999 * (10000 + 50) < 10000 * (hi + 1)
  /\ calculateMinReturn 1999 0 = 1999
  /\ calculateMaxInput 1999 0 = 1999
  /\ (forall larger,
        50 <= larger <= 10000 ->
        calculateMinReturn 1999 larger <= lo
        /\ hi <= calculateMaxInput 1999 larger).
Proof.
  apply (slippage_bounds 1999 50); lia.
Defined.

(** ** The rate-limit guard *)

Section RateLimit.
Import RateLimitGuard.

Lemma ceil_div_window (R t : Z) :
  R - 60000 <= t <= R -> 0 <= ceil_div (R - t) 1000 <= 60.
Proof.
  intros H. unfold ceil_div.
  pose proof (Z.div_mod (- (R - t)) 1000 ltac:(lia)) as D.
  pose proof (Z.mod_pos_bound (- (R - t)) 1000 ltac:(lia)) as M.
  lia.
Qed.

Lemma serve_in_window (clientId : string) (later : list Z) :
  forall (c R : Z) (requests : Requests),
    requests !! clientId = Some {| count := c; resetTime := R |} ->
    1 <= c <= 100 ->
    Forall (fun t => R - 60000 <= t <= R) later ->
    length (serve (map (fun t => (t, clientId)) later) requests).1
    = length later
    /\ forall (k : nat) o,
         (serve (map (fun t => (t, clientId)) later) requests).1 !! k = Some o ->
         (activated o = true <-> Z.of_nat k < 100 - c)
         /\ match o with
            | TooManyRequests retryAfter => 0 <= retryAfter <= 60
            | Activated => True
            end.
Proof.
  induction later as [|t later IH]; intros c R requests Hc Hr Ht.
  - cbn. split; [reflexivity|]. intros k o H. destruct k; discriminate.
  - inversion Ht as [|? ? Ht1 Ht2]; subst.
    assert (Ecan : canActivate t clientId requests
                   = if maxRequests <=? c
                     then (TooManyRequests (ceil_div (R - t) 1000), requests)
                     else (Activated,
                           <[clientId := {| count := c + 1; resetTime := R |}]>
                             requests)).
    { unfold canActivate. rewrite Hc. cbn [resetTime count].
      replace (R <? t) with false by lia. reflexivity. }
    cbn [map serve]. rewrite Ecan. clear Ecan.
    destruct (maxRequests <=? c) eqn:Emax.
    + apply Z.leb_le in Emax. unfold maxRequests in Emax.
      specialize (IH c R requests Hc Hr Ht2).
      destruct (serve (map (fun t0 => (t0, clientId)) later) requests)
        as [outcomes requests'].
      cbn [fst] in *. destruct IH as [IL IH].
      split; [cbn; lia|].
      intros [|k] o H.
      * injection H as <-. cbn. split; [split; [discriminate|lia]|].
        apply ceil_div_window, Ht1.
      * destruct (IH k o H) as [I1 I2]. split; [|exact I2].
        rewrite I1. lia.
    + apply Z.leb_gt in Emax. unfold maxRequests in Emax.
      specialize (IH (c + 1) R
        (<[clientId := {| count := c + 1; resetTime := R |}]> requests)
        (lookup_insert_eq _ _ _) ltac:(lia) Ht2).
      destruct (serve (map (fun t0 => (t0, clientId)) later)
                  (<[clientId := {| count := c + 1; resetTime := R |}]> requests))
        as [outcomes requests'].
      cbn [fst] in *. destruct IH as [IL IH].
      split; [cbn; lia|].
      intros [|k] o H.
      * injection H as <-. cbn. split; [split; [lia|reflexivity]|exact I].
      * destruct (IH k o H) as [I1 I2]. split; [|exact I2].
        rewrite I1. lia.
Qed.


Lemma canActivate_cleanup (swept now : Z) (clientId : string)
    (requests : Requests) :
  swept <= now ->
  canActivate now clientId (cleanup swept requests)
  = ((canActivate now clientId requests).1,
     cleanup swept (canActivate now clientId requests).2).
Proof.
  intros Hle. unfold canActivate, cleanup.
  assert (Hfresh :
    filter (fun entry : string * ClientData => ~ resetTime entry.2 < swept)
      (<[clientId := {| count := 1; resetTime := now + windowMs |}]> requests)
    = <[clientId := {| count := 1; resetTime := now + windowMs |}]>
        (filter (fun entry : string * ClientData => ~ resetTime entry.2 < swept)
           requests)).
  { apply map_filter_insert_True. cbn. unfold windowMs. lia. }
  destruct (requests !! clientId) as [d|] eqn:E.
  - destruct (decide (resetTime d < swept)) as [Hold|Hlive].
    + rewrite (map_lookup_filter_None_2 _ _ clientId)
        by (right; intros x Hx; cbn; congruence).
      replace (resetTime d <? now) with true by lia. cbn [fst snd].
      rewrite Hfresh. reflexivity.
    + rewrite (map_lookup_filter_Some_2 _ _ clientId d E Hlive).
      destruct (resetTime d <? now); cbn [fst snd];
        [rewrite Hfresh; reflexivity|].
      destruct (maxRequests <=? count d); cbn [fst snd]; [reflexivity|].
      rewrite map_filter_insert_True by (cbn; exact Hlive). reflexivity.
  - rewrite (map_lookup_filter_None_2 _ _ clientId) by (left; exact E).
    cbn [fst snd]. rewrite Hfresh. reflexivity.
Qed.


End RateLimit.



(** ** The comparison of QuoteService *)

Section QuoteServiceFacts.

Lemma first_best_ge x l : quoteAmount x <= quoteAmount (first_best x l).
Proof.
  revert x. induction l as [|y l IH]; intros x; cbn; [lia|].
  specialize (IH y).
  destruct (Z.ltb_spec (quoteAmount x) (quoteAmount (first_best y l))); lia.
Qed.

Lemma fold_pick_best_first x l :
  fold_left QuoteService.pick_best l x = first_best x l.
Proof.
  revert x. induction l as [|y l IH]; intros x; [reflexivity|].
  cbn [fold_left]. rewrite IH. unfold QuoteService.pick_best.
  fold (quoteAmount y). fold (quoteAmount x).
  cbn [first_best]. pose proof (first_best_ge y l) as Hy.
  destruct (Z.gtb_spec (quoteAmount y) (quoteAmount x)) as [Hgt|Hle].
  - destruct (Z.ltb_spec (quoteAmount x) (quoteAmount (first_best y l))); [reflexivity|lia].
  - destruct l as [|z l]; cbn [first_best] in *.
    + destruct (Z.ltb_spec (quoteAmount x) (quoteAmount y)); [lia|reflexivity].
    + destruct (Z.ltb_spec (quoteAmount y) (quoteAmount (first_best z l))).
      * reflexivity.
      * destruct (Z.ltb_spec (quoteAmount x) (quoteAmount (first_best z l))); [lia|].
        destruct (Z.ltb_spec (quoteAmount x) (quoteAmount y)); [lia|reflexivity].
Qed.

Lemma sort_desc_head x l :
  exists tail, QuoteService.sort_desc (x :: l) = first_best x l :: tail.
Proof.
  revert x. induction l as [|y l IH]; intros x.
  - exists []. reflexivity.
  - destruct (IH y) as [tail E].
    change (QuoteService.sort_desc (x :: y :: l))
      with (QuoteService.insert_desc x (QuoteService.sort_desc (y :: l))).
    rewrite E. cbn [QuoteService.insert_desc first_best].
    fold (quoteAmount x). fold (quoteAmount (first_best y l)).
    destruct (quoteAmount x <? quoteAmount (first_best y l)); eauto.
Qed.

Lemma last_map_Some {A : Type} (x : A) (l : list A) :
  exists y, List.last (map Some (x :: l)) None = Some y.
Proof.
  revert x. induction l as [|z l IH]; intros x; [cbn; eauto|].
  destruct (IH z) as [y E]. exists y.
  change (List.last (map Some (x :: z :: l)) None)
    with (List.last (map Some (z :: l)) None). exact E.
Qed.

Lemma QuoteService_compare_best x l :
  exists c,
    QuoteService.compareOf (x :: l) = Ok c
    /\ quotes c = x :: l
    /\ bestAggregator c = e_aggregator (first_best x l)
    /\ (l = [] -> priceDifference c = Some "0"%string).
Proof.
  destruct l as [|y l].
  - eexists. cbn. auto.
  - unfold QuoteService.compareOf.
    destruct (sort_desc_head x (y :: l)) as [tail E]. rewrite E.
    assert (Hlast : exists w,
              List.last (map Some (first_best x (y :: l) :: tail)) None = Some w)
      by apply last_map_Some.
    destruct Hlast as [w ->].
    eexists. split; [reflexivity|]. cbn. split; [reflexivity|].
    split; [reflexivity|discriminate].
Qed.

End QuoteServiceFacts.

(** X30.  On any quotes, at least one, the comparison of [QuoteService]
    names as best the aggregator of the very quote that its [getBestQuote]
    selects: the quote of largest [buyAmount] as an integer, the earliest of
    them when several tie.  The comparison returns the quotes as it got
    them, and a single quote gives the price difference ["0"]. *)
Theorem quote_service_comparison_names_best_quote (l : list QuoteEntry) :
  l <> [] ->
  exists best c,
    QuoteService.bestOf l = Ok best
    /\ QuoteService.compareOf l = Ok c
    /\ quotes c = l
    /\ bestAggregator c = e_aggregator best
    /\ (exists before after,
          l = before ++ best :: after
          /\ Forall (fun q => (buyAmount (quote q) < buyAmount (quote best))%N)
               before
          /\ Forall (fun q => (buyAmount (quote q) <= buyAmount (quote best))%N)
               after)
    /\ (length l = 1%nat -> priceDifference c = Some "0"%string).
Proof.
  intros Hne. destruct l as [|x l]; [congruence|]. clear Hne.
  destruct (QuoteService_compare_best x l) as (c & Hc & Hq & Hb & Hd).
  exists (first_best x l), c.
  split.
  { unfold QuoteService.bestOf, reduce. cbn [length Nat.eqb].
    rewrite fold_pick_best_first. reflexivity. }
  split; [exact Hc|]. split; [exact Hq|]. split; [exact Hb|].
  split.
  - clear. revert x. induction l as [|y l IH]; intros x.
    + exists [], []. cbn. repeat split; constructor.
    + destruct (IH y) as (before & after & E & Hbefore & Hafter).
      cbn [first_best]. unfold quoteAmount, JS.BigInt.
      destruct (Z.ltb_spec (Z.of_N (buyAmount (quote x)))
                  (Z.of_N (buyAmount (quote (first_best y l))))) as [Hlt|Hge].
      * exists (x :: before), after. rewrite E at 1. split; [reflexivity|].
        split; [constructor; [lia|exact Hbefore]|exact Hafter].
      * exists [], (y :: l). split; [reflexivity|]. split; [constructor|].
        rewrite E. apply Forall_app. split.
        -- eapply List.Forall_impl; [|exact Hbefore]. cbn. intros q Hq. lia.
        -- constructor; [lia|].
           eapply List.Forall_impl; [|exact Hafter]. cbn. intros q Hq. lia.
  - intros Hlen. apply Hd. destruct l; [reflexivity|discriminate].
Qed.

Lemma quote_service_comparison_names_best_quote_witness :
  let early :=
    {| e_aggregator := ZEROX;
       quote := convertToLegacyQuote (sampleQuote "0x" 7%N) "0x" |} in
  let late :=
    {| e_aggregator := ODOS;
       quote := convertToLegacyQuote (sampleQuote "odos" 7%N) "odos" |} in
  exists best c,
    QuoteService.bestOf [early; late] = Ok best
    /\ QuoteService.compareOf [early; late] = Ok c
    /\ quotes c = [early; late]
    /\ bestAggregator c = e_aggregator best
    /\ (exists before after,
          [early; late] = before ++ best :: after
          /\ Forall (fun q => (buyAmount (quote q) < buyAmount (quote best))%N)
               before
          /\ Forall (fun q => (buyAmount (quote q) <= buyAmount (quote best))%N)
               after)
    /\ (length [early; late] = 1%nat -> priceDifference c = Some "0"%string).
Proof.
  intros early late.
  apply (quote_service_comparison_names_best_quote [early; late]).
  discriminate.
Defined.

